(** * mela2mealie: the record mapper, the text normaliser, the set-up of the
      reference tables and the per-record orchestration of [mela2mealie.py],
      embedded in Rocq.

    Python values are modelled dynamically typed, as the script receives them
    from [json.loads]; a Python [str] is a list of Unicode code points.
    Functions that can raise return a sum whose left side is the exception.
    [uuid.uuid4] and the HTTP session are threaded as explicit state. *)

From Stdlib Require Import ZArith NArith List Bool Ascii String Lia ZifyBool.
From Stdlib Require Import Floats.SpecFloat.
From Stdlib Require Decimal DecimalN.
From stdpp Require Import base option list gmap.

Import ListNotations.
Set Warnings "-register-all".
Local Open Scope N_scope.
Local Open Scope list_scope.

(** ** Python strings *)

(** A code point. *)
Definition char : Type := N.

(** A Python [str]. *)
Definition str : Type := list char.

(** A source literal, written as a Rocq string. *)
Definition lit (s : string) : str :=
  List.map N_of_ascii (list_ascii_of_string s).

Definition is_ascii (c : char) : bool := c <? 128.

Definition all_ascii (s : str) : bool := forallb is_ascii s.

Definition ascii_upper_letter (c : char) : bool := (65 <=? c) && (c <=? 90).
Definition ascii_lower_letter (c : char) : bool := (97 <=? c) && (c <=? 122).
Definition ascii_digit (c : char) : bool := (48 <=? c) && (c <=? 57).

Definition ascii_lower (c : char) : char :=
  if ascii_upper_letter c then c + 32 else c.

Definition ascii_upper (c : char) : char :=
  if ascii_lower_letter c then c - 32 else c.

(** [str.isspace] of one code point, which is also the class [\s] of [re] on
    [str] patterns: the characters of bidirectional type WS, B or S and of
    category Zs. *)
Definition py_isspace (c : char) : bool :=
  ((9 <=? c) && (c <=? 13)) || ((28 <=? c) && (c <=? 32))
  || (c =? 133) || (c =? 160) || (c =? 5760)
  || ((8192 <=? c) && (c <=? 8202))
  || (c =? 8232) || (c =? 8233) || (c =? 8239) || (c =? 8287) || (c =? 12288).

(** ** Python values, as [json.loads] produces them and [json.dumps] takes
    them. A [dict] inside a value keeps its insertion order. *)
Inductive pyval : Type :=
  | PNone
  | PBool (b : bool)
  | PInt (z : Z)
  | PFloat (f : spec_float)
  | PStr (s : str)
  | PList (l : list pyval)
  | PDict (d : list (str * pyval)).

(** The exceptions the modelled code can raise. *)
Inductive PyErr : Type :=
  | AttributeError
  | TypeError
  | ValueError
  | OverflowError
  | KeyError
  | IndexError
  | RequestException.

(** Truth value of an object, as [if x:] and [not x] test it. *)
Definition truthy (v : pyval) : bool :=
  match v with
  | PNone => false
  | PBool b => b
  | PInt z => negb (z =? 0)%Z
  | PFloat f => match f with S754_zero _ => false | _ => true end
  | PStr s => match s with [] => false | _ => true end
  | PList l => match l with [] => false | _ => true end
  | PDict d => match d with [] => false | _ => true end
  end.

(** ** The parts of the Python runtime the script relies on and that are
    tables of the Unicode database or library code: they are parameters.
    What the runtime does on ASCII text is fixed below, not here. *)
Class Runtime : Type := {
  (** [unicodedata.normalize("NFKD", s)] for [s] with a non-ASCII character *)
  nfkd_u : str -> str;
  (** [s.lower()] and [s.upper()] for [s] with a non-ASCII character *)
  lower_u : str -> str;
  upper_u : str -> str;
  (** the decimal value of a non-ASCII code point of category Nd *)
  decimal_u : char -> option N;
  (** [str(v)] of a value that is not a [str] *)
  repr_u : pyval -> str;
  (** [dt.strftime("%Y-%m-%d")] and [dt.isoformat()] for
      [dt = datetime(2001, 1, 1, tzinfo=utc) + timedelta(seconds=v)], or the
      exception that the [timedelta] or the addition raises *)
  nsdate : pyval -> PyErr + (str * str);
  (** [base64.b64decode(v)]: the bytes, or nothing when it raises *)
  b64decode : pyval -> option (list N)
}.

Section Text.
Context {RT : Runtime}.

(** [unicodedata.normalize("NFKD", s)]: the identity on ASCII text. *)
Definition py_nfkd (s : str) : str :=
  if all_ascii s then s else nfkd_u s.

(** [s.lower()] *)
Definition py_lower (s : str) : str :=
  if all_ascii s then List.map ascii_lower s else lower_u s.

(** [s.upper()] *)
Definition py_upper (s : str) : str :=
  if all_ascii s then List.map ascii_upper s else upper_u s.

(** The decimal value of a code point matched by [\d]. *)
Definition decimal_value (c : char) : option N :=
  if is_ascii c then (if ascii_digit c then Some (c - 48) else None)
  else decimal_u c.

Definition py_isdecimal (c : char) : bool :=
  match decimal_value c with Some _ => true | None => false end.

End Text.

(** ** List helpers for the string methods *)

Fixpoint drop_while {A} (p : A -> bool) (l : list A) : list A :=
  match l with
  | [] => []
  | x :: l' => if p x then drop_while p l' else l
  end.

Fixpoint take_while {A} (p : A -> bool) (l : list A) : list A :=
  match l with
  | [] => []
  | x :: l' => if p x then x :: take_while p l' else []
  end.

(** [s.lstrip()], [s.rstrip()] and [s.strip()] with a character class. *)
Definition lstrip_with (p : char -> bool) (s : str) : str := drop_while p s.

Definition rstrip_with (p : char -> bool) (s : str) : str :=
  rev (drop_while p (rev s)).

Definition strip_with (p : char -> bool) (s : str) : str :=
  rstrip_with p (lstrip_with p s).

(** [s.strip()] *)
Definition py_strip (s : str) : str := strip_with py_isspace s.

(** [s.startswith(prefix)] *)
Fixpoint startswith (prefix s : str) : bool :=
  match prefix, s with
  | [], _ => true
  | _ :: _, [] => false
  | p :: prefix', c :: s' => (p =? c) && startswith prefix' s'
  end.

(** [s.split(sep)] for a one-character separator: never an empty list. *)
Fixpoint split_on (sep : char) (s : str) : list str :=
  match s with
  | [] => [[]]
  | c :: s' =>
      if c =? sep then [] :: split_on sep s'
      else match split_on sep s' with
           | [] => [[c]]
           | w :: ws => (c :: w) :: ws
           end
  end.

Definition chr_newline : char := 10.
Definition chr_hash : char := 35.
Definition chr_hyphen : char := 45.
Definition chr_underscore : char := 95.

Definition is_hyphen (c : char) : bool := c =? chr_hyphen.

(** ** slugify *)

(** The class [\w] of [re] on ASCII text. *)
Definition re_word (c : char) : bool :=
  ascii_lower_letter c || ascii_upper_letter c || ascii_digit c
  || (c =? chr_underscore).

(** [re.sub(p+, rep, s)] for a character class [p]: every maximal run of
    characters of the class is replaced by one [rep]. [in_run] tells that the
    previous character belonged to the run being replaced. *)
Fixpoint sub_runs (p : char -> bool) (rep : char) (in_run : bool) (s : str)
  : str :=
  match s with
  | [] => []
  | c :: s' =>
      if p c then
        if in_run then sub_runs p rep true s'
        else rep :: sub_runs p rep true s'
      else c :: sub_runs p rep false s'
  end.

Section Slug.
Context {RT : Runtime}.

(** [unicodedata.normalize("NFKD", text).encode("ascii", "ignore")
     .decode("ascii")] *)
Definition to_ascii (text : str) : str :=
  List.filter is_ascii (py_nfkd text).

(** The characters that [[^\w\s-]] leaves in place. *)
Definition slug_keep (c : char) : bool :=
  re_word c || py_isspace c || is_hyphen c.

(** The class [[\s_]]. *)
Definition blank_or_underscore (c : char) : bool :=
  py_isspace c || (c =? chr_underscore).

(** Lines 50 to 54, on the ASCII text that line 49 leaves. *)
Definition slug_of_ascii (text : str) : str :=
  let text := py_strip (py_lower text) in
  let text := List.filter slug_keep text in
  let text := sub_runs blank_or_underscore chr_hyphen false text in
  let text := sub_runs is_hyphen chr_hyphen false text in
  strip_with is_hyphen text.

Definition slugify (text : str) : str := slug_of_ascii (to_ascii text).

End Slug.

(** ** Integers as text *)

Fixpoint uint_chars (d : Decimal.uint) : str :=
  match d with
  | Decimal.Nil => []
  | Decimal.D0 d => 48 :: uint_chars d
  | Decimal.D1 d => 49 :: uint_chars d
  | Decimal.D2 d => 50 :: uint_chars d
  | Decimal.D3 d => 51 :: uint_chars d
  | Decimal.D4 d => 52 :: uint_chars d
  | Decimal.D5 d => 53 :: uint_chars d
  | Decimal.D6 d => 54 :: uint_chars d
  | Decimal.D7 d => 55 :: uint_chars d
  | Decimal.D8 d => 56 :: uint_chars d
  | Decimal.D9 d => 57 :: uint_chars d
  end.

(** [f"{n}"] of a non-negative [int] *)
Definition str_of_N (n : N) : str := uint_chars (N.to_uint n).

(** [f"{z}"] of an [int] *)
Definition str_of_Z (z : Z) : str :=
  match z with
  | Zneg p => chr_hyphen :: str_of_N (Npos p)
  | _ => str_of_N (Z.to_N z)
  end.

(** ** parse_time_to_iso *)

Section Duration.
Context {RT : Runtime}.

(** [sys.get_int_max_str_digits()]: the limit of the interpreter on the
    number of digits of a text that [int] converts.  The script leaves it
    at its default. *)
Definition int_max_str_digits : N := 4300.

(** The number that a run of decimal digits denotes. *)
Definition digits_value (ds : str) : N :=
  fold_left (fun acc c => acc * 10 + default 0 (decimal_value c)) ds 0.

(** [int(ds)] of a run of decimal digits: a [ValueError] when the run has
    more digits than the limit allows. *)
Definition int_of_digits (ds : str) : PyErr + N :=
  if int_max_str_digits <? N.of_nat (length ds) then inl ValueError
  else inr (digits_value ds).

(** One attempt of [(\d+)\s*(?:unit)] at the start of [s]: group 1 when it
    matches. The digits and the blanks are taken greedily; giving some back
    cannot help, because the character that follows a shorter run is a digit
    or a blank and no unit starts with one. *)
Definition match_count_at (unit : str -> bool) (s : str) : option str :=
  match take_while py_isdecimal s with
  | [] => None
  | ds =>
      if unit (drop_while py_isspace (drop_while py_isdecimal s))
      then Some ds else None
  end.

(** [re.search]: the leftmost position where the attempt succeeds. *)
Fixpoint re_search_count (unit : str -> bool) (s : str) : option str :=
  match match_count_at unit s with
  | Some ds => Some ds
  | None =>
      match s with
      | [] => None
      | _ :: s' => re_search_count unit s'
      end
  end.

(** [h(?:ours?|r)?|stunde[n]?]: the match needs [h] or [stunde]; what
    follows is optional. *)
Definition hour_unit (s : str) : bool :=
  startswith (lit "h") s || startswith (lit "stunde") s.

(** [m(?:in(?:ute[ns]?)?)?|minute[n]?] *)
Definition minute_unit (s : str) : bool :=
  startswith (lit "m") s || startswith (lit "minute") s.

(** [re.match(r'^(\d+)$', s)]: [$] also matches before a final newline. *)
Definition bare_match (s : str) : option str :=
  match take_while py_isdecimal s with
  | [] => None
  | ds =>
      match drop_while py_isdecimal s with
      | [] => Some ds
      | [c] => if c =? chr_newline then Some ds else None
      | _ => None
      end
  end.

(** [int(match.group(1))] when there is a match, and the count that is
    kept otherwise. *)
Definition int_of_match (m : option str) (count : N) : PyErr + N :=
  match m with
  | Some ds => int_of_digits ds
  | None => inr count
  end.

(** Lines 93 to 101. *)
Definition compose_duration (time_str : str) (hours minutes : N) : str :=
  if (hours =? 0) && (minutes =? 0) then time_str
  else
    lit "PT"
    ++ (if hours =? 0 then [] else str_of_N hours ++ lit "H")
    ++ (if minutes =? 0 then [] else str_of_N minutes ++ lit "M").

(** Lines 68 to 101, on the stripped and lowercased text. *)
Definition parse_time_text (time_str : str) : PyErr + str :=
  if startswith (lit "pt") time_str then inr (py_upper time_str)
  else
    let h_match := re_search_count hour_unit time_str in
    let m_match := re_search_count minute_unit time_str in
    match int_of_match h_match 0 with
    | inl e => inl e
    | inr hours =>
        match int_of_match m_match 0 with
        | inl e => inl e
        | inr minutes =>
            match h_match, m_match with
            | None, None =>
                match bare_match time_str with
                | Some ds =>
                    match int_of_digits ds with
                    | inl e => inl e
                    | inr minutes =>
                        inr (compose_duration time_str hours minutes)
                    end
                | None => inr time_str
                end
            | _, _ => inr (compose_duration time_str hours minutes)
            end
        end
    end.

(** The hour count and the minute count that the scan finds, if any; a bare
    integer counts as minutes when no unit was found. *)
Definition hour_count (time_str : str) : option N :=
  digits_value <$> re_search_count hour_unit time_str.

Definition minute_count (time_str : str) : option N :=
  match re_search_count minute_unit time_str with
  | Some ds => Some (digits_value ds)
  | None =>
      match re_search_count hour_unit time_str with
      | Some _ => None
      | None => digits_value <$> bare_match time_str
      end
  end.

(** A text that is no duration token and in which both counts are zero. *)
Definition unparseable (time_str : str) : bool :=
  negb (startswith (lit "pt") time_str)
  && (default 0 (hour_count time_str) =? 0)
  && (default 0 (minute_count time_str) =? 0).

(** A run of digits that [int] converts. *)
Definition within_limit (m : option str) : bool :=
  match m with
  | Some ds => negb (int_max_str_digits <? N.of_nat (length ds))
  | None => true
  end.

(** Every run of digits that lines 80, 82 and 88 convert is within the
    limit of [int]. *)
Definition counts_within_limit (time_str : str) : bool :=
  startswith (lit "pt") time_str
  || (within_limit (re_search_count hour_unit time_str)
      && within_limit (re_search_count minute_unit time_str)
      && match re_search_count hour_unit time_str,
               re_search_count minute_unit time_str with
         | None, None => within_limit (bare_match time_str)
         | _, _ => true
         end).

(** The text that lines 68 to 101 return when they return. *)
Definition parse_time_value (time_str : str) : str :=
  if startswith (lit "pt") time_str then py_upper time_str
  else
    let h_match := re_search_count hour_unit time_str in
    let m_match := re_search_count minute_unit time_str in
    let hours := match h_match with Some ds => digits_value ds | None => 0 end in
    let minutes := match m_match with Some ds => digits_value ds | None => 0 end in
    let found :=
      match h_match, m_match with
      | None, None =>
          match bare_match time_str with
          | Some ds => Some (digits_value ds)
          | None => None
          end
      | _, _ => Some minutes
      end in
    match found with
    | None => time_str
    | Some minutes =>
        if (hours =? 0) && (minutes =? 0) then time_str
        else
          lit "PT"
          ++ (if hours =? 0 then [] else str_of_N hours ++ lit "H")
          ++ (if minutes =? 0 then [] else str_of_N minutes ++ lit "M")
    end.

(** An argument of the declared type, [str] or [None]. *)
Definition time_input (o : option str) : pyval :=
  match o with Some s => PStr s | None => PNone end.

Definition parse_time_to_iso (time_str : pyval) : PyErr + pyval :=
  if negb (truthy time_str) then inr PNone
  else
    match time_str with
    | PStr s =>
        match py_strip s with
        | [] => inr PNone
        | stripped =>
            match parse_time_text (py_lower stripped) with
            | inl e => inl e
            | inr t => inr (PStr t)
            end
        end
    | _ => inl AttributeError
    end.

End Duration.

(** ** Dictionaries *)

(** [d[k] = v] on a [dict] inside a value: in place when the key is there,
    at the end otherwise. *)
Fixpoint dict_set (k : str) (v : pyval) (d : list (str * pyval))
  : list (str * pyval) :=
  match d with
  | [] => [(k, v)]
  | (k', v') :: d' =>
      if decide (k' = k) then (k, v) :: d' else (k', v') :: dict_set k v d'
  end.

(** [d.get(k, dflt)] *)
Definition py_get_or (d : gmap str pyval) (k : str) (dflt : pyval) : pyval :=
  default dflt (d !! k).

(** [d.get(k)] *)
Definition py_get (d : gmap str pyval) (k : str) : pyval := py_get_or d k PNone.

(** ** The monad of the mapper: the state of the identifier source, and
    exceptions. *)

(** [str(uuid.uuid4())] draws from a source of randomness [G]. *)
Class IdSource (G : Type) : Type := uuid4 : G -> str * G.

Definition M (G A : Type) : Type := G -> PyErr + (A * G).

Definition ret {G A} (a : A) : M G A := fun g => inr (a, g).

Definition raise {G A} (e : PyErr) : M G A := fun _ => inl e.

Definition bind {G A B} (m : M G A) (k : A -> M G B) : M G B :=
  fun g => match m g with
           | inl e => inl e
           | inr (a, g') => k a g'
           end.

Definition lift_err {G A} (r : PyErr + A) : M G A :=
  match r with inl e => raise e | inr a => ret a end.

Definition fresh_id {G} `{IdSource G} : M G str :=
  fun g => inr (uuid4 g).

Notation "'let*' x ':=' c1 'in' c2" := (bind c1 (fun x => c2))
  (at level 10, x pattern, c1 at level 100, c2 at level 200).

(** ** The structured text blocks and the record mapper *)

Section Mapper.
Context {RT : Runtime} {G : Type} {IDS : IdSource G}.

(** The body of the loop of [mela_instructions_to_steps] (lines 118 to 137)
    over the lines that remain, with the steps gathered so far. *)
Fixpoint steps_loop (lines : list str) (steps : list pyval)
  : M G (list pyval) :=
  match lines with
  | [] => ret steps
  | line :: lines' =>
      let line := py_strip line in
      match line with
      | [] => steps_loop lines' steps
      | _ =>
          let* id := fresh_id in
          let step :=
            [ (lit "id", PStr id);
              (lit "title", PStr []);
              (lit "summary", PStr []);
              (lit "text", PStr []);
              (lit "ingredientReferences", PList []) ] in
          let step :=
            if startswith (lit "#") line
            then dict_set (lit "title")
                   (PStr (py_strip (lstrip_with (fun c => c =? chr_hash) line)))
                   step
            else dict_set (lit "text") (PStr line) step in
          steps_loop lines' (steps ++ [PDict step])
      end
  end.

Definition mela_instructions_to_steps (instructions_str : pyval)
  : M G (list pyval) :=
  if negb (truthy instructions_str) then ret []
  else
    match instructions_str with
    | PStr s => steps_loop (split_on chr_newline s) []
    | _ => raise AttributeError
    end.

(** The body of the loop of [mela_ingredients_to_list] (lines 157 to 169). *)
Fixpoint ingredients_loop (lines : list str) (ingredients : list pyval)
    (pending_title : pyval) : M G (list pyval) :=
  match lines with
  | [] => ret ingredients
  | line :: lines' =>
      let line := py_strip line in
      match line with
      | [] => ingredients_loop lines' ingredients pending_title
      | _ =>
          if startswith (lit "#") line
          then
            ingredients_loop lines' ingredients
              (PStr (py_strip (lstrip_with (fun c => c =? chr_hash) line)))
          else
            let* id := fresh_id in
            let ing := [ (lit "note", PStr line); (lit "referenceId", PStr id) ] in
            if truthy pending_title
            then ingredients_loop lines'
                   (ingredients ++ [PDict (dict_set (lit "title") pending_title ing)])
                   PNone
            else ingredients_loop lines' (ingredients ++ [PDict ing])
                   pending_title
      end
  end.

Definition mela_ingredients_to_list (ingredients_str : pyval)
  : M G (list pyval) :=
  if negb (truthy ingredients_str) then ret []
  else
    match ingredients_str with
    | PStr s => ingredients_loop (split_on chr_newline s) [] PNone
    | _ => raise AttributeError
    end.

(** [slugify(c)] of a value: [unicodedata.normalize] takes only a [str]. *)
Definition slugify_value (c : pyval) : PyErr + str :=
  match c with
  | PStr s => inr (slugify s)
  | _ => inl TypeError
  end.

(** The loop of lines 233 to 238. *)
Fixpoint category_refs (cats : list pyval) (category_lookup : gmap str pyval)
    (cat_refs : list pyval) : PyErr + list pyval :=
  match cats with
  | [] => inr cat_refs
  | c :: cats' =>
      if negb (truthy c) then category_refs cats' category_lookup cat_refs
      else
        match slugify_value c with
        | inl e => inl e
        | inr cat_slug =>
            match category_lookup !! cat_slug with
            | Some entry =>
                category_refs cats' category_lookup (cat_refs ++ [entry])
            | None => category_refs cats' category_lookup cat_refs
            end
        end
  end.

(** Lines 243 to 250. *)
Definition tag_refs_of (mela_recipe tag_lookup : gmap str pyval)
  : list pyval :=
  let tag_refs := [] in
  let tag_refs :=
    match tag_lookup !! lit "mela-import" with
    | Some entry => tag_refs ++ [entry]
    | None => tag_refs
    end in
  let tag_refs :=
    if truthy (py_get mela_recipe (lit "favorite"))
    then match tag_lookup !! lit "favorite" with
         | Some entry => tag_refs ++ [entry]
         | None => tag_refs
         end
    else tag_refs in
  let tag_refs :=
    if truthy (py_get mela_recipe (lit "wantToCook"))
    then match tag_lookup !! lit "want-to-cook" with
         | Some entry => tag_refs ++ [entry]
         | None => tag_refs
         end
    else tag_refs in
  tag_refs.

(** [if mela_recipe.get(src): mealie[dst] = mela_recipe[src]] *)
Definition copy_field (mela_recipe : gmap str pyval) (src dst : str)
    (mealie : gmap str pyval) : gmap str pyval :=
  if truthy (py_get mela_recipe src)
  then <[dst := py_get mela_recipe src]> mealie
  else mealie.

(** [if mela_recipe.get(src): mealie[dst] = parse_time_to_iso(mela_recipe[src])] *)
Definition time_field (mela_recipe : gmap str pyval) (src dst : str)
    (mealie : gmap str pyval) : PyErr + gmap str pyval :=
  if truthy (py_get mela_recipe src)
  then
    match parse_time_to_iso (py_get mela_recipe src) with
    | inl e => inl e
    | inr t => inr (<[dst := t]> mealie)
    end
  else inr mealie.

(** Lines 205 to 209. *)
Definition date_fields (mela_recipe mealie : gmap str pyval)
  : PyErr + gmap str pyval :=
  if truthy (py_get mela_recipe (lit "date"))
  then
    match nsdate (py_get mela_recipe (lit "date")) with
    | inl e => inl e
    | inr (day, iso) =>
        inr (<[lit "createdAt" := PStr iso]>
               (<[lit "dateAdded" := PStr day]> mealie))
    end
  else inr mealie.

(** Lines 220 to 226. *)
Definition notes_field (mela_recipe mealie : gmap str pyval)
  : gmap str pyval :=
  let notes_parts := [] in
  let notes_parts :=
    if truthy (py_get mela_recipe (lit "notes"))
    then notes_parts ++ [PDict [ (lit "title", PStr (lit "Notes"));
                                 (lit "text", py_get mela_recipe (lit "notes")) ]]
    else notes_parts in
  let notes_parts :=
    if truthy (py_get mela_recipe (lit "nutrition"))
    then notes_parts ++ [PDict [ (lit "title", PStr (lit "Nutrition"));
                                 (lit "text", py_get mela_recipe (lit "nutrition")) ]]
    else notes_parts in
  match notes_parts with
  | [] => mealie
  | _ => <[lit "notes" := PList notes_parts]> mealie
  end.

(** Lines 229 to 240. *)
Definition category_field (mela_recipe category_lookup mealie : gmap str pyval)
  : PyErr + gmap str pyval :=
  if truthy (py_get mela_recipe (lit "categories"))
  then
    match py_get mela_recipe (lit "categories") with
    | PList cats =>
        match category_refs cats category_lookup [] with
        | inl e => inl e
        | inr [] => inr mealie
        | inr cat_refs => inr (<[lit "recipeCategory" := PList cat_refs]> mealie)
        end
    | _ => inr mealie
    end
  else inr mealie.

(** Lines 243 to 252. *)
Definition tags_field (mela_recipe tag_lookup mealie : gmap str pyval)
  : gmap str pyval :=
  match tag_refs_of mela_recipe tag_lookup with
  | [] => mealie
  | tag_refs => <[lit "tags" := PList tag_refs]> mealie
  end.

Definition convert_mela_to_mealie
    (mela_recipe category_lookup tag_lookup : gmap str pyval)
  : M G (gmap str pyval) :=
  let mealie : gmap str pyval := ∅ in
  (* Direct mappings *)
  let mealie := copy_field mela_recipe (lit "title") (lit "name") mealie in
  let mealie := copy_field mela_recipe (lit "text") (lit "description") mealie in
  let mealie := copy_field mela_recipe (lit "yield") (lit "recipeYield") mealie in
  (* Time fields *)
  let* mealie :=
    lift_err (time_field mela_recipe (lit "prepTime") (lit "prepTime") mealie) in
  let* mealie :=
    lift_err (time_field mela_recipe (lit "cookTime") (lit "performTime") mealie) in
  let* mealie :=
    lift_err (time_field mela_recipe (lit "totalTime") (lit "totalTime") mealie) in
  (* Source URL *)
  let mealie := copy_field mela_recipe (lit "link") (lit "orgURL") mealie in
  (* Date *)
  let* mealie := lift_err (date_fields mela_recipe mealie) in
  (* Structured data *)
  let* ingredients :=
    mela_ingredients_to_list
      (py_get_or mela_recipe (lit "ingredients") (PStr [])) in
  let mealie := <[lit "recipeIngredient" := PList ingredients]> mealie in
  let* steps :=
    mela_instructions_to_steps
      (py_get_or mela_recipe (lit "instructions") (PStr [])) in
  let mealie := <[lit "recipeInstructions" := PList steps]> mealie in
  (* Notes *)
  let mealie := notes_field mela_recipe mealie in
  (* Categories *)
  let* mealie := lift_err (category_field mela_recipe category_lookup mealie) in
  (* Tags *)
  let mealie := tags_field mela_recipe tag_lookup mealie in
  ret mealie.

End Mapper.

(** ** Source records (section 3 of the specification): every field may be
    absent; one that is present has the type the source application gives
    it, and a creation time that is present is one [datetime] can hold. *)

Section SourceRecords.
Context {RT : Runtime}.

Definition absent_or (p : pyval -> bool) (r : gmap str pyval) (k : str) : bool :=
  match r !! k with
  | None => true
  | Some v => p v
  end.

Definition is_str (v : pyval) : bool :=
  match v with PStr _ => true | _ => false end.

Definition is_bool (v : pyval) : bool :=
  match v with PBool _ => true | _ => false end.

Definition is_str_list (v : pyval) : bool :=
  match v with PList l => forallb is_str l | _ => false end.

Definition is_date (v : pyval) : bool :=
  match v with
  | PInt _ | PFloat _ => match nsdate v with inr _ => true | inl _ => false end
  | _ => false
  end.

Definition text_fields : list str :=
  [ lit "title"; lit "text"; lit "yield"; lit "link";
    lit "prepTime"; lit "cookTime"; lit "totalTime";
    lit "ingredients"; lit "instructions"; lit "notes"; lit "nutrition" ].

Definition source_recipe (r : gmap str pyval) : bool :=
  forallb (absent_or is_str r) text_fields
  && absent_or is_date r (lit "date")
  && absent_or is_str_list r (lit "categories")
  && absent_or is_bool r (lit "favorite")
  && absent_or is_bool r (lit "wantToCook")
  && absent_or is_str_list r (lit "images").

(** A duration in which every run of digits that [parse_time_to_iso]
    converts is within the limit of [int]. *)
Definition duration_within_limit (v : pyval) : bool :=
  match v with
  | PStr s => counts_within_limit (py_lower (py_strip s))
  | _ => true
  end.

Definition durations_within_limit (r : gmap str pyval) : bool :=
  duration_within_limit (py_get r (lit "prepTime"))
  && duration_within_limit (py_get r (lit "cookTime"))
  && duration_within_limit (py_get r (lit "totalTime")).

End SourceRecords.

(** ** The orchestrator, one record at a time (lines 445 to 520) *)

(** What a call of the [requests] session gives: a response, or a
    [requests.RequestException]. *)
Inductive HttpResult : Type :=
  | Response (status_code : Z) (text : str)
  | Raised.

(** The calls [migrate] makes for a record, under the base URL of the run. *)
Inductive Call : Type :=
  (** [session.post(f"{base_url}/api/recipes", json={"name": name})] *)
  | PostRecipe (name : pyval)
  (** [session.patch(f"{base_url}/api/recipes/{slug}", json=payload)] *)
  | PatchRecipe (slug : str) (payload : gmap str pyval)
  (** [session.put(f"{base_url}/api/recipes/{slug}/image", ...)] *)
  | PutImage (slug : str) (ext : str) (data : list N).

(** The world outside the script: the target server, the clock and the
    source of randomness. *)
Class World (W : Type) : Type := {
  send : Call -> W -> HttpResult * W;
  (** [int(time.time())] *)
  time_time : W -> Z * W;
  world_uuid4 : W -> str * W
}.

(** The per-record outcome that the counters [success] and [failed] tally. *)
Inductive Outcome : Type := Succeeded | Failed.

Section Orchestrator.
Context {RT : Runtime} {W : Type} {WD : World W}.

(** The state of a run: the world, and the calls made so far, each with
    what it gave. *)
Definition Run : Type := (W * list (Call * HttpResult))%type.

#[local] Instance run_ids : IdSource Run :=
  fun '(w, log) => let (id, w') := world_uuid4 w in (id, (w', log)).

(** The monad of the orchestrator: an exception leaves the state of the run
    as it was when it was raised. *)
Definition Act (A : Type) : Type := Run -> (PyErr + A) * Run.

Definition oret {A} (a : A) : Act A := fun s => (inr a, s).

Definition oraise {A} (e : PyErr) : Act A := fun s => (inl e, s).

Definition obind {A B} (m : Act A) (k : A -> Act B) : Act B :=
  fun s => match m s with
           | (inl e, s') => (inl e, s')
           | (inr a, s') => k a s'
           end.

Notation "'let+' x ':=' c1 'in' c2" := (obind c1 (fun x => c2))
  (at level 10, x pattern, c1 at level 100, c2 at level 200).

(** A computation of the mapper, inside a run. *)
Definition of_mapper {A} (m : M Run A) : Act A :=
  fun s => match m s with
           | inl e => (inl e, s)
           | inr (a, s') => (inr a, s')
           end.

Definition of_result {A} (r : PyErr + A) : Act A :=
  match r with inl e => oraise e | inr a => oret a end.

Definition session_call (c : Call) : Act HttpResult :=
  fun '(w, log) => let (r, w') := send c w in (inr r, (w', log ++ [(c, r)])).

(** A call outside any [try]: the exception propagates. *)
Definition request (c : Call) : Act (Z * str) :=
  let+ r := session_call c in
  match r with
  | Response status_code text => oret (status_code, text)
  | Raised => oraise RequestException
  end.

Definition now : Act Z :=
  fun '(w, log) => let (t, w') := time_time w in (inr t, (w', log)).

(** [f"{v}"] *)
Definition py_format (v : pyval) : str :=
  match v with PStr s => s | _ => repr_u v end.

(** [resp.text.strip()], then [.strip] of the double quote (code 34) *)
Definition slug_of_response (text : str) : str :=
  strip_with (fun c => c =? 34) (py_strip text).

(** The magic bytes of lines 271 to 275. *)
Definition image_ext (img_data : list N) : str :=
  if decide (take 8 img_data = [137; 80; 78; 71; 13; 10; 26; 10]) then lit "png"
  else if decide (take 4 img_data = [82; 73; 70; 70]
                  /\ take 4 (drop 8 img_data) = [87; 69; 66; 80]) then lit "webp"
  else lit "jpg".

Definition upload_image (slug : str) (image_b64 : pyval) : Act bool :=
  match b64decode image_b64 with
  | None => oret false
  | Some img_data =>
      let+ (status_code, _) :=
        request (PutImage slug (image_ext img_data) img_data) in
      oret (status_code =? 200)%Z
  end.

(** [images[0]] of a value that is true *)
Definition first_item (v : pyval) : PyErr + pyval :=
  match v with
  | PList (x :: _) => inr x
  | PList [] => inl IndexError
  | PStr (c :: _) => inr (PStr [c])
  | PStr [] => inl IndexError
  | PDict _ => inl KeyError
  | _ => inl TypeError
  end.

(** Steps 2 and 3 (lines 494 to 516), once the stub exists under [slug]. *)
Definition patch_and_upload (skip_images : bool)
    (category_lookup tag_lookup mela : gmap str pyval) (slug : str)
  : Act Outcome :=
  let+ mealie_data :=
    of_mapper (convert_mela_to_mealie mela category_lookup tag_lookup) in
  let+ (status_code, _) := request (PatchRecipe slug mealie_data) in
  if negb (status_code =? 200)%Z then oret Failed
  else
    let images := py_get_or mela (lit "images") (PList []) in
    let+ _ :=
      if truthy images && negb skip_images
      then
        let+ image := of_result (first_item images) in
        let+ _ := upload_image slug image in
        oret tt
      else oret tt in
    oret Succeeded.

(** The name of the retry:
    [f"{title} (mela-{int(time.time())})"]. *)
Definition unique_title (title : pyval) (t : Z) : str :=
  py_format title ++ lit " (mela-" ++ str_of_Z t ++ lit ")".

(** The body of the loop over the records. *)
Definition migrate_record (dry_run skip_images : bool)
    (category_lookup tag_lookup mela : gmap str pyval) : Act Outcome :=
  let title := py_get_or mela (lit "title") (PStr (lit "Untitled")) in
  if dry_run then
    let+ _ := of_mapper (convert_mela_to_mealie mela ∅ ∅) in
    oret Succeeded
  else
    (* Step 1: create the stub *)
    let+ resp := session_call (PostRecipe title) in
    match resp with
    | Raised => oret Failed
    | Response status_code text =>
        if (status_code =? 201)%Z then
          patch_and_upload skip_images category_lookup tag_lookup mela
            (slug_of_response text)
        else if (status_code =? 409)%Z then
          let+ t := now in
          let title_unique := unique_title title t in
          let+ (status_code, text) :=
            request (PostRecipe (PStr title_unique)) in
          if (status_code =? 201)%Z then
            patch_and_upload skip_images category_lookup tag_lookup mela
              (slug_of_response text)
          else oret Failed
        else oret Failed
    end.

(** The loop, with the counters [success] and [failed]. *)
Fixpoint migrate_records (dry_run skip_images : bool)
    (category_lookup tag_lookup : gmap str pyval)
    (recipes : list (gmap str pyval)) (success failed : nat)
  : Act (nat * nat) :=
  match recipes with
  | [] => oret (success, failed)
  | mela :: recipes' =>
      let+ outcome :=
        migrate_record dry_run skip_images category_lookup tag_lookup mela in
      match outcome with
      | Succeeded =>
          migrate_records dry_run skip_images category_lookup tag_lookup
            recipes' (S success) failed
      | Failed =>
          migrate_records dry_run skip_images category_lookup tag_lookup
            recipes' success (S failed)
      end
  end.

(** The record that a call addresses, for a call that changes one. *)
Definition call_slug (c : Call) : option str :=
  match c with
  | PostRecipe _ => None
  | PatchRecipe slug _ => Some slug
  | PutImage slug _ _ => Some slug
  end.

Definition is_create (c : Call) : bool :=
  match c with PostRecipe _ => true | _ => false end.

End Orchestrator.

(** ** A concrete runtime and world, to run the model on ASCII data *)

Module Sample.

Local Open Scope Z_scope.

(** Year, month and day of a day number counted from 1970-01-01. *)
Definition civil_from_days (days : Z) : Z * Z * Z :=
  let z := days + 719468 in
  let era := z / 146097 in
  let doe := z - era * 146097 in
  let yoe := (doe - doe / 1460 + doe / 36524 - doe / 146096) / 365 in
  let doy := doe - (365 * yoe + yoe / 4 - yoe / 100) in
  let mp := (5 * doy + 2) / 153 in
  let d := doy - (153 * mp + 2) / 5 + 1 in
  let m := if mp <? 10 then mp + 3 else mp - 9 in
  let y := yoe + era * 400 + (if m <=? 2 then 1 else 0) in
  (y, m, d).

(** [n] in decimal, padded with zeros to [width] digits. *)
Definition padded (width : nat) (n : Z) : str :=
  let digits := str_of_N (Z.to_N n) in
  repeat 48%N (width - length digits) ++ digits.

(** The two texts of lines 208 and 209 for a whole number of seconds.
    [strftime] is the one of the C library of Linux, which does not pad the
    year; [isoformat] pads it to four digits. *)
Definition nsdate_of_seconds (secs : Z) : PyErr + (str * str) :=
  let '(y, m, d) := civil_from_days (11323 + secs / 86400) in
  let rest := secs mod 86400 in
  if (y <? 1) || (9999 <? y) then inl OverflowError
  else
    let month_day := padded 2 m ++ lit "-" ++ padded 2 d in
    inr (str_of_N (Z.to_N y) ++ lit "-" ++ month_day,
         padded 4 y ++ lit "-" ++ month_day
           ++ lit "T" ++ padded 2 (rest / 3600) ++ lit ":"
           ++ padded 2 (rest mod 3600 / 60) ++ lit ":"
           ++ padded 2 (rest mod 60) ++ lit "+00:00").

(** A runtime that knows ASCII only: text with other characters is left as
    it is.  Of the creation times it knows the whole numbers of seconds
    only: one with a fraction, which the interpreter accepts, is outside
    this runtime and is answered with an error. *)
#[export] Instance runtime : Runtime := {|
  nfkd_u := fun s => s;
  lower_u := List.map ascii_lower;
  upper_u := List.map ascii_upper;
  decimal_u := fun _ => None;
  repr_u := fun _ => lit "?";
  nsdate := fun v =>
    match v with
    | PInt secs => nsdate_of_seconds secs
    | PBool b => nsdate_of_seconds (if b then 1 else 0)
    | PFloat _ => inl OverflowError
    | _ => inl TypeError
    end;
  b64decode := fun v =>
    match v with
    | PStr s => Some s
    | _ => None
    end
|}.

(** Identifiers from a counter. *)
#[export] Instance counter_ids : IdSource N :=
  fun n => (lit "id-" ++ str_of_N n, N.succ n).

(** A target that answers from a script, at a fixed time of day. *)
Record Scripted : Type := {
  script : list HttpResult;
  clock : Z;
  next_id : N
}.

#[export] Instance scripted_world : World Scripted := {|
  send := fun _ w =>
    match script w with
    | [] => (Raised, w)
    | r :: rest =>
        (r, {| script := rest; clock := clock w; next_id := next_id w |})
    end;
  time_time := fun w => (clock w, w);
  world_uuid4 := fun w =>
    (lit "id-" ++ str_of_N (next_id w),
     {| script := script w; clock := clock w; next_id := N.succ (next_id w) |})
|}.

(** [{k1: v1, ...}] *)
Definition dict_of (items : list (string * pyval)) : gmap str pyval :=
  list_to_map (List.map (fun kv => (lit (fst kv), snd kv)) items).

End Sample.

(** ** The shape of a slug *)

Definition slug_char (c : char) : bool :=
  ascii_lower_letter c || ascii_digit c || (c =? chr_hyphen).

(** No two hyphens in a row; [prev] tells that a hyphen comes just before. *)
Fixpoint no_double_hyphen (prev : bool) (s : str) : bool :=
  match s with
  | [] => true
  | c :: s' =>
      if is_hyphen c then negb prev && no_double_hyphen true s'
      else no_double_hyphen false s'
  end.

(** Lowercase letters, digits and single hyphens, with no hyphen at either
    end. *)
Definition slug_form (s : str) : Prop :=
  Forall (fun c => slug_char c = true) s
  /\ no_double_hyphen false s = true
  /\ strip_with is_hyphen s = s.

(** ** The structured text blocks, as the specification words them *)

(** The lines of a block that are not blank, stripped. *)
Definition content_lines (block : str) : list str :=
  List.filter (fun line => match line with [] => false | _ => true end)
    (List.map py_strip (split_on chr_newline block)).

(** ["\n".join(lines)] *)
Fixpoint join_lines (lines : list str) : str :=
  match lines with
  | [] => []
  | line :: lines' =>
      match lines' with
      | [] => line
      | _ => line ++ chr_newline :: join_lines lines'
      end
  end.

(** A line that begins with the header marker, and the title it carries. *)
Definition is_header (line : str) : bool := startswith (lit "#") line.

Definition header_title (line : str) : str :=
  py_strip (lstrip_with (fun c => c =? chr_hash) line).

(** The step that a line of an instructions block stands for. *)
Definition step_of (id line : str) : pyval :=
  PDict [ (lit "id", PStr id);
          (lit "title", PStr (if is_header line then header_title line else []));
          (lit "summary", PStr []);
          (lit "text", PStr (if is_header line then [] else line));
          (lit "ingredientReferences", PList []) ].

(** The title that a content line takes from the line just before it: the
    one of a header, unless it is empty. *)
Definition title_before (prev : option str) : option str :=
  match prev with
  | Some line =>
      if is_header line
      then match header_title line with [] => None | t => Some t end
      else None
  | None => None
  end.

(** The content lines of an ingredients block that are no headers, each with
    the title it carries, if any. *)
Fixpoint titled_lines (prev : option str) (lines : list str)
  : list (str * option str) :=
  match lines with
  | [] => []
  | line :: lines' =>
      if is_header line then titled_lines (Some line) lines'
      else (line, title_before prev) :: titled_lines (Some line) lines'
  end.

(** The ingredient that a content line stands for. *)
Definition ingredient_of (id : str) (item : str * option str) : pyval :=
  PDict ([ (lit "note", PStr (fst item)); (lit "referenceId", PStr id) ]
         ++ match snd item with
            | Some t => [ (lit "title", PStr t) ]
            | None => []
            end).

(** [n] identifiers in a row from the source. *)
Fixpoint draw_ids {G} `{IdSource G} (n : nat) (g : G) : list str * G :=
  match n with
  | O => ([], g)
  | S n' =>
      let (id, g1) := uuid4 g in
      let (ids, g2) := draw_ids n' g1 in
      (id :: ids, g2)
  end.

(** The content lines of the argument of a block parser: none for a value
    that is false, and an [AttributeError] for any other value without
    [split]. *)
Definition block_lines (v : pyval) : PyErr + list str :=
  if negb (truthy v) then inr []
  else match v with
       | PStr block => inr (content_lines block)
       | _ => inl AttributeError
       end.

(** ** Reading the payload *)

(** [m'] is [m] but, at most, on [keys]. *)
Definition only_sets (keys : list str) (m m' : gmap str pyval) : Prop :=
  forall k, k ∉ keys -> m' !! k = m !! k.

(** The value of the key [k] in a [dict] inside a value is blanked. *)
Definition blank_key (k : str) (v : pyval) : pyval :=
  match v with
  | PDict d =>
      PDict (List.map (fun kv => if decide (fst kv = k) then (k, PNone) else kv) d)
  | _ => v
  end.

Definition blank_key_in_items (k : str) (v : pyval) : pyval :=
  match v with
  | PList items => PList (List.map (blank_key k) items)
  | _ => v
  end.

(** The payload without the identifiers that the mapper generates: the
    reference identifier of every ingredient and the identifier of every
    step. *)
Definition erase_ids (mealie : gmap str pyval) : gmap str pyval :=
  alter (blank_key_in_items (lit "referenceId")) (lit "recipeIngredient")
    (alter (blank_key_in_items (lit "id")) (lit "recipeInstructions") mealie).

(** The keys of the payload for the three durations and for the two
    structured lists. *)
Definition time_keys : list str :=
  [ lit "prepTime"; lit "performTime"; lit "totalTime" ].

Definition block_keys : list str :=
  [ lit "recipeIngredient"; lit "recipeInstructions" ].

Definition date_keys : list str := [ lit "dateAdded"; lit "createdAt" ].

(** The source fields that are copied as they are, and the durations, each
    with the key of the payload it goes to. *)
Definition direct_fields : list (str * str) :=
  [ (lit "title", lit "name"); (lit "text", lit "description");
    (lit "yield", lit "recipeYield"); (lit "link", lit "orgURL") ].

Definition duration_fields : list (str * str) :=
  [ (lit "prepTime", lit "prepTime"); (lit "cookTime", lit "performTime");
    (lit "totalTime", lit "totalTime") ].

(** No value of the payload is [None], the durations aside, and none is
    empty but, possibly, the two structured lists and the date texts. *)
Definition payload_ok (mealie : gmap str pyval) : Prop :=
  forall k v, mealie !! k = Some v -> k ∉ time_keys ->
    v <> PNone /\ (k ∉ block_keys -> k ∉ date_keys -> truthy v = true).

(** What [erase_ids] does to the value of the key [k]. *)
Definition eraser (k : str) (v : pyval) : pyval :=
  if decide (k = lit "recipeIngredient")
  then blank_key_in_items (lit "referenceId") v
  else if decide (k = lit "recipeInstructions")
       then blank_key_in_items (lit "id") v
       else v.

(** Two payloads that differ in generated identifiers at most. *)
Definition same_but_ids (ma mb : gmap str pyval) : Prop :=
  forall k, eraser k <$> ma !! k = eraser k <$> mb !! k.

(** Two results of the mapper that differ in generated identifiers at
    most: the same exception, or payloads that are equal once the
    identifiers are erased. *)
Definition same_result_but_ids {G1 G2 : Type}
    (a : PyErr + (gmap str pyval * G1)) (b : PyErr + (gmap str pyval * G2))
  : Prop :=
  match a, b with
  | inl e1, inl e2 => e1 = e2
  | inr (out1, _), inr (out2, _) => erase_ids out1 = erase_ids out2
  | _, _ => False
  end.

(** The first character of [s], if any, is outside the class [p]. *)
Definition head_kept (p : char -> bool) (s : str) : Prop :=
  match s with [] => True | c :: _ => p c = false end.

(** A character of lowered ASCII text: ASCII, and no capital letter. *)
Definition lowered (c : char) : Prop :=
  is_ascii c = true /\ ascii_upper_letter c = false.

(** The pending title of the loop agrees with the line seen last. *)
Definition pending_agrees (pending_title : pyval) (prev : option str) : Prop :=
  match title_before prev with
  | Some t => pending_title = PStr t
  | None => pending_title = PNone \/ pending_title = PStr []
  end.

Section Staging.
Context {RT : Runtime} {G : Type} {IDS : IdSource G}.
Implicit Types (r cl tl out : gmap str pyval).

(** The intermediate values of one conversion that gave a payload. *)
Record stages : Type := Build_stages {
  st_m1 : gmap str pyval; st_m2 : gmap str pyval; st_m3 : gmap str pyval;
  st_m4 : gmap str pyval; st_m5 : gmap str pyval;
  st_ings : list pyval; st_steps : list pyval; st_g1 : G
}.

Definition staged r cl tl (g g' : G) out (s : stages) : Prop :=
  time_field r (lit "prepTime") (lit "prepTime")
    (copy_field r (lit "yield") (lit "recipeYield")
       (copy_field r (lit "text") (lit "description")
          (copy_field r (lit "title") (lit "name") ∅))) = inr (st_m1 s)
  /\ time_field r (lit "cookTime") (lit "performTime") (st_m1 s) = inr (st_m2 s)
  /\ time_field r (lit "totalTime") (lit "totalTime") (st_m2 s) = inr (st_m3 s)
  /\ date_fields r (copy_field r (lit "link") (lit "orgURL") (st_m3 s))
     = inr (st_m4 s)
  /\ mela_ingredients_to_list (py_get_or r (lit "ingredients") (PStr [])) g
     = inr (st_ings s, st_g1 s)
  /\ mela_instructions_to_steps (py_get_or r (lit "instructions") (PStr []))
       (st_g1 s) = inr (st_steps s, g')
  /\ category_field r cl
       (notes_field r
          (<[lit "recipeInstructions" := PList (st_steps s)]>
             (<[lit "recipeIngredient" := PList (st_ings s)]> (st_m4 s))))
     = inr (st_m5 s)
  /\ out = tags_field r tl (st_m5 s).

End Staging.

(** ** Sample records and targets *)

Module Records.
Import Sample.

(** A record with a duration that holds no number. *)
Definition soon_recipe : gmap str pyval :=
  dict_of [ ("title"%string, PStr (lit "Soup"));
            ("prepTime"%string, PStr (lit "soon")) ].

(** A record with a duration of blanks only. *)
Definition blank_time_recipe : gmap str pyval :=
  dict_of [ ("title"%string, PStr (lit "Soup"));
            ("prepTime"%string, PStr (lit "  ")) ].

(** A record with a duration of 4301 digits. *)
Definition long_count_recipe : gmap str pyval :=
  dict_of [ ("title"%string, PStr (lit "Soup"));
            ("prepTime"%string, PStr (repeat 57 4301)) ].

(** A record of the source application. *)
Definition soup_recipe : gmap str pyval :=
  dict_of [ ("title"%string, PStr (lit "Soup"));
            ("yield"%string, PStr (lit "4"));
            ("cookTime"%string, PStr (lit "1 h 30 min"));
            ("date"%string, PInt 700000000);
            ("ingredients"%string,
             PStr (lit "# Base" ++ [chr_newline] ++ lit "Stock"));
            ("instructions"%string, PStr (lit "Simmer."));
            ("categories"%string, PList [PStr (lit "Dinner")]);
            ("favorite"%string, PBool true) ].

(** A target on which the title is taken: the retry is answered 201, and
    the update 500. *)
Definition update_refused : Scripted :=
  {| script := [ Response 409 (lit "taken");
                 Response 201 ([34] ++ lit "soup-1" ++ [34]);
                 Response 500 (lit "no") ];
     clock := 1700000000;
     next_id := 0 |}.

(** The same target, with the update answered 200. *)
Definition update_accepted : Scripted :=
  {| script := [ Response 409 (lit "taken");
                 Response 201 ([34] ++ lit "soup-1" ++ [34]);
                 Response 200 (lit "ok") ];
     clock := 1700000000;
     next_id := 0 |}.

End Records.

(** ** Further definitions for the properties of the text normaliser *)

(** One step of [int] over a run of digits. *)
Definition digit_step {RT : Runtime} (acc : N) (c : char) : N :=
  acc * 10 + default 0 (decimal_value c).






(** A character of a composed token: ASCII, no small letter, no blank. *)
Definition token_char (c : char) : Prop :=
  is_ascii c = true /\ ascii_lower_letter c = false /\ py_isspace c = false.

(** The token for counts that are not both zero (lines 96 to 101). *)
Definition duration_token (hours minutes : N) : str :=
  lit "PT"
  ++ (if hours =? 0 then [] else str_of_N hours ++ lit "H")
  ++ (if minutes =? 0 then [] else str_of_N minutes ++ lit "M").

(** An ASCII letter or digit. *)
Definition ascii_alnum (c : char) : bool :=
  ascii_lower_letter c || ascii_upper_letter c || ascii_digit c.

(** ** Further definitions for the properties of the mapper *)

Section MapperTerms.
Context {RT : Runtime}.

(** The reference that a category of the source resolves to: the entry of
    the table under the slug of a name that is not empty. *)
Definition resolvable (category_lookup : gmap str pyval) (c : pyval)
  : option pyval :=
  if truthy c
  then match c with PStr s => category_lookup !! slugify s | _ => None end
  else None.

(** Every category is a [str] or is false. *)
Definition category_names_ok (cats : list pyval) : bool :=
  forallb (fun c => negb (truthy c) || is_str c) cats.

(** The tags that the mapper asks the table for (lines 244 to 250). *)
Definition wanted_tags (mela_recipe : gmap str pyval) : list str :=
  lit "mela-import"
  :: (if truthy (py_get mela_recipe (lit "favorite")) then [lit "favorite"] else [])
  ++ (if truthy (py_get mela_recipe (lit "wantToCook"))
      then [lit "want-to-cook"] else []).

(** The value of a key that is set from a list of references: absent when
    the list is empty. *)
Definition references_value (refs : list pyval) : option pyval :=
  match refs with [] => None | _ => Some (PList refs) end.

(** All the keys that the mapper can set. *)
Definition payload_keys : list str :=
  [ lit "name"; lit "description"; lit "recipeYield"; lit "prepTime";
    lit "performTime"; lit "totalTime"; lit "orgURL"; lit "dateAdded";
    lit "createdAt"; lit "recipeIngredient"; lit "recipeInstructions";
    lit "notes"; lit "recipeCategory"; lit "tags" ].

(** A value that a text field of the source may hold without an exception:
    a [str], or anything that is false. *)
Definition accepts_text (v : pyval) : bool := negb (truthy v) || is_str v.

(** A value that a duration of the source may hold without an exception:
    a [str] whose runs of digits [int] converts, or anything that is
    false. *)
Definition accepts_duration (v : pyval) : bool :=
  negb (truthy v) || (is_str v && duration_within_limit v).

(** The source records on which the mapper returns. *)
Definition mapper_accepts (r : gmap str pyval) : bool :=
  accepts_duration (py_get r (lit "prepTime"))
  && accepts_duration (py_get r (lit "cookTime"))
  && accepts_duration (py_get r (lit "totalTime"))
  && (negb (truthy (py_get r (lit "date")))
      || match nsdate (py_get r (lit "date")) with inr _ => true | inl _ => false end)
  && accepts_text (py_get_or r (lit "ingredients") (PStr []))
  && accepts_text (py_get_or r (lit "instructions") (PStr []))
  && (negb (truthy (py_get r (lit "categories")))
      || match py_get r (lit "categories") with
         | PList cats => category_names_ok cats
         | _ => true
         end).

End MapperTerms.

(** ** Further definitions for the properties of the orchestrator *)

(** The calls of steps 2 and 3 for a record under [slug], with the result
    of the record: none when the mapper raises; the update alone when it
    raises, when it is refused, and when no image is sent; the update
    answered 200 and then the image. *)
Inductive writes_of (skip_images : bool) (slug : str)
  : PyErr + Outcome -> list (Call * HttpResult) -> Prop :=
  | writes_none (e : PyErr) :
      writes_of skip_images slug (inl e) []
  | writes_update_raised (p : gmap str pyval) :
      writes_of skip_images slug (inl RequestException)
        [(PatchRecipe slug p, Raised)]
  | writes_update_refused (p : gmap str pyval) (s : Z) (t : str) :
      s <> 200%Z ->
      writes_of skip_images slug (inr Failed)
        [(PatchRecipe slug p, Response s t)]
  | writes_update_alone (p : gmap str pyval) (t : str) (res : PyErr + Outcome) :
      res = inr Succeeded \/ (exists e, res = inl e) ->
      writes_of skip_images slug res [(PatchRecipe slug p, Response 200 t)]
  | writes_update_image (p : gmap str pyval) (t ext : str) (data : list N)
      (r : HttpResult) :
      skip_images = false ->
      writes_of skip_images slug
        (match r with
         | Response _ _ => inr Succeeded
         | Raised => inl RequestException
         end)
        [(PatchRecipe slug p, Response 200 t); (PutImage slug ext data, r)].

(** The calls for a record after the first create call, which was answered
    [r1], with the result of the record. *)
Definition after_create {RT : Runtime} (skip_images : bool) (title : pyval)
    (r1 : HttpResult) (res : PyErr + Outcome)
    (tr : list (Call * HttpResult)) : Prop :=
  match r1 with
  | Raised => res = inr Failed /\ tr = []
  | Response s text =>
      if (s =? 201)%Z then writes_of skip_images (slug_of_response text) res tr
      else if (s =? 409)%Z then
        exists (t : Z) (r2 : HttpResult) (tr2 : list (Call * HttpResult)),
          tr = (PostRecipe (PStr (unique_title title t)), r2) :: tr2
          /\ match r2 with
             | Raised => res = inl RequestException /\ tr2 = []
             | Response s2 text2 =>
                 if (s2 =? 201)%Z
                 then writes_of skip_images (slug_of_response text2) res tr2
                 else res = inr Failed /\ tr2 = []
             end
      else res = inr Failed /\ tr = []
  end.

(** A call that sends an image. *)
Definition is_image (c : Call) : bool :=
  match c with PutImage _ _ _ => true | _ => false end.

(** An update that was answered 200. *)
Definition is_update_ok (e : Call * HttpResult) : bool :=
  match e with
  | (PatchRecipe _ _, Response s _) => (s =? 200)%Z
  | _ => false
  end.

(** ** The reference tables (lines 378 to 438) *)

(** The two kinds of organizers of the target. *)
Inductive Organizer : Type := Categories | Tags.

(** The calls of the set-up, under the base URL of the run. *)
Inductive OrgCall : Type :=
  (** [session.post(f"{base_url}/api/organizers/{kind}", json={"name": name})] *)
  | PostOrganizer (kind : Organizer) (name : pyval)
  (** [session.get(f"{base_url}/api/organizers/{kind}/slug/{slug}")] *)
  | GetOrganizer (kind : Organizer) (slug : str).

(** The parts of the libraries that the set-up relies on and that are not
    modelled: the JSON reader behind [resp.json()], which gives nothing for
    a body that is no JSON text, and the building and sorting of a set of
    values that are not all [str], in the order in which they are added. *)
Class PyLibrary : Type := {
  response_json : str -> option pyval;
  sorted_set_u : list pyval -> PyErr + list pyval
}.

(** The target server, for the calls of the set-up. *)
Class Target (W : Type) : Type :=
  send_organizer : OrgCall -> W -> HttpResult * W.

(** [a < b] on [str]: by code points, the shorter first. *)
Fixpoint str_ltb (a b : str) : bool :=
  match a, b with
  | _, [] => false
  | [], _ :: _ => true
  | x :: a', y :: b' => (x <? y) || ((x =? y) && str_ltb a' b')
  end.

(** One more name in a list that is ascending and has no name twice. *)
Fixpoint insert_name (x : str) (l : list str) : list str :=
  match l with
  | [] => [x]
  | y :: l' =>
      if str_ltb x y then x :: l
      else if decide (x = y) then l
      else y :: insert_name x l'
  end.

(** [sorted(s)] for the set [s] of the names. *)
Definition sorted_set (names : list str) : list str :=
  fold_right insert_name [] names.

(** The texts of values that are all [str]. *)
Fixpoint strs_of (values : list pyval) : option (list str) :=
  match values with
  | [] => Some []
  | PStr s :: values' => option_map (cons s) (strs_of values')
  | _ => None
  end.

(** [sorted(s)] for the set [s] to which the values were added. *)
Definition sorted_values {LB : PyLibrary} (values : list pyval)
  : PyErr + list pyval :=
  match strs_of values with
  | Some names => inr (List.map PStr (sorted_set names))
  | None => sorted_set_u values
  end.

(** Lines 389 to 393, for one record: the values that are added. *)
Definition named_categories (mela : gmap str pyval) : list pyval :=
  match py_get_or mela (lit "categories") (PList []) with
  | PList cats => List.filter truthy cats
  | _ => []
  end.

(** Lines 387 to 393: the values of [all_cats], in the order in which they
    are added. *)
Definition all_cats (recipes : list (gmap str pyval)) : list pyval :=
  flat_map named_categories recipes.

(** Lines 398 to 401, for one record. *)
Definition flag_tags (mela : gmap str pyval) : list str :=
  (if truthy (py_get mela (lit "favorite")) then [lit "favorite"] else [])
  ++ (if truthy (py_get mela (lit "wantToCook"))
      then [lit "want-to-cook"] else []).

(** Lines 396 to 401: the names of [all_tags], in the order in which they
    are added. *)
Definition all_tags (recipes : list (gmap str pyval)) : list str :=
  lit "mela-import" :: flat_map flag_tags recipes.

(** [d[k]] for a key that is a [str] *)
Fixpoint item_of (k : str) (d : list (str * pyval)) : option pyval :=
  match d with
  | [] => None
  | (k', v) :: d' => if decide (k' = k) then Some v else item_of k d'
  end.

Definition subscript (data : pyval) (k : str) : PyErr + pyval :=
  match data with
  | PDict d =>
      match item_of k d with
      | Some v => inr v
      | None => inl KeyError
      end
  | _ => inl TypeError
  end.

(** [lookup[data["slug"]] = {"id": data["id"], "name": data["name"],
    "slug": data["slug"]}].  The tables are read with keys that are [str]
    only (lines 237 and 245 to 249): an entry under a key of another type is
    never found, and the table of the model does not hold it. *)
Definition store_entry (data : pyval) (table : gmap str pyval)
  : PyErr + gmap str pyval :=
  match subscript data (lit "id") with
  | inl e => inl e
  | inr id =>
      match subscript data (lit "name") with
      | inl e => inl e
      | inr name =>
          match subscript data (lit "slug") with
          | inl e => inl e
          | inr slug =>
              let entry := PDict [ (lit "id", id); (lit "name", name);
                                   (lit "slug", slug) ] in
              match slug with
              | PStr s => inr (<[s := entry]> table)
              | PList _ | PDict _ => inl TypeError
              | _ => inr table
              end
          end
      end
  end.

(** A POST that asked for [name], in a trace. *)
Definition post_of (e : OrgCall * HttpResult) : option (Organizer * pyval) :=
  match fst e with
  | PostOrganizer kind name => Some (kind, name)
  | GetOrganizer _ _ => None
  end.

(** The names of a list ascend, so that none comes twice. *)
Fixpoint ascending (l : list str) : bool :=
  match l with
  | [] => true
  | x :: l' =>
      match l' with
      | [] => true
      | y :: _ => str_ltb x y && ascending l'
      end
  end.

Section Setup.
Context {RT : Runtime} {LB : PyLibrary} {W : Type} {TG : Target W}.

(** The state of the set-up: the target, and the calls made so far. *)
Definition Session : Type := (W * list (OrgCall * HttpResult))%type.

Definition Res (A : Type) : Type := Session -> (PyErr + A) * Session.

Definition rret {A} (a : A) : Res A := fun s => (inr a, s).

Definition rbind {A B} (m : Res A) (k : A -> Res B) : Res B :=
  fun s => match m s with
           | (inl e, s') => (inl e, s')
           | (inr a, s') => k a s'
           end.

Definition of_value {A} (r : PyErr + A) : Res A := fun s => (r, s).

Notation "'let+' x ':=' c1 'in' c2" := (rbind c1 (fun x => c2))
  (at level 10, x pattern, c1 at level 100, c2 at level 200).

(** A call of the session: no call of the set-up is inside a [try]. *)
Definition organizer_request (c : OrgCall) : Res (Z * str) :=
  fun '(w, log) =>
    let (r, w') := send_organizer c w in
    (match r with
     | Response status_code text => inr (status_code, text)
     | Raised => inl RequestException
     end, (w', log ++ [(c, r)])).

(** [resp.json()] *)
Definition body_json (text : str) : PyErr + pyval :=
  match response_json text with
  | Some data => inr data
  | None => inl ValueError
  end.

(** The body of the two loops (lines 407 to 419 and 425 to 436). *)
Definition create_organizer (kind : Organizer) (name : pyval)
    (lookup : gmap str pyval) : Res (gmap str pyval) :=
  let+ (status_code, text) := organizer_request (PostOrganizer kind name) in
  if (status_code =? 200)%Z || (status_code =? 201)%Z then
    let+ data := of_value (body_json text) in
    of_value (store_entry data lookup)
  else if (status_code =? 409)%Z then
    let+ slug := of_value (slugify_value name) in
    let+ (status_code2, text2) := organizer_request (GetOrganizer kind slug) in
    if (status_code2 =? 200)%Z then
      let+ data := of_value (body_json text2) in
      of_value (store_entry data lookup)
    else rret lookup
  else rret lookup.

Fixpoint create_organizers (kind : Organizer) (names : list pyval)
    (lookup : gmap str pyval) : Res (gmap str pyval) :=
  match names with
  | [] => rret lookup
  | name :: names' =>
      let+ lookup := create_organizer kind name lookup in
      create_organizers kind names' lookup
  end.

(** Lines 378 to 438: nothing when there is no record, [migrate] returns;
    otherwise the two tables. *)
Definition setup_references (dry_run : bool)
    (recipes : list (gmap str pyval))
  : Res (option (gmap str pyval * gmap str pyval)) :=
  match recipes with
  | [] => rret None
  | _ =>
      if dry_run then rret (Some (∅, ∅))
      else
        let+ cats := of_value (sorted_values (all_cats recipes)) in
        let tags := List.map PStr (sorted_set (all_tags recipes)) in
        let+ category_lookup := create_organizers Categories cats ∅ in
        let+ tag_lookup := create_organizers Tags tags ∅ in
        rret (Some (category_lookup, tag_lookup))
  end.

(** The entry under [k] was read from an answer of the target in the
    trace: its three fields are the [id], the [name] and the [slug] of the
    answer, and [k] is that slug. *)
Definition from_answer (tr : list (OrgCall * HttpResult)) (k : str)
    (v : pyval) : Prop :=
  exists (c : OrgCall) (status_code : Z) (text : str) (data id name : pyval),
    (c, Response status_code text) ∈ tr
    /\ response_json text = Some data
    /\ subscript data (lit "id") = inr id
    /\ subscript data (lit "name") = inr name
    /\ subscript data (lit "slug") = inr (PStr k)
    /\ v = PDict [ (lit "id", id); (lit "name", name); (lit "slug", PStr k) ].

Definition table_from (tr : list (OrgCall * HttpResult))
    (table : gmap str pyval) : Prop :=
  forall k v, table !! k = Some v -> from_answer tr k v.

(** The calls for one name: the POST alone when its answer is not 409, and
    otherwise the POST answered 409 and then the GET for the slug of the
    name. *)
Definition calls_for (ask : Organizer * pyval)
    (tr : list (OrgCall * HttpResult)) : Prop :=
  (exists status_code text,
      status_code <> 409%Z
      /\ tr = [(PostOrganizer (fst ask) (snd ask), Response status_code text)])
  \/ (exists text slug status_code2 text2,
        slugify_value (snd ask) = inr slug
        /\ tr = [ (PostOrganizer (fst ask) (snd ask), Response 409 text);
                  (GetOrganizer (fst ask) slug, Response status_code2 text2) ]).

(** The names that the set-up asks the target for: the categories, then
    the tags. *)
Definition asked_for (cats : list pyval) (tags : list str)
  : list (Organizer * pyval) :=
  List.map (pair Categories) cats
  ++ List.map (fun tag => (Tags, PStr tag)) tags.

End Setup.

(** ** A concrete library and target for the set-up *)

Module SampleTarget.
Import Sample.

(** A reader that knows one shape of body only: the body is the slug of an
    organizer, which is its name too; and no set of values other than
    texts can be sorted. *)
#[export] Instance library : PyLibrary := {|
  response_json := fun text =>
    match text with
    | [] => None
    | _ => Some (PDict [ (lit "id", PStr (lit "id-" ++ text));
                         (lit "name", PStr text);
                         (lit "slug", PStr text) ])
    end;
  sorted_set_u := fun _ => inl TypeError
|}.

(** The scripted target answers the calls of the set-up from its script. *)
#[export] Instance scripted_target : Target Scripted :=
  fun _ w =>
    match script w with
    | [] => (Raised, w)
    | r :: rest =>
        (r, {| script := rest; clock := clock w; next_id := next_id w |})
    end.

(** A target that creates two organizers and has the third already. *)
Definition organizers : Scripted :=
  {| script := [ Response 201 (lit "dinner");
                 Response 409 (lit "exists");
                 Response 200 (lit "favorite");
                 Response 201 (lit "mela-import") ];
     clock := 1700000000;
     next_id := 0 |}.

End SampleTarget.

(** * Properties *)

(** ** The string methods *)

Section StripFacts.
Variable p : char -> bool.

Lemma drop_while_snoc (l : str) (c : char) :
  drop_while p (l ++ [c])
  = match drop_while p l with
    | [] => if p c then [] else [c]
    | r => r ++ [c]
    end.
Proof.
  induction l as [|x l IH]; cbn; [reflexivity|].
  destruct (p x); [exact IH|reflexivity].
Qed.

Lemma rstrip_with_cons (c : char) (s : str) :
  rstrip_with p (c :: s)
  = match rstrip_with p s with
    | [] => if p c then [] else [c]
    | r => c :: r
    end.
Proof.
  unfold rstrip_with. cbn [rev]. rewrite drop_while_snoc.
  destruct (drop_while p (rev s)) as [|y r]; cbn [rev].
  - destruct (p c); reflexivity.
  - rewrite rev_app_distr. cbn [rev app].
    destruct (rev r ++ [y]) eqn:E; [|reflexivity].
    now apply app_eq_nil in E as [_ [=]].
Qed.

Lemma drop_while_idem (s : str) :
  drop_while p (drop_while p s) = drop_while p s.
Proof.
  induction s as [|c s IH]; cbn; [reflexivity|].
  destruct (p c) eqn:E; [exact IH|]. cbn. now rewrite E.
Qed.

Lemma rstrip_with_idem (s : str) :
  rstrip_with p (rstrip_with p s) = rstrip_with p s.
Proof.
  unfold rstrip_with. rewrite rev_involutive. now rewrite drop_while_idem.
Qed.

Lemma head_kept_drop_while (s : str) : head_kept p (drop_while p s).
Proof.
  induction s as [|c s IH]; cbn; [exact I|].
  destruct (p c) eqn:E; [exact IH|exact E].
Qed.

Lemma drop_while_head_kept (s : str) : head_kept p s -> drop_while p s = s.
Proof. destruct s as [|c s]; cbn; [reflexivity|]. now intros ->. Qed.

Lemma head_kept_rstrip (s : str) :
  head_kept p s -> head_kept p (rstrip_with p s).
Proof.
  destruct s as [|c s]; [intros; exact I|]. intros E. cbn in E.
  rewrite rstrip_with_cons, E. now destruct (rstrip_with p s).
Qed.

Lemma strip_with_idem (s : str) :
  strip_with p (strip_with p s) = strip_with p s.
Proof.
  unfold strip_with, lstrip_with.
  rewrite (drop_while_head_kept (rstrip_with p (drop_while p s))).
  - apply rstrip_with_idem.
  - apply head_kept_rstrip, head_kept_drop_while.
Qed.

Lemma rstrip_with_none (s : str) :
  Forall (fun c => p c = false) s -> rstrip_with p s = s.
Proof.
  induction 1 as [|c s Hc _ IH]; [reflexivity|].
  rewrite rstrip_with_cons, IH, Hc. now destruct s.
Qed.

Lemma strip_with_none (s : str) :
  Forall (fun c => p c = false) s -> strip_with p s = s.
Proof.
  intros H. unfold strip_with, lstrip_with.
  rewrite drop_while_head_kept; [now apply rstrip_with_none|].
  destruct H; [exact I|assumption].
Qed.

Lemma Forall_drop_while (Q : char -> Prop) (s : str) :
  Forall Q s -> Forall Q (drop_while p s).
Proof.
  induction 1 as [|c s Hc Hs IH]; cbn; [constructor|].
  destruct (p c); [exact IH|now constructor].
Qed.

Lemma Forall_rstrip_with (Q : char -> Prop) (s : str) :
  Forall Q s -> Forall Q (rstrip_with p s).
Proof.
  induction 1 as [|c s Hc Hs IH]; [constructor|].
  rewrite rstrip_with_cons. destruct (rstrip_with p s).
  - destruct (p c); repeat constructor; assumption.
  - now constructor.
Qed.

Lemma Forall_strip_with (Q : char -> Prop) (s : str) :
  Forall Q s -> Forall Q (strip_with p s).
Proof. intros. now apply Forall_rstrip_with, Forall_drop_while. Qed.

Lemma no_double_hyphen_weaken (b : bool) (s : str) :
  no_double_hyphen b s = true -> no_double_hyphen false s = true.
Proof.
  destruct s as [|c s]; cbn; [trivial|].
  destruct (is_hyphen c); [|trivial].
  now intros [_ ->]%andb_true_iff.
Qed.

Lemma no_double_hyphen_drop_while (b : bool) (s : str) :
  no_double_hyphen b s = true -> no_double_hyphen false (drop_while p s) = true.
Proof.
  revert b. induction s as [|c s IH]; intros b H; cbn; [reflexivity|].
  destruct (p c).
  - cbn in H. destruct (is_hyphen c).
    + apply andb_true_iff in H as [_ H]. now apply IH in H.
    + now apply IH in H.
  - now apply no_double_hyphen_weaken in H.
Qed.

Lemma no_double_hyphen_rstrip (b : bool) (s : str) :
  no_double_hyphen b s = true -> no_double_hyphen b (rstrip_with p s) = true.
Proof.
  revert b. induction s as [|c s IH]; intros b H; [reflexivity|].
  rewrite rstrip_with_cons. cbn in H.
  destruct (rstrip_with p s) as [|y r] eqn:E.
  - destruct (p c); [reflexivity|]. cbn.
    destruct (is_hyphen c); [|reflexivity].
    apply andb_true_iff in H as [-> _]. reflexivity.
  - cbn [no_double_hyphen]. destruct (is_hyphen c).
    + apply andb_true_iff in H as [-> H]. now apply IH in H.
    + now apply IH in H.
Qed.

Lemma no_double_hyphen_strip (s : str) :
  no_double_hyphen false s = true ->
  no_double_hyphen false (strip_with p s) = true.
Proof.
  intros H. unfold strip_with, lstrip_with.
  now apply no_double_hyphen_rstrip, no_double_hyphen_drop_while with (b := false).
Qed.

Lemma sub_runs_none (rep : char) (b : bool) (s : str) :
  Forall (fun c => p c = false) s -> sub_runs p rep b s = s.
Proof.
  intros H. revert b. induction H as [|c s Hc _ IH]; intros b; cbn; [reflexivity|].
  now rewrite Hc, IH.
Qed.

Lemma Forall_sub_runs (Q R : char -> Prop) (rep : char) (b : bool) (s : str) :
  (forall c, Q c -> p c = false -> R c) -> R rep ->
  Forall Q s -> Forall R (sub_runs p rep b s).
Proof.
  intros HQR Hrep H. revert b.
  induction H as [|c s Hc _ IH]; intros b; cbn; [constructor|].
  destruct (p c) eqn:E.
  - destruct b; [apply IH|]. constructor; [exact Hrep|apply IH].
  - constructor; [now apply HQR|apply IH].
Qed.

End StripFacts.

Lemma no_double_hyphen_collapse (b : bool) (s : str) :
  no_double_hyphen b (sub_runs is_hyphen chr_hyphen b s) = true.
Proof.
  revert b. induction s as [|c s IH]; intros b; cbn; [reflexivity|].
  destruct (is_hyphen c) eqn:E.
  - destruct b; [apply IH|]. cbn. now rewrite IH.
  - cbn. rewrite E. apply IH.
Qed.

Lemma collapse_no_double_hyphen (b : bool) (s : str) :
  no_double_hyphen b s = true -> sub_runs is_hyphen chr_hyphen b s = s.
Proof.
  revert b. induction s as [|c s IH]; intros b; cbn; [reflexivity|].
  destruct (is_hyphen c) eqn:E.
  - intros [Hb H]%andb_true_iff. destruct b; [discriminate|].
    rewrite (IH _ H). f_equal. unfold is_hyphen in E. lia.
  - intros H. now rewrite (IH _ H).
Qed.

(** ** slugify *)

Section SlugFacts.
Context {RT : Runtime}.

Lemma all_ascii_Forall (s : str) :
  all_ascii s = true <-> Forall (fun c => is_ascii c = true) s.
Proof.
  unfold all_ascii. induction s as [|c s IH]; cbn.
  - split; [constructor|reflexivity].
  - rewrite andb_true_iff, IH. split.
    + intros [? ?]. now constructor.
    + now inversion 1.
Qed.

Lemma to_ascii_is_ascii (x : str) :
  Forall (fun c => is_ascii c = true) (to_ascii x).
Proof.
  unfold to_ascii. induction (py_nfkd x) as [|c s IH]; cbn; [constructor|].
  destruct (is_ascii c) eqn:E; [now constructor|exact IH].
Qed.

Lemma to_ascii_fix (s : str) :
  Forall (fun c => is_ascii c = true) s -> to_ascii s = s.
Proof.
  intros H. unfold to_ascii, py_nfkd.
  rewrite (proj2 (all_ascii_Forall s) H).
  induction H as [|c s Hc _ IH]; cbn; [reflexivity|]. now rewrite Hc, IH.
Qed.

Lemma slug_char_is_ascii (s : str) :
  Forall (fun c => slug_char c = true) s ->
  Forall (fun c => is_ascii c = true) s.
Proof.
  intros H. eapply Forall_impl; [exact H|]. intros c.
  unfold slug_char, is_ascii, ascii_lower_letter, ascii_digit, chr_hyphen. lia.
Qed.

Lemma py_lower_lowered (s : str) :
  Forall (fun c => is_ascii c = true) s -> Forall lowered (py_lower s).
Proof.
  intros H. unfold py_lower. rewrite (proj2 (all_ascii_Forall s) H).
  induction H as [|c s Hc _ IH]; cbn; constructor; [|exact IH].
  unfold lowered, ascii_lower. unfold is_ascii in *.
  destruct (ascii_upper_letter c) eqn:E; unfold ascii_upper_letter in *; lia.
Qed.

Lemma py_lower_fix (s : str) :
  Forall (fun c => slug_char c = true) s -> py_lower s = s.
Proof.
  intros H. unfold py_lower.
  rewrite (proj2 (all_ascii_Forall s) (slug_char_is_ascii s H)).
  induction H as [|c s Hc _ IH]; cbn; [reflexivity|]. rewrite IH. f_equal.
  unfold ascii_lower.
  destruct (ascii_upper_letter c) eqn:E; [|reflexivity].
  unfold slug_char, ascii_upper_letter, ascii_lower_letter, ascii_digit,
    chr_hyphen in *. lia.
Qed.

Lemma Forall_filter_both (Q : char -> Prop) (q : char -> bool) (s : str) :
  Forall Q s -> Forall (fun c => Q c /\ q c = true) (List.filter q s).
Proof.
  induction 1 as [|c s Hc _ IH]; cbn; [constructor|].
  destruct (q c) eqn:E; [now constructor|exact IH].
Qed.

Lemma filter_all (q : char -> bool) (s : str) :
  Forall (fun c => q c = true) s -> List.filter q s = s.
Proof.
  induction 1 as [|c s Hc _ IH]; cbn; [reflexivity|]. now rewrite Hc, IH.
Qed.

(** Whatever ASCII text goes in, a slug comes out. *)
Lemma slug_of_ascii_form (s : str) :
  Forall (fun c => is_ascii c = true) s -> slug_form (slug_of_ascii s).
Proof.
  intros H. unfold slug_of_ascii, slug_form. repeat split.
  - apply Forall_strip_with.
    apply Forall_sub_runs with (Q := fun c => slug_char c = true);
      [tauto|reflexivity|].
    apply Forall_sub_runs
      with (Q := fun c => lowered c /\ slug_keep c = true); [|reflexivity|].
    + intros c [[Ha Hu] Hk] Hb.
      unfold slug_char, slug_keep, blank_or_underscore, re_word, is_hyphen,
        ascii_upper_letter, ascii_lower_letter, ascii_digit, chr_hyphen,
        chr_underscore in *.
      destruct (py_isspace c); cbn in *; lia.
    + apply Forall_filter_both, Forall_strip_with, py_lower_lowered, H.
  - apply no_double_hyphen_strip, no_double_hyphen_collapse.
  - apply strip_with_idem.
Qed.

(** A slug is left as it is. *)
Lemma slug_of_ascii_fix (s : str) : slug_form s -> slug_of_ascii s = s.
Proof.
  intros (Hc & Hd & Hs). unfold slug_of_ascii.
  assert (Hsp : Forall (fun c => py_isspace c = false) s).
  { eapply Forall_impl; [exact Hc|]. intros c.
    unfold slug_char, py_isspace, ascii_lower_letter, ascii_digit, chr_hyphen.
    lia. }
  rewrite (py_lower_fix s Hc).
  unfold py_strip. rewrite (strip_with_none _ s Hsp).
  rewrite filter_all.
  2:{ eapply Forall_impl; [exact Hc|]. intros c.
      unfold slug_char, slug_keep, re_word, is_hyphen, ascii_lower_letter,
        ascii_upper_letter, ascii_digit, chr_hyphen, chr_underscore.
      destruct (py_isspace c); lia. }
  rewrite (sub_runs_none blank_or_underscore).
  2:{ eapply Forall_impl; [exact Hc|]. intros c.
      unfold slug_char, blank_or_underscore, py_isspace, ascii_lower_letter,
        ascii_digit, chr_hyphen, chr_underscore. lia. }
  rewrite (collapse_no_double_hyphen _ _ Hd). exact Hs.
Qed.

Lemma slugify_form (x : str) : slug_form (slugify x).
Proof. apply slug_of_ascii_form, to_ascii_is_ascii. Qed.

(** C3: [slugify] is idempotent. *)
Theorem slugify_idempotent (x : str) : slugify (slugify x) = slugify x.
Proof.
  pose proof (slugify_form x) as H.
  unfold slugify at 1.
  rewrite to_ascii_fix by (apply slug_char_is_ascii, H).
  now apply slug_of_ascii_fix.
Qed.

End SlugFacts.

(** ** parse_time_to_iso *)

Section DurationFacts.
Context {RT : Runtime}.

(** C6: ["1 hour 15 minutes"] and ["1h 15m"] both give the token
    ["PT1H15M"], and the bare integer ["45"] gives ["PT45M"]. *)
Theorem parse_time_examples :
  parse_time_to_iso (PStr (lit "1 hour 15 minutes")) = inr (PStr (lit "PT1H15M"))
  /\ parse_time_to_iso (PStr (lit "1h 15m")) = inr (PStr (lit "PT1H15M"))
  /\ parse_time_to_iso (PStr (lit "45")) = inr (PStr (lit "PT45M")).
Proof. repeat split; vm_compute; reflexivity. Qed.

Lemma parse_time_text_value (t : str) :
  parse_time_text t
  = if counts_within_limit t then inr (parse_time_value t) else inl ValueError.
Proof.
  unfold parse_time_text, counts_within_limit, parse_time_value.
  destruct (startswith (lit "pt") t); [reflexivity|]. cbn [orb].
  unfold int_of_match, int_of_digits, within_limit.
  destruct (re_search_count hour_unit t) as [hs|],
           (re_search_count minute_unit t) as [ms|];
    try destruct (int_max_str_digits <? N.of_nat (length hs));
    try destruct (int_max_str_digits <? N.of_nat (length ms));
    cbn [negb andb]; try reflexivity.
  destruct (bare_match t) as [bs|]; [|reflexivity].
  now destruct (int_max_str_digits <? N.of_nat (length bs)).
Qed.






Lemma parse_time_nonblank (s : str) :
  py_strip s <> [] ->
  truthy (PStr s) = true
  /\ parse_time_to_iso (PStr s)
     = if counts_within_limit (py_lower (py_strip s))
       then inr (PStr (parse_time_value (py_lower (py_strip s))))
       else inl ValueError.
Proof.
  intros H. assert (Ht : truthy (PStr s) = true).
  { destruct s; [now destruct H|reflexivity]. }
  split; [exact Ht|]. unfold parse_time_to_iso. rewrite Ht. cbn [negb].
  destruct (py_strip s) as [|c u] eqn:E; [done|].
  rewrite parse_time_text_value. now destruct (counts_within_limit _).
Qed.


End DurationFacts.



(** ** The structured text blocks *)

Section BlockFacts.
Context {RT : Runtime} {G : Type} {IDS : IdSource G}.

Lemma step_set_title (id t : str) :
  dict_set (lit "title") (PStr t)
    [ (lit "id", PStr id); (lit "title", PStr []); (lit "summary", PStr []);
      (lit "text", PStr []); (lit "ingredientReferences", PList []) ]
  = [ (lit "id", PStr id); (lit "title", PStr t); (lit "summary", PStr []);
      (lit "text", PStr []); (lit "ingredientReferences", PList []) ].
Proof. reflexivity. Qed.

Lemma step_set_text (id t : str) :
  dict_set (lit "text") (PStr t)
    [ (lit "id", PStr id); (lit "title", PStr []); (lit "summary", PStr []);
      (lit "text", PStr []); (lit "ingredientReferences", PList []) ]
  = [ (lit "id", PStr id); (lit "title", PStr []); (lit "summary", PStr []);
      (lit "text", PStr t); (lit "ingredientReferences", PList []) ].
Proof. reflexivity. Qed.

Lemma ingredient_set_title (line id : str) (t : pyval) :
  dict_set (lit "title") t
    [ (lit "note", PStr line); (lit "referenceId", PStr id) ]
  = [ (lit "note", PStr line); (lit "referenceId", PStr id); (lit "title", t) ].
Proof. reflexivity. Qed.

Lemma draw_ids_length (n : nat) (g : G) : length (fst (draw_ids n g)) = n.
Proof.
  revert g. induction n as [|n IHn]; intros g; cbn; [reflexivity|].
  destruct (uuid4 g) as [id g1]. specialize (IHn g1).
  destruct (draw_ids n g1). cbn in *. now rewrite IHn.
Qed.

Lemma steps_loop_spec (lines : list str) (steps : list pyval) (g : G) :
  let kept := List.filter (fun line => match line with [] => false | _ => true end)
                (List.map py_strip lines) in
  steps_loop lines steps g
  = inr (steps ++ zip_with step_of (fst (draw_ids (length kept) g)) kept,
         snd (draw_ids (length kept) g)).
Proof.
  revert steps g. induction lines as [|line lines IH]; intros steps g; cbn zeta.
  - cbn. now rewrite app_nil_r.
  - cbn [steps_loop List.map List.filter].
    destruct (py_strip line) as [|c l] eqn:E; [apply IH|].
    unfold bind at 1, fresh_id. cbn [length draw_ids].
    destruct (uuid4 g) as [id g1].
    rewrite IH.
    destruct (draw_ids _ g1) as [ids g2]. cbn [fst snd zip_with].
    rewrite <- app_assoc. cbn [app]. do 3 f_equal.
    unfold step_of, is_header, header_title.
    destruct (startswith (lit "#") (c :: l));
      [now rewrite step_set_title|now rewrite step_set_text].
Qed.

Lemma split_on_nonempty (sep : char) (s : str) : split_on sep s <> [].
Proof.
  destruct s as [|c s]; cbn [split_on]; [done|].
  destruct (c =? sep); [done|]. now destruct (split_on sep s).
Qed.

Lemma split_on_app (sep : char) (a b : str) :
  split_on sep (a ++ sep :: b) = split_on sep a ++ split_on sep b.
Proof.
  induction a as [|c a IH]; cbn [app split_on].
  - now rewrite N.eqb_refl.
  - destruct (c =? sep); [now rewrite IH|]. rewrite IH.
    pose proof (split_on_nonempty sep a).
    now destruct (split_on sep a).
Qed.

Lemma content_lines_app (a b : str) :
  content_lines (a ++ chr_newline :: b) = content_lines a ++ content_lines b.
Proof.
  unfold content_lines. now rewrite split_on_app, List.map_app, List.filter_app.
Qed.

Lemma split_on_none (sep : char) (l : str) :
  sep ∉ l -> split_on sep l = [l].
Proof.
  induction l as [|c l IH]; [reflexivity|]. intros H.
  apply not_elem_of_cons in H as [Hc Hl]. cbn [split_on].
  replace (c =? sep) with false by (symmetry; apply N.eqb_neq; congruence).
  now rewrite (IH Hl).
Qed.

Lemma split_on_join (lines : list str) :
  lines <> [] -> Forall (fun line => chr_newline ∉ line) lines ->
  split_on chr_newline (join_lines lines) = lines.
Proof.
  intros Hne H. induction H as [|line lines Hl Hls IH]; [done|].
  cbn [join_lines]. destruct lines as [|line' lines'].
  - now apply split_on_none.
  - rewrite split_on_app, (split_on_none _ _ Hl), IH by done. reflexivity.
Qed.

Lemma content_lines_join (lines : list str) :
  Forall (fun line => chr_newline ∉ line) lines ->
  content_lines (join_lines lines)
  = List.filter (fun line => match line with [] => false | _ => true end)
      (List.map py_strip lines).
Proof.
  intros H. unfold content_lines. destruct lines as [|line lines].
  - reflexivity.
  - now rewrite split_on_join.
Qed.

(** C5: every line of an instructions block that is not blank becomes
    exactly one step, in order: a header line gives a step with its title
    and an empty text, any other line a step with an empty title and the
    line as text, and every step has a fresh identifier, an empty summary
    and an empty list of ingredient references.  First on the block
    ["Mix.\n\n# Bake\n  Bake it.  "], which gives three steps; then on the
    block that joins any lines; then on any block, by its content lines. *)
Theorem instructions_one_step_per_line :
  (forall g : G,
      let (id1, g1) := uuid4 g in
      let (id2, g2) := uuid4 g1 in
      let (id3, g3) := uuid4 g2 in
      mela_instructions_to_steps
        (PStr (lit "Mix." ++ [chr_newline] ++ [chr_newline] ++ lit "# Bake"
                 ++ [chr_newline] ++ lit "  Bake it.  ")) g
      = inr ([ PDict [ (lit "id", PStr id1);
                       (lit "title", PStr []);
                       (lit "summary", PStr []);
                       (lit "text", PStr (lit "Mix."));
                       (lit "ingredientReferences", PList []) ];
               PDict [ (lit "id", PStr id2);
                       (lit "title", PStr (lit "Bake"));
                       (lit "summary", PStr []);
                       (lit "text", PStr []);
                       (lit "ingredientReferences", PList []) ];
               PDict [ (lit "id", PStr id3);
                       (lit "title", PStr []);
                       (lit "summary", PStr []);
                       (lit "text", PStr (lit "Bake it."));
                       (lit "ingredientReferences", PList []) ] ], g3))
  /\ (forall (lines : list str) (g : G),
         Forall (fun line => chr_newline ∉ line) lines ->
         let kept :=
           List.filter (fun line => match line with [] => false | _ => true end)
             (List.map py_strip lines) in
         let ids := fst (draw_ids (length kept) g) in
         mela_instructions_to_steps (PStr (join_lines lines)) g
         = inr (zip_with step_of ids kept, snd (draw_ids (length kept) g))
         /\ length (zip_with step_of ids kept) = length kept)
  /\ (forall (block : str) (g : G),
         let lines := content_lines block in
         let ids := fst (draw_ids (length lines) g) in
         mela_instructions_to_steps (PStr block) g
         = inr (zip_with step_of ids lines, snd (draw_ids (length lines) g))
         /\ length (zip_with step_of ids lines) = length lines).
Proof.
  assert (Hblock : forall (block : str) (g : G),
             mela_instructions_to_steps (PStr block) g
             = inr (zip_with step_of
                      (fst (draw_ids (length (content_lines block)) g))
                      (content_lines block),
                    snd (draw_ids (length (content_lines block)) g))).
  { intros block g. unfold mela_instructions_to_steps, content_lines.
    destruct block as [|c block]; [reflexivity|].
    cbn [truthy negb]. now rewrite steps_loop_spec. }
  split; [|split].
  - intros g. rewrite Hblock.
    assert (E : content_lines
                  (lit "Mix." ++ [chr_newline] ++ [chr_newline] ++ lit "# Bake"
                     ++ [chr_newline] ++ lit "  Bake it.  ")
                = [lit "Mix."; lit "# Bake"; lit "Bake it."])
      by (vm_compute; reflexivity).
    rewrite E. clear E. cbn [length draw_ids].
    destruct (uuid4 g) as [id1 g1]. destruct (uuid4 g1) as [id2 g2].
    destruct (uuid4 g2) as [id3 g3]. reflexivity.
  - intros lines g Hl. cbv zeta. rewrite Hblock, (content_lines_join _ Hl).
    split; [reflexivity|]. rewrite length_zip_with, draw_ids_length.
    apply Nat.min_id.
  - intros block g. cbv zeta. rewrite Hblock.
    split; [reflexivity|]. rewrite length_zip_with, draw_ids_length. lia.
Qed.

Lemma mela_instructions_shape (v : pyval) (g : G) :
  mela_instructions_to_steps v g
  = match block_lines v with
    | inl e => inl e
    | inr lines =>
        inr (zip_with step_of (fst (draw_ids (length lines) g)) lines,
             snd (draw_ids (length lines) g))
    end.
Proof.
  unfold mela_instructions_to_steps, block_lines.
  destruct (truthy v) eqn:Ht; cbn [negb]; [|reflexivity].
  destruct v; try reflexivity. unfold content_lines.
  now rewrite steps_loop_spec.
Qed.

Lemma pending_agrees_header (line : str) :
  is_header line = true ->
  pending_agrees (PStr (header_title line)) (Some line).
Proof.
  intros H. unfold pending_agrees, title_before. rewrite H.
  destruct (header_title line); [now right|reflexivity].
Qed.

Lemma pending_agrees_content (line : str) (pending_title : pyval) :
  is_header line = false ->
  pending_title = PNone \/ pending_title = PStr [] ->
  pending_agrees pending_title (Some line).
Proof. intros H Hp. unfold pending_agrees, title_before. now rewrite H. Qed.

Lemma title_before_nonempty (prev : option str) (t : str) :
  title_before prev = Some t -> truthy (PStr t) = true.
Proof.
  unfold title_before. destruct prev as [line|]; [|done].
  destruct (is_header line); [|done].
  destruct (header_title line); intros [= <-]. reflexivity.
Qed.

Lemma ingredients_loop_spec (lines : list str) (ingredients : list pyval)
    (pending_title : pyval) (prev : option str) (g : G) :
  let kept := List.filter (fun line => match line with [] => false | _ => true end)
                (List.map py_strip lines) in
  let items := titled_lines prev kept in
  pending_agrees pending_title prev ->
  ingredients_loop lines ingredients pending_title g
  = inr (ingredients
           ++ zip_with ingredient_of (fst (draw_ids (length items) g)) items,
         snd (draw_ids (length items) g)).
Proof.
  cbn zeta. revert ingredients pending_title prev g.
  induction lines as [|line lines IH]; intros ingredients pending prev g Hp.
  - cbn. now rewrite app_nil_r.
  - cbn [ingredients_loop List.map List.filter].
    destruct (py_strip line) as [|c l] eqn:E; [now apply IH|].
    cbn [titled_lines]. fold (is_header (c :: l)).
    destruct (is_header (c :: l)) eqn:Hh.
    + apply IH. now apply pending_agrees_header.
    + unfold bind at 1, fresh_id. cbn [length draw_ids].
      destruct (uuid4 g) as [id g1].
      unfold pending_agrees in Hp.
      destruct (title_before prev) as [t|] eqn:Ht.
      * subst pending. rewrite (title_before_nonempty _ _ Ht).
        rewrite ingredient_set_title.
        rewrite (IH _ PNone (Some (c :: l)) g1)
          by (apply pending_agrees_content; auto).
        destruct (draw_ids _ g1) as [ids g2]. cbn [fst snd zip_with].
        rewrite <- app_assoc. reflexivity.
      * assert (Hf : truthy pending = false) by (now destruct Hp as [-> | ->]).
        rewrite Hf.
        rewrite (IH _ pending (Some (c :: l)) g1)
          by (apply pending_agrees_content; auto).
        destruct (draw_ids _ g1) as [ids g2]. cbn [fst snd zip_with].
        rewrite <- app_assoc. reflexivity.
Qed.

Lemma mela_ingredients_shape (v : pyval) (g : G) :
  mela_ingredients_to_list v g
  = match block_lines v with
    | inl e => inl e
    | inr lines =>
        let items := titled_lines None lines in
        inr (zip_with ingredient_of (fst (draw_ids (length items) g)) items,
             snd (draw_ids (length items) g))
    end.
Proof.
  unfold mela_ingredients_to_list, block_lines.
  destruct (truthy v) eqn:Ht; cbn [negb]; [|reflexivity].
  destruct v; try reflexivity. unfold content_lines.
  rewrite (ingredients_loop_spec _ _ _ None); [reflexivity|now left].
Qed.

Lemma titled_lines_length (prev : option str) (lines : list str) :
  length (titled_lines prev lines)
  = length (List.filter (fun line => negb (is_header line)) lines).
Proof.
  revert prev. induction lines as [|line lines IH]; intros prev;
    cbn [titled_lines List.filter]; [reflexivity|].
  destruct (is_header line); cbn [negb length]; now rewrite IH.
Qed.

(** C4: the block ["# Sauce\nTomatoes\nBasil"] gives two items, the first
    with the title ["Sauce"] and the note ["Tomatoes"], the second with the
    note ["Basil"] and no title. In general the items are the content lines
    that are no headers, one item each and in order; an item carries a title
    exactly when the content line just before it is a header with a title
    that is not empty, and then that title, so that a title goes to the line
    after its header and to no later one. *)
Theorem ingredients_titles_consumed_once :
  (forall g : G,
      let (id1, g1) := uuid4 g in
      let (id2, g2) := uuid4 g1 in
      mela_ingredients_to_list
        (PStr (lit "# Sauce" ++ [chr_newline] ++ lit "Tomatoes"
                 ++ [chr_newline] ++ lit "Basil")) g
      = inr ([ PDict [ (lit "note", PStr (lit "Tomatoes"));
                       (lit "referenceId", PStr id1);
                       (lit "title", PStr (lit "Sauce")) ];
               PDict [ (lit "note", PStr (lit "Basil"));
                       (lit "referenceId", PStr id2) ] ], g2))
  /\ (forall (block : str) (g : G),
         let items := titled_lines None (content_lines block) in
         let ids := fst (draw_ids (length items) g) in
         mela_ingredients_to_list (PStr block) g
         = inr (zip_with ingredient_of ids items,
                snd (draw_ids (length items) g))
         /\ length (zip_with ingredient_of ids items)
            = length (List.filter (fun line => negb (is_header line))
                        (content_lines block))).
Proof.
  split.
  - intros g. rewrite mela_ingredients_shape.
    assert (E : block_lines
                  (PStr (lit "# Sauce" ++ [chr_newline] ++ lit "Tomatoes"
                           ++ [chr_newline] ++ lit "Basil"))
                = inr [lit "# Sauce"; lit "Tomatoes"; lit "Basil"])
      by (vm_compute; reflexivity).
    rewrite E. clear E. cbn zeta.
    assert (E : titled_lines None [lit "# Sauce"; lit "Tomatoes"; lit "Basil"]
                = [ (lit "Tomatoes", Some (lit "Sauce")); (lit "Basil", None) ])
      by (vm_compute; reflexivity).
    rewrite E. clear E. cbn [length draw_ids].
    destruct (uuid4 g) as [id1 g1]. destruct (uuid4 g1) as [id2 g2].
    reflexivity.
  - intros block g. cbn zeta. split.
    + unfold mela_ingredients_to_list, content_lines.
      destruct block as [|c block]; [reflexivity|].
      cbn [truthy negb].
      rewrite (ingredients_loop_spec _ _ _ None); [reflexivity|].
      now left.
    + rewrite length_zip_with, draw_ids_length, titled_lines_length. lia.
Qed.

End BlockFacts.

(** ** The record mapper *)

Ltac key_ne :=
  let H := fresh in intros H; vm_compute in H; discriminate H.

Ltac not_in_keys :=
  rewrite ?not_elem_of_cons; repeat split; try key_ne; apply not_elem_of_nil.

Section MapperFacts.
Context {RT : Runtime} {G : Type} {IDS : IdSource G}.
Implicit Types (r cl tl out : gmap str pyval) (src dst k : str).
Implicit Types (cats acc refs : list pyval).

Lemma only_sets_refl (ks : list str) (m : gmap str pyval) : only_sets ks m m.
Proof. now intros k _. Qed.

Lemma only_sets_insert (k : str) (v : pyval) (m : gmap str pyval) :
  only_sets [k] m (<[k := v]> m).
Proof.
  intros k' Hk. apply lookup_insert_ne. intros ->. apply Hk. now left.
Qed.

Lemma only_sets_trans (ks1 ks2 : list str) (m1 m2 m3 : gmap str pyval) :
  only_sets ks1 m1 m2 -> only_sets ks2 m2 m3 ->
  only_sets (ks1 ++ ks2) m1 m3.
Proof.
  intros H1 H2 k Hk. rewrite not_elem_of_app in Hk. destruct Hk.
  now rewrite H2, H1.
Qed.

Lemma copy_field_sets r src dst (m : gmap str pyval) :
  only_sets [dst] m (copy_field r src dst m).
Proof.
  unfold copy_field. destruct (truthy _);
    [apply only_sets_insert|apply only_sets_refl].
Qed.

Lemma time_field_sets r src dst (m m' : gmap str pyval) :
  time_field r src dst m = inr m' -> only_sets [dst] m m'.
Proof.
  unfold time_field. destruct (truthy _).
  - destruct (parse_time_to_iso _); [done|]. intros [= <-].
    apply only_sets_insert.
  - intros [= <-]. apply only_sets_refl.
Qed.

Lemma date_fields_sets r (m m' : gmap str pyval) :
  date_fields r m = inr m' ->
  only_sets [lit "dateAdded"; lit "createdAt"] m m'.
Proof.
  unfold date_fields. destruct (truthy _).
  - destruct (nsdate _) as [|[day iso]]; [done|]. intros [= <-].
    intros k Hk. rewrite !not_elem_of_cons in Hk. destruct Hk as (?&?&_).
    now rewrite !lookup_insert_ne by congruence.
  - intros [= <-]. apply only_sets_refl.
Qed.

Lemma notes_field_sets r (m : gmap str pyval) :
  only_sets [lit "notes"] m (notes_field r m).
Proof.
  unfold notes_field.
  destruct (truthy (py_get r (lit "notes"))),
           (truthy (py_get r (lit "nutrition")));
    cbn [app]; try apply only_sets_insert. apply only_sets_refl.
Qed.

Lemma category_field_sets r cl (m m' : gmap str pyval) :
  category_field r cl m = inr m' -> only_sets [lit "recipeCategory"] m m'.
Proof.
  unfold category_field. destruct (truthy _).
  - destruct (py_get r (lit "categories")); try (intros [= <-]; apply only_sets_refl).
    destruct (category_refs _ _ _) as [|[|c refs]]; [done| |]; intros [= <-].
    + apply only_sets_refl.
    + apply only_sets_insert.
  - intros [= <-]. apply only_sets_refl.
Qed.

Lemma tags_field_sets r tl (m : gmap str pyval) :
  only_sets [lit "tags"] m (tags_field r tl m).
Proof.
  unfold tags_field. destruct (tag_refs_of r tl);
    [apply only_sets_refl|apply only_sets_insert].
Qed.

Lemma convert_stages r cl tl (g g' : G) out :
  convert_mela_to_mealie r cl tl g = inr (out, g')
  <-> exists s, staged r cl tl g g' out s.
Proof.
  unfold convert_mela_to_mealie, bind, lift_err, ret, raise. split.
  - destruct (time_field r (lit "prepTime") _ _) as [|m1] eqn:E1; [done|].
    destruct (time_field r (lit "cookTime") _ _) as [|m2] eqn:E2; [done|].
    destruct (time_field r (lit "totalTime") _ _) as [|m3] eqn:E3; [done|].
    destruct (date_fields r _) as [|m4] eqn:E4; [done|].
    destruct (mela_ingredients_to_list _ g) as [|[ings g1]] eqn:E5; [done|].
    destruct (mela_instructions_to_steps _ g1) as [|[steps g2]] eqn:E6; [done|].
    destruct (category_field r cl _) as [|m5] eqn:E7; [done|].
    intros [= <- <-].
    exists {| st_m1 := m1; st_m2 := m2; st_m3 := m3; st_m4 := m4; st_m5 := m5;
              st_ings := ings; st_steps := steps; st_g1 := g1 |}.
    unfold staged. cbn [st_m1 st_m2 st_m3 st_m4 st_m5 st_ings st_steps st_g1].
    auto 10.
  - intros [[m1 m2 m3 m4 m5 ings steps g1] (E1&E2&E3&E4&E5&E6&E7&->)].
    cbn [st_m1 st_m2 st_m3 st_m4 st_m5 st_ings st_steps st_g1] in *.
    now rewrite E1, E2, E3, E4, E5, E6, E7.
Qed.

Ltac open_stages s st :=
  destruct s as [m1 m2 m3 m4 m5 ings steps g1];
  destruct st as (E1&E2&E3&E4&E5&E6&E7&Eout);
  cbn [st_m1 st_m2 st_m3 st_m4 st_m5 st_ings st_steps st_g1] in *.

(** *** The mapper returns on every source record *)

Lemma absent_or_get (q : pyval -> bool) r k :
  absent_or q r k = true -> py_get r k = PNone \/ q (py_get r k) = true.
Proof.
  unfold absent_or, py_get, py_get_or. destruct (r !! k); cbn; auto.
Qed.

Lemma time_field_total r src dst (m : gmap str pyval) :
  absent_or is_str r src = true ->
  duration_within_limit (py_get r src) = true ->
  exists m', time_field r src dst m = inr m'.
Proof.
  intros [H|H]%absent_or_get; unfold time_field.
  - rewrite H. cbn. eauto.
  - destruct (py_get r src) as [| | | |s| |]; try discriminate H.
    cbn [duration_within_limit]. intros Hl.
    destruct (truthy (PStr s)); [|eauto].
    destruct (py_strip s) as [|c u] eqn:Es.
    + unfold parse_time_to_iso. rewrite Es.
      destruct (negb (truthy (PStr s))); eauto.
    + assert (Hne : py_strip s <> []) by now rewrite Es.
      rewrite (proj2 (parse_time_nonblank s Hne)), Es, Hl. eauto.
Qed.

Lemma date_fields_total r (m : gmap str pyval) :
  absent_or is_date r (lit "date") = true -> exists m', date_fields r m = inr m'.
Proof.
  intros [H|H]%absent_or_get; unfold date_fields.
  - rewrite H. cbn. eauto.
  - destruct (truthy _); [|eauto]. unfold is_date in H.
    destruct (py_get r (lit "date")); try discriminate H;
      destruct (nsdate _) as [|[day iso]]; try discriminate H; eauto.
Qed.

Lemma block_lines_total r k :
  absent_or is_str r k = true ->
  exists lines, block_lines (py_get_or r k (PStr [])) = inr lines.
Proof.
  unfold absent_or, py_get_or, block_lines. destruct (r !! k) as [v|]; cbn.
  - destruct v; try discriminate. intros _.
    destruct (truthy _); cbn; eauto.
  - eauto.
Qed.

Lemma category_refs_total cats cl acc :
  forallb is_str cats = true -> exists refs, category_refs cats cl acc = inr refs.
Proof.
  revert acc. induction cats as [|c cats IH]; intros acc; cbn [forallb category_refs].
  - eauto.
  - intros [Hc Hcs]%andb_true_iff. destruct c; try discriminate Hc.
    destruct (negb (truthy (PStr s))); [now apply IH|].
    cbn [slugify_value]. destruct (cl !! slugify s); now apply IH.
Qed.

Lemma category_field_total r cl (m : gmap str pyval) :
  absent_or is_str_list r (lit "categories") = true ->
  exists m', category_field r cl m = inr m'.
Proof.
  intros [H|H]%absent_or_get; unfold category_field.
  - rewrite H. cbn. eauto.
  - destruct (truthy _); [|eauto].
    destruct (py_get r (lit "categories")) as [| | | | |cats|]; try discriminate H.
    destruct (category_refs_total cats cl [] H) as [[|c refs] ->]; eauto.
Qed.

Lemma convert_total r cl tl (g : G) :
  source_recipe r = true -> durations_within_limit r = true ->
  exists out g', convert_mela_to_mealie r cl tl g = inr (out, g').
Proof.
  unfold source_recipe, text_fields, durations_within_limit. cbn [forallb].
  rewrite !andb_true_iff.
  intros [[[[[(_ & _ & _ & _ & Hp & Hc & Ht & Hi & Hs & _) Hd] Hcat] _] _] _].
  intros [[Lp Lc] Lt].
  destruct (time_field_total r (lit "prepTime") (lit "prepTime")
              (copy_field r (lit "yield") (lit "recipeYield")
                 (copy_field r (lit "text") (lit "description")
                    (copy_field r (lit "title") (lit "name") ∅))) Hp Lp)
    as [m1 E1].
  destruct (time_field_total r (lit "cookTime") (lit "performTime") m1 Hc Lc)
    as [m2 E2].
  destruct (time_field_total r (lit "totalTime") (lit "totalTime") m2 Ht Lt)
    as [m3 E3].
  destruct (date_fields_total r (copy_field r (lit "link") (lit "orgURL") m3) Hd)
    as [m4 E4].
  destruct (block_lines_total r (lit "ingredients") Hi) as [li Eli].
  destruct (block_lines_total r (lit "instructions") Hs) as [ls Els].
  destruct (mela_ingredients_to_list
              (py_get_or r (lit "ingredients") (PStr [])) g)
    as [e|[ings g1]] eqn:E5.
  { rewrite mela_ingredients_shape, Eli in E5. discriminate E5. }
  destruct (mela_instructions_to_steps
              (py_get_or r (lit "instructions") (PStr [])) g1)
    as [e|[steps g2]] eqn:E6.
  { rewrite mela_instructions_shape, Els in E6. discriminate E6. }
  destruct (category_field_total r cl
              (notes_field r
                 (<[lit "recipeInstructions" := PList steps]>
                    (<[lit "recipeIngredient" := PList ings]> m4))) Hcat)
    as [m5 E7].
  exists (tags_field r tl m5), g2. apply convert_stages.
  exists {| st_m1 := m1; st_m2 := m2; st_m3 := m3; st_m4 := m4; st_m5 := m5;
            st_ings := ings; st_steps := steps; st_g1 := g1 |}.
  unfold staged. cbn [st_m1 st_m2 st_m3 st_m4 st_m5 st_ings st_steps st_g1].
  auto 10.
Qed.



(** *** What the payload holds *)

Lemma stages_blocks r cl tl (g g' : G) out (s : stages) :
  staged r cl tl g g' out s ->
  out !! lit "recipeIngredient" = Some (PList (st_ings s))
  /\ out !! lit "recipeInstructions" = Some (PList (st_steps s)).
Proof.
  intros st. open_stages s st. subst out.
  pose proof (tags_field_sets r tl m5) as Ht.
  pose proof (category_field_sets _ _ _ _ E7) as Hc.
  pose proof (notes_field_sets r
                (<[lit "recipeInstructions" := PList steps]>
                   (<[lit "recipeIngredient" := PList ings]> m4))) as Hn.
  split.
  - rewrite Ht, Hc, Hn by not_in_keys.
    rewrite lookup_insert_ne by key_ne. apply lookup_insert_eq.
  - rewrite Ht, Hc, Hn by not_in_keys. apply lookup_insert_eq.
Qed.

(** C10: the payload always has the keys [recipeIngredient] and
    [recipeInstructions], each bound to a list, which is empty when the
    source record has no such field; and there is a payload for every
    source record whose durations are within the limit of [int]. *)
Theorem blocks_always_present r cl tl (g : G) :
  (source_recipe r = true -> durations_within_limit r = true ->
   exists out g', convert_mela_to_mealie r cl tl g = inr (out, g'))
  /\ (forall out g',
        convert_mela_to_mealie r cl tl g = inr (out, g') ->
        exists ingredients steps,
          out !! lit "recipeIngredient" = Some (PList ingredients)
          /\ out !! lit "recipeInstructions" = Some (PList steps)
          /\ (r !! lit "ingredients" = None -> ingredients = [])
          /\ (r !! lit "instructions" = None -> steps = [])).
Proof.
  split; [apply convert_total|].
  intros out g' [s st]%convert_stages.
  destruct (stages_blocks _ _ _ _ _ _ _ st) as [Hi Hs].
  exists (st_ings s), (st_steps s).
  repeat split; try assumption.
  - intros Hn. destruct st as (_&_&_&_&E&_).
    unfold py_get_or in E. rewrite Hn in E. cbn in E. now injection E.
  - intros Hn. destruct st as (_&_&_&_&_&E&_).
    unfold py_get_or in E. rewrite Hn in E. cbn in E. now injection E.
Qed.

(** *** Empty lookup tables *)








(** *** No null and no empty value *)

Lemma truthy_not_none (v : pyval) : truthy v = true -> v <> PNone.
Proof. now intros H ->. Qed.

Lemma payload_ok_empty : payload_ok ∅.
Proof. intros k v H. now rewrite lookup_empty in H. Qed.

Lemma payload_ok_insert (k : str) (v : pyval) (m : gmap str pyval) :
  payload_ok m ->
  k ∈ time_keys
  \/ (v <> PNone /\ (k ∈ block_keys \/ k ∈ date_keys \/ truthy v = true)) ->
  payload_ok (<[k := v]> m).
Proof.
  intros Hm Hk k' v' Hl Hnt.
  apply lookup_insert_Some in Hl as [[<- <-]|[_ Hl]]; [|now apply Hm].
  destruct Hk as [Hk|[Hv Hk]]; [contradiction|].
  split; [exact Hv|]. intros Hb Hd. now destruct Hk as [?|[?|?]].
Qed.

Lemma payload_ok_copy r src dst (m : gmap str pyval) :
  payload_ok m -> payload_ok (copy_field r src dst m).
Proof.
  intros Hm. unfold copy_field. destruct (truthy _) eqn:E; [|exact Hm].
  apply payload_ok_insert; [exact Hm|]. right.
  split; [now apply truthy_not_none|auto].
Qed.

Lemma payload_ok_time r src dst (m m' : gmap str pyval) :
  dst ∈ time_keys -> payload_ok m -> time_field r src dst m = inr m' ->
  payload_ok m'.
Proof.
  intros Hd Hm. unfold time_field. destruct (truthy _).
  - destruct (parse_time_to_iso _); [done|]. intros [= <-].
    apply payload_ok_insert; auto.
  - now intros [= <-].
Qed.

Lemma payload_ok_date r (m m' : gmap str pyval) :
  payload_ok m -> date_fields r m = inr m' -> payload_ok m'.
Proof.
  intros Hm. unfold date_fields. destruct (truthy _).
  - destruct (nsdate _) as [|[day iso]]; [done|]. intros [= <-].
    apply payload_ok_insert; [apply payload_ok_insert; [exact Hm|]|];
      right; (split; [done|]); right; left; unfold date_keys;
      rewrite !elem_of_cons; auto.
  - now intros [= <-].
Qed.

Lemma payload_ok_notes r (m : gmap str pyval) :
  payload_ok m -> payload_ok (notes_field r m).
Proof.
  intros Hm. unfold notes_field.
  destruct (truthy (py_get r (lit "notes"))),
           (truthy (py_get r (lit "nutrition")));
    cbn [app]; try exact Hm; apply payload_ok_insert; auto.
Qed.

Lemma payload_ok_category r cl (m m' : gmap str pyval) :
  payload_ok m -> category_field r cl m = inr m' -> payload_ok m'.
Proof.
  intros Hm. unfold category_field. destruct (truthy _); [|now intros [= <-]].
  destruct (py_get r (lit "categories")); try (now intros [= <-]).
  destruct (category_refs _ _ _) as [|[|c refs]]; [done| |]; intros [= <-];
    [exact Hm|]. apply payload_ok_insert; auto.
Qed.

Lemma payload_ok_tags r tl (m : gmap str pyval) :
  payload_ok m -> payload_ok (tags_field r tl m).
Proof.
  intros Hm. unfold tags_field. destruct (tag_refs_of r tl); [exact Hm|].
  apply payload_ok_insert; auto.
Qed.

Lemma stages_payload_ok r cl tl (g g' : G) out (s : stages) :
  staged r cl tl g g' out s -> payload_ok out.
Proof.
  intros st. open_stages s st. subst out.
  apply payload_ok_tags.
  eapply payload_ok_category; [|exact E7].
  apply payload_ok_notes.
  assert (H4 : payload_ok m4).
  { eapply payload_ok_date; [|exact E4]. apply payload_ok_copy.
    eapply payload_ok_time; [| |exact E3];
      [unfold time_keys; rewrite !elem_of_cons; auto|].
    eapply payload_ok_time; [| |exact E2];
      [unfold time_keys; rewrite !elem_of_cons; auto|].
    eapply payload_ok_time; [| |exact E1];
      [unfold time_keys; rewrite !elem_of_cons; auto|].
    repeat apply payload_ok_copy. apply payload_ok_empty. }
  apply payload_ok_insert; [apply payload_ok_insert; [exact H4|]|];
    right; (split; [done|]); left; unfold block_keys;
    rewrite !elem_of_cons; auto.
Qed.

(** *** The fields that are copied, and the durations *)

Lemma copy_field_lookup r src dst (m : gmap str pyval) :
  copy_field r src dst m !! dst
  = if truthy (py_get r src) then Some (py_get r src) else m !! dst.
Proof.
  unfold copy_field. destruct (truthy _); [apply lookup_insert_eq|reflexivity].
Qed.

Lemma time_field_lookup r src dst (m m' : gmap str pyval) :
  time_field r src dst m = inr m' ->
  m' !! dst
  = if truthy (py_get r src)
    then match parse_time_to_iso (py_get r src) with
         | inr t => Some t
         | inl _ => None
         end
    else m !! dst.
Proof.
  unfold time_field. destruct (truthy _).
  - destruct (parse_time_to_iso _); [done|]. intros [= <-].
    apply lookup_insert_eq.
  - now intros [= <-].
Qed.

Lemma time_field_value r src dst (m m' : gmap str pyval) :
  time_field r src dst m = inr m' ->
  forall s, py_get r src = PStr s -> py_strip s <> [] ->
    m' !! dst = Some (PStr (parse_time_value (py_lower (py_strip s)))).
Proof.
  intros E s Hs Hne. revert E. unfold time_field. rewrite Hs.
  destruct (parse_time_nonblank s Hne) as [-> ->].
  destruct (counts_within_limit _); [|done].
  intros [= <-]. apply lookup_insert_eq.
Qed.

Lemma date_fields_absent r (m m' : gmap str pyval) :
  truthy (py_get r (lit "date")) = false -> date_fields r m = inr m' -> m' = m.
Proof. unfold date_fields. intros ->. now intros [= <-]. Qed.

Lemma notes_field_absent r (m : gmap str pyval) :
  truthy (py_get r (lit "notes")) = false ->
  truthy (py_get r (lit "nutrition")) = false ->
  notes_field r m = m.
Proof. unfold notes_field. now intros -> ->. Qed.

(** C1, as amended: a field among title, text, yield and link is copied
    under its key exactly when it is present and not empty, and has no key
    otherwise; a duration that is absent or empty has no key, and one that is
    a text with a character that is not blank has its key, bound to a text,
    which for a text without counts is the stripped and lowercased text
    itself; the two date keys and the notes are left out when their sources
    are absent or empty; no value is [None], the durations aside, and none is
    empty but, possibly, the two structured lists and the date texts. There
    is a payload for every source record whose durations are within the
    limit of [int]. *)
Theorem absent_fields_are_omitted r cl tl (g : G) :
  (source_recipe r = true -> durations_within_limit r = true ->
   exists out g', convert_mela_to_mealie r cl tl g = inr (out, g'))
  /\ (forall out g',
        convert_mela_to_mealie r cl tl g = inr (out, g') ->
        (forall src dst, (src, dst) ∈ direct_fields ->
           out !! dst
           = if truthy (py_get r src) then Some (py_get r src) else None)
        /\ (forall src dst, (src, dst) ∈ duration_fields ->
              (truthy (py_get r src) = false -> out !! dst = None)
              /\ (forall s, py_get r src = PStr s -> py_strip s <> [] ->
                    out !! dst
                    = Some (PStr (parse_time_value (py_lower (py_strip s))))))
        /\ (truthy (py_get r (lit "date")) = false ->
            out !! lit "dateAdded" = None /\ out !! lit "createdAt" = None)
        /\ (truthy (py_get r (lit "notes")) = false ->
            truthy (py_get r (lit "nutrition")) = false ->
            out !! lit "notes" = None)
        /\ payload_ok out).
Proof.
  split; [apply convert_total|].
  intros out g' [s st]%convert_stages.
  pose proof (stages_payload_ok _ _ _ _ _ _ _ st) as Hok.
  open_stages s st. subst out.
  pose proof (tags_field_sets r tl m5) as Ftags.
  pose proof (category_field_sets _ _ _ _ E7) as Fcat.
  pose proof (notes_field_sets r
                (<[lit "recipeInstructions" := PList steps]>
                   (<[lit "recipeIngredient" := PList ings]> m4))) as Fnotes.
  pose proof (date_fields_sets _ _ _ E4) as Fdate.
  pose proof (copy_field_sets r (lit "link") (lit "orgURL") m3) as Flink.
  pose proof (time_field_sets _ _ _ _ _ E3) as Ftotal.
  pose proof (time_field_sets _ _ _ _ _ E2) as Fcook.
  pose proof (time_field_sets _ _ _ _ _ E1) as Fprep.
  pose proof (time_field_lookup _ _ _ _ _ E3) as Ltotal.
  pose proof (time_field_lookup _ _ _ _ _ E2) as Lcook.
  pose proof (time_field_lookup _ _ _ _ _ E1) as Lprep.
  assert (Hback : forall k,
             k ∉ [ lit "tags"; lit "recipeCategory"; lit "notes";
                   lit "recipeInstructions"; lit "recipeIngredient" ] ->
             tags_field r tl m5 !! k = m4 !! k).
  { intros k. rewrite !not_elem_of_cons. intros (?&?&?&?&?&_).
    rewrite Ftags, Fcat, Fnotes
      by (rewrite ?not_elem_of_cons; auto using not_elem_of_nil).
    now rewrite !lookup_insert_ne by auto. }
  split; [|split; [|split; [|split]]].
  - intros src dst Hin. unfold direct_fields in Hin.
    rewrite !elem_of_cons, elem_of_nil in Hin.
    destruct Hin as [[= -> ->]|[[= -> ->]|[[= -> ->]|[[= -> ->]|[]]]]];
      rewrite Hback by not_in_keys.
    + rewrite Fdate, Flink, Ftotal, Fcook, Fprep by not_in_keys.
      rewrite !(copy_field_sets r _ _ _ (lit "name")) by not_in_keys.
      now rewrite copy_field_lookup, lookup_empty.
    + rewrite Fdate, Flink, Ftotal, Fcook, Fprep by not_in_keys.
      rewrite !(copy_field_sets r _ (lit "recipeYield") _ (lit "description"))
        by not_in_keys.
      rewrite copy_field_lookup.
      rewrite (copy_field_sets r _ _ _ (lit "description")) by not_in_keys.
      now rewrite lookup_empty.
    + rewrite Fdate, Flink, Ftotal, Fcook, Fprep by not_in_keys.
      rewrite copy_field_lookup.
      rewrite !(copy_field_sets r _ _ _ (lit "recipeYield")) by not_in_keys.
      now rewrite lookup_empty.
    + rewrite Fdate by not_in_keys. rewrite copy_field_lookup.
      rewrite Ftotal, Fcook, Fprep by not_in_keys.
      rewrite !(copy_field_sets r _ _ _ (lit "orgURL")) by not_in_keys.
      now rewrite lookup_empty.
  - intros src dst Hin. unfold duration_fields in Hin.
    rewrite !elem_of_cons, elem_of_nil in Hin. split.
    + intros Hf.
      destruct Hin as [[= -> ->]|[[= -> ->]|[[= -> ->]|[]]]];
        rewrite Hback by not_in_keys;
        rewrite Fdate, Flink by not_in_keys.
      * rewrite Ftotal, Fcook by not_in_keys. rewrite Lprep, Hf.
        rewrite !(copy_field_sets r _ _ _ (lit "prepTime")) by not_in_keys.
        apply lookup_empty.
      * rewrite Ftotal by not_in_keys. rewrite Lcook, Hf.
        rewrite Fprep by not_in_keys.
        rewrite !(copy_field_sets r _ _ _ (lit "performTime")) by not_in_keys.
        apply lookup_empty.
      * rewrite Ltotal, Hf. rewrite Fcook, Fprep by not_in_keys.
        rewrite !(copy_field_sets r _ _ _ (lit "totalTime")) by not_in_keys.
        apply lookup_empty.
    + intros s Hs Hne.
      destruct Hin as [[= -> ->]|[[= -> ->]|[[= -> ->]|[]]]];
        rewrite Hback by not_in_keys;
        rewrite Fdate, Flink by not_in_keys.
      * rewrite Ftotal, Fcook by not_in_keys.
        exact (time_field_value _ _ _ _ _ E1 s Hs Hne).
      * rewrite Ftotal by not_in_keys.
        exact (time_field_value _ _ _ _ _ E2 s Hs Hne).
      * exact (time_field_value _ _ _ _ _ E3 s Hs Hne).
  - intros Hd. rewrite !Hback by not_in_keys.
    rewrite (date_fields_absent _ _ _ Hd E4).
    rewrite !Flink, !Ftotal, !Fcook, !Fprep by not_in_keys.
    rewrite !(copy_field_sets r _ _ _ (lit "dateAdded")) by not_in_keys.
    rewrite !(copy_field_sets r _ _ _ (lit "createdAt")) by not_in_keys.
    now rewrite lookup_empty.
  - intros Hn Hu. rewrite Ftags, Fcat by not_in_keys.
    rewrite (notes_field_absent _ _ Hn Hu).
    rewrite !lookup_insert_ne by key_ne.
    rewrite Fdate, Flink, Ftotal, Fcook, Fprep by not_in_keys.
    rewrite !(copy_field_sets r _ _ _ (lit "notes")) by not_in_keys.
    apply lookup_empty.
  - exact Hok.
Qed.

End MapperFacts.

(** ** Two runs of the mapper *)

Section Determinism.
Context {RT : Runtime} {G1 G2 : Type} {I1 : IdSource G1} {I2 : IdSource G2}.
Implicit Types (r cl tl ma mb : gmap str pyval) (k : str).

Lemma erase_ids_lookup (m : gmap str pyval) k :
  erase_ids m !! k = eraser k <$> m !! k.
Proof.
  unfold erase_ids, eraser. rewrite !lookup_alter.
  destruct (decide (k = lit "recipeIngredient")) as [->|Hi].
  - rewrite decide_True by reflexivity.
    rewrite decide_False by key_ne. reflexivity.
  - rewrite decide_False by congruence.
    destruct (decide (k = lit "recipeInstructions")) as [->|Hs].
    + now rewrite decide_True by reflexivity.
    + rewrite decide_False by congruence. now destruct (m !! k).
Qed.

Lemma same_but_ids_erase ma mb :
  same_but_ids ma mb -> erase_ids ma = erase_ids mb.
Proof. intros H. apply map_eq. intros k. rewrite !erase_ids_lookup. apply H. Qed.

Lemma same_but_ids_refl ma : same_but_ids ma ma.
Proof. now intros k. Qed.

Lemma same_but_ids_insert ma mb k (va vb : pyval) :
  same_but_ids ma mb -> eraser k va = eraser k vb ->
  same_but_ids (<[k := va]> ma) (<[k := vb]> mb).
Proof.
  intros H Hv k'. rewrite !lookup_insert.
  destruct (decide (k = k')) as [<-|_]; [cbn; now rewrite Hv|apply H].
Qed.

Lemma same_but_ids_notes r ma mb :
  same_but_ids ma mb -> same_but_ids (notes_field r ma) (notes_field r mb).
Proof.
  intros H. unfold notes_field.
  destruct (truthy (py_get r (lit "notes"))),
           (truthy (py_get r (lit "nutrition")));
    cbn [app]; try exact H; now apply same_but_ids_insert.
Qed.

Lemma same_but_ids_category r cl ma mb :
  same_but_ids ma mb ->
  match category_field r cl ma, category_field r cl mb with
  | inl e1, inl e2 => e1 = e2
  | inr ma', inr mb' => same_but_ids ma' mb'
  | _, _ => False
  end.
Proof.
  intros H. unfold category_field. destruct (truthy _); [|exact H].
  destruct (py_get r (lit "categories")); try exact H.
  destruct (category_refs _ _ _) as [|[|c refs]]; [reflexivity|exact H|].
  now apply same_but_ids_insert.
Qed.

Lemma same_but_ids_tags r tl ma mb :
  same_but_ids ma mb -> same_but_ids (tags_field r tl ma) (tags_field r tl mb).
Proof.
  intros H. unfold tags_field. destruct (tag_refs_of r tl); [exact H|].
  now apply same_but_ids_insert.
Qed.

Lemma blank_ingredient (id : str) (item : str * option str) :
  blank_key (lit "referenceId") (ingredient_of id item)
  = blank_key (lit "referenceId") (ingredient_of [] item).
Proof. destruct item as [note [t|]]; reflexivity. Qed.

Lemma blank_step (id line : str) :
  blank_key (lit "id") (step_of id line) = blank_key (lit "id") (step_of [] line).
Proof. reflexivity. Qed.

Lemma map_blank_zip {A} (k : str) (f : str -> A -> pyval) (ids : list str)
    (items : list A) :
  (forall id x, blank_key k (f id x) = blank_key k (f [] x)) ->
  length ids = length items ->
  List.map (blank_key k) (zip_with f ids items)
  = List.map (fun x => blank_key k (f [] x)) items.
Proof.
  intros Hf. revert ids. induction items as [|x items IH]; intros [|id ids];
    cbn; try done.
  intros [= Hl]. now rewrite Hf, IH.
Qed.

Lemma ingredients_same_but_ids (v : pyval) (g1 : G1) (g2 : G2) :
  match mela_ingredients_to_list v g1, mela_ingredients_to_list v g2 with
  | inl e1, inl e2 => e1 = e2
  | inr (l1, _), inr (l2, _) =>
      List.map (blank_key (lit "referenceId")) l1
      = List.map (blank_key (lit "referenceId")) l2
  | _, _ => False
  end.
Proof.
  rewrite !mela_ingredients_shape. destruct (block_lines v); [reflexivity|].
  cbv beta iota zeta.
  rewrite !(map_blank_zip _ ingredient_of)
    by (try apply draw_ids_length; intros; apply blank_ingredient).
  reflexivity.
Qed.

Lemma steps_same_but_ids (v : pyval) (g1 : G1) (g2 : G2) :
  match mela_instructions_to_steps v g1, mela_instructions_to_steps v g2 with
  | inl e1, inl e2 => e1 = e2
  | inr (l1, _), inr (l2, _) =>
      List.map (blank_key (lit "id")) l1 = List.map (blank_key (lit "id")) l2
  | _, _ => False
  end.
Proof.
  rewrite !mela_instructions_shape. destruct (block_lines v); [reflexivity|].
  cbv beta iota zeta.
  rewrite !(map_blank_zip _ step_of)
    by (try apply draw_ids_length; intros; apply blank_step).
  reflexivity.
Qed.

(** C9: two runs of the mapper on the same source record with the same
    lookup tables, each with its own source of identifiers, raise the same
    exception or give payloads that are equal on every field once the
    generated identifiers, the [referenceId] of every ingredient and the
    [id] of every step, are erased. *)
Theorem convert_deterministic_but_ids r cl tl (g1 : G1) (g2 : G2) :
  same_result_but_ids (convert_mela_to_mealie r cl tl g1)
                      (convert_mela_to_mealie r cl tl g2).
Proof.
  unfold same_result_but_ids, convert_mela_to_mealie, bind, lift_err, ret, raise.
  destruct (time_field r (lit "prepTime") _ _) as [|m1]; [reflexivity|].
  destruct (time_field r (lit "cookTime") _ _) as [|m2]; [reflexivity|].
  destruct (time_field r (lit "totalTime") _ _) as [|m3]; [reflexivity|].
  destruct (date_fields r _) as [|m4]; [reflexivity|].
  pose proof (ingredients_same_but_ids
                (py_get_or r (lit "ingredients") (PStr [])) g1 g2) as Hi.
  destruct (mela_ingredients_to_list _ g1) as [e1|[i1 g1']],
           (mela_ingredients_to_list _ g2) as [e2|[i2 g2']]; try done.
  pose proof (steps_same_but_ids
                (py_get_or r (lit "instructions") (PStr [])) g1' g2') as Hs.
  destruct (mela_instructions_to_steps _ g1') as [e1|[s1 g1'']],
           (mela_instructions_to_steps _ g2') as [e2|[s2 g2'']]; try done.
  pose proof (same_but_ids_category r cl
                (notes_field r
                   (<[lit "recipeInstructions" := PList s1]>
                      (<[lit "recipeIngredient" := PList i1]> m4)))
                (notes_field r
                   (<[lit "recipeInstructions" := PList s2]>
                      (<[lit "recipeIngredient" := PList i2]> m4)))) as Hc.
  destruct (category_field r cl _) as [e1|ma], (category_field r cl _) as [e2|mb].
  - apply Hc. apply same_but_ids_notes.
    repeat apply same_but_ids_insert; try apply same_but_ids_refl;
      unfold eraser; cbn; now f_equal.
  - exfalso. apply Hc. apply same_but_ids_notes.
    repeat apply same_but_ids_insert; try apply same_but_ids_refl;
      unfold eraser; cbn; now f_equal.
  - exfalso. apply Hc. apply same_but_ids_notes.
    repeat apply same_but_ids_insert; try apply same_but_ids_refl;
      unfold eraser; cbn; now f_equal.
  - apply same_but_ids_erase, same_but_ids_tags, Hc, same_but_ids_notes.
    repeat apply same_but_ids_insert; try apply same_but_ids_refl;
      unfold eraser; cbn; now f_equal.
Qed.

End Determinism.

(** ** The orchestrator *)

Section OrchestratorFacts.
Context {RT : Runtime} {W : Type} {WD : World W}.
#[local] Existing Instance run_ids.
Implicit Types (cl tl mela : gmap str pyval) (w : W) (slug : str).
Implicit Types (log rest : list (Call * HttpResult)).

Lemma draw_ids_log (n : nat) w log :
  snd (snd (draw_ids n (w, log))) = log.
Proof.
  revert w. induction n as [|n IH]; intros w; [reflexivity|].
  cbn [draw_ids]. unfold uuid4 at 1, run_ids at 1.
  destruct (world_uuid4 w) as [id w']. specialize (IH w').
  destruct (draw_ids n (w', log)) as [ids [w'' log'']]. exact IH.
Qed.

Lemma ingredients_keep_log (v : pyval) w log l w' log' :
  mela_ingredients_to_list v (w, log) = inr (l, (w', log')) -> log' = log.
Proof.
  rewrite mela_ingredients_shape. destruct (block_lines v); [done|].
  cbv beta iota zeta. intros [= _ H].
  rewrite <- (draw_ids_log (length (titled_lines None l0)) w log).
  now rewrite H.
Qed.

Lemma steps_keep_log (v : pyval) w log l w' log' :
  mela_instructions_to_steps v (w, log) = inr (l, (w', log')) -> log' = log.
Proof.
  rewrite mela_instructions_shape. destruct (block_lines v); [done|].
  intros [= _ H]. rewrite <- (draw_ids_log (length l0) w log).
  now rewrite H.
Qed.

Lemma convert_keeps_log mela cl tl w log out w' log' :
  convert_mela_to_mealie mela cl tl (w, log) = inr (out, (w', log')) ->
  log' = log.
Proof.
  intros [s st]%convert_stages.
  destruct s as [m1 m2 m3 m4 m5 ings steps [w1 log1]].
  destruct st as (_&_&_&_&E5&E6&_). cbn in E5, E6.
  apply ingredients_keep_log in E5. apply steps_keep_log in E6. congruence.
Qed.

(** What steps 2 and 3 do to the trace of calls. *)
Lemma patch_and_upload_trace (skip_images : bool) cl tl mela slug w log
    (res : PyErr + Outcome) w' log' :
  patch_and_upload skip_images cl tl mela slug (w, log) = (res, (w', log')) ->
  exists rest,
    log' = log ++ rest
    /\ Forall (fun e => call_slug (fst e) = Some slug) rest
    /\ (res = inr Succeeded ->
        exists p t, (PatchRecipe slug p, Response 200 t) ∈ rest)
    /\ (forall p t, (PatchRecipe slug p, Response 200 t) ∈ rest ->
        res = inr Succeeded \/ exists e, res = inl e).
Proof.
  unfold patch_and_upload, obind, of_mapper.
  destruct (convert_mela_to_mealie _ _ _ _) as [e|[payload [w1 log1]]] eqn:Ec;
    cbv beta iota zeta.
  { intros [= <- <- <-]. exists []. rewrite app_nil_r.
    repeat split; [constructor|done|]. intros p t H. now apply elem_of_nil in H. }
  apply convert_keeps_log in Ec as ->.
  unfold request, obind, session_call.
  destruct (send (PatchRecipe slug payload) w1) as [[status text|] w2] eqn:Es;
    cbv beta iota zeta.
  2:{ unfold oraise. intros [= <- <- <-]. eexists. split; [reflexivity|].
      repeat split; [repeat constructor|done|]. eauto. }
  unfold oret at 1. cbv beta iota zeta.
  destruct (status =? 200)%Z eqn:E200; cbn [negb]; cbv beta iota zeta.
  2:{ unfold oret. intros [= <- <- <-]. eexists. split; [reflexivity|].
      repeat split; [repeat constructor|done|].
      intros p t [[= _ Hst _]|H%elem_of_nil]%elem_of_cons; [|done].
      rewrite <- Hst in E200. discriminate E200. }
  apply Z.eqb_eq in E200 as ->.
  assert (Hin : forall rest',
             (PatchRecipe slug payload, Response 200 text)
               ∈ (PatchRecipe slug payload, Response 200 text) :: rest')
    by (intros; apply elem_of_cons; now left).
  destruct (truthy (py_get_or mela (lit "images") (PList [])) && negb skip_images);
    cbv beta iota zeta.
  2:{ unfold oret. intros [= <- <- <-]. eexists. split; [reflexivity|].
      repeat split; [repeat constructor| |]; eauto. }
  unfold of_result.
  destruct (first_item _) as [e|image]; cbv beta iota zeta.
  { unfold oraise. intros [= <- <- <-]. eexists. split; [reflexivity|].
    repeat split; [repeat constructor|done|]; eauto. }
  unfold oret at 1. unfold upload_image. cbv beta iota zeta.
  destruct (b64decode image) as [img_data|]; cbv beta iota zeta.
  2:{ unfold oret. intros [= <- <- <-]. eexists. split; [reflexivity|].
      repeat split; [repeat constructor| |]; eauto. }
  unfold request, obind, session_call.
  destruct (send (PutImage slug (image_ext img_data) img_data) w2)
    as [[status' text'|] w3]; cbv beta iota zeta.
  - unfold oret. intros [= <- <- <-]. eexists.
    split; [rewrite <- app_assoc; reflexivity|].
    repeat split; [repeat constructor| |]; eauto.
  - unfold oraise. intros [= <- <- <-]. eexists.
    split; [rewrite <- app_assoc; reflexivity|].
    repeat split; [repeat constructor|done|]; eauto.
Qed.

Lemma call_slug_not_create (c : Call) slug :
  call_slug c = Some slug -> is_create c = false.
Proof. now destruct c. Qed.

(** Steps 2 and 3 when the mapper raises: no call. *)
Lemma patch_and_upload_raise (skip_images : bool) cl tl mela slug (run : Run)
    (e : PyErr) :
  convert_mela_to_mealie mela cl tl run = inl e ->
  patch_and_upload skip_images cl tl mela slug run = (inl e, run).
Proof.
  intros E. unfold patch_and_upload, obind, of_mapper.
  destruct (convert_mela_to_mealie _ _ _ _) as [e'|[payload run']] eqn:Ec;
    (first [pose proof (eq_trans (eq_sym Ec) E) as H|pose proof E as H]).
  - now injection H as ->.
  - discriminate H.
Qed.

(** Steps 2 and 3 when the mapper returns: the update is sent with the
    payload of the mapper, and what follows it. *)
Lemma patch_and_upload_update (skip_images : bool) cl tl mela slug w log
    (res : PyErr + Outcome) w' log' (payload : gmap str pyval) w4 log4 :
  patch_and_upload skip_images cl tl mela slug (w, log) = (res, (w', log')) ->
  convert_mela_to_mealie mela cl tl (w, log) = inr (payload, (w4, log4)) ->
  let update := PatchRecipe slug payload in
  exists rest',
    log' = log ++ (update, fst (send update w4)) :: rest'
    /\ (forall tp, fst (send update w4) = Response 200 tp ->
        skip_images = true
        \/ truthy (py_get_or mela (lit "images") (PList [])) = false ->
        res = inr Succeeded /\ rest' = [])
    /\ (forall st tp, fst (send update w4) = Response st tp -> st <> 200%Z ->
        res = inr Failed /\ rest' = [])
    /\ (forall c st t, (c, Response st t) ∈ rest' -> res = inr Succeeded)
    /\ (forall c, (c, Raised) ∈ rest' -> res = inl RequestException).
Proof.
  intros Epu E. cbv zeta. revert Epu.
  unfold patch_and_upload, obind, of_mapper.
  destruct (convert_mela_to_mealie _ _ _ _) as [e'|[payload' [w1 log1]]] eqn:Ec;
    (first [pose proof (eq_trans (eq_sym Ec) E) as H|pose proof E as H]);
    [discriminate H|].
  injection H as -> -> ->.
  apply convert_keeps_log in Ec as ->. cbv beta iota zeta.
  unfold request, obind, session_call.
  assert (Hnil : forall (P : Call * HttpResult -> Prop) (Q : Prop),
             (forall x, x ∈ [] -> P x -> Q) -> True) by done.
  destruct (send (PatchRecipe slug payload) w4) as [[status text|] w2] eqn:Es;
    cbn [fst]; cbv beta iota zeta.
  2:{ unfold oraise. intros [= <- <- <-]. exists [].
      split; [reflexivity|]. split; [done|]. split; [done|].
      split; intros c; intros; now apply elem_of_nil in H. }
  unfold oret at 1. cbv beta iota zeta.
  destruct (status =? 200)%Z eqn:E200; cbn [negb]; cbv beta iota zeta.
  2:{ unfold oret. intros [= <- <- <-]. exists [].
      split; [reflexivity|].
      split; [intros tp [= -> _]; discriminate E200|].
      split; [done|].
      split; intros c; intros; now apply elem_of_nil in H. }
  apply Z.eqb_eq in E200 as ->.
  destruct (truthy (py_get_or mela (lit "images") (PList [])) && negb skip_images)
    eqn:Ei; cbv beta iota zeta.
  2:{ unfold oret. intros [= <- <- <-]. exists [].
      split; [reflexivity|]. split; [done|].
      split; [intros st tp [= <- _] Hne; now destruct Hne|].
      split; intros c; intros; now apply elem_of_nil in H. }
  apply andb_true_iff in Ei as [Himg Hskip]. apply negb_true_iff in Hskip.
  assert (Hno : skip_images = true
                \/ truthy (py_get_or mela (lit "images") (PList [])) = false ->
                False) by (intros [H|H]; congruence).
  unfold of_result.
  destruct (first_item _) as [e|image]; cbv beta iota zeta.
  { unfold oraise. intros [= <- <- <-]. exists [].
    split; [reflexivity|]. split; [intros tp _ H; now apply Hno in H|].
    split; [intros st tp [= <- _] Hne; now destruct Hne|].
    split; intros c; intros; now apply elem_of_nil in H. }
  unfold oret at 1. unfold upload_image. cbv beta iota zeta.
  destruct (b64decode image) as [img_data|]; cbv beta iota zeta.
  2:{ unfold oret. intros [= <- <- <-]. exists [].
      split; [reflexivity|]. split; [done|].
      split; [intros st tp [= <- _] Hne; now destruct Hne|].
      split; intros c; intros; now apply elem_of_nil in H. }
  unfold request, obind, session_call.
  destruct (send (PutImage slug (image_ext img_data) img_data) w2)
    as [[status' text'|] w3]; cbv beta iota zeta.
  - unfold oret. intros [= <- <- <-]. eexists [_].
    split; [now rewrite <- app_assoc|].
    split; [intros tp _ H; now apply Hno in H|].
    split; [intros st tp [= <- _] Hne; now destruct Hne|].
    split; [done|].
    intros c [[=]|H%elem_of_nil]%elem_of_cons. done.
  - unfold oraise. intros [= <- <- <-]. eexists [_].
    split; [now rewrite <- app_assoc|].
    split; [intros tp _ H; now apply Hno in H|].
    split; [intros st tp [= <- _] Hne; now destruct Hne|].
    split; [|done].
    intros c st t [[=]|H%elem_of_nil]%elem_of_cons. done.
Qed.

(** C2, as amended: when the first create call for a record answers 409,
    the orchestrator makes exactly one more create call, under the name
    that is the title followed by [" (mela-"], the time in seconds and
    [")"]; every later call for the record addresses the record that this
    retry created, so that the existing record is never written to; a retry
    that does not answer 201 marks the record failed without a further
    call; and after a retry that answers 201 the update of the new record
    is sent with the payload of the mapper, and the record is marked
    succeeded when the update answers 200 and no call raises, and only
    then. *)
Theorem name_conflict_retried_once (skip_images : bool) cl tl mela w log
    (text0 : str) w1 :
  let title := py_get_or mela (lit "title") (PStr (lit "Untitled")) in
  let t := fst (time_time w1) in
  let retry := PostRecipe (PStr (unique_title title t)) in
  let answer := fst (send retry (snd (time_time w1))) in
  let result := migrate_record false skip_images cl tl mela (w, log) in
  let created : Run :=
    (snd (send retry (snd (time_time w1))),
     log ++ [(PostRecipe title, Response 409 text0); (retry, answer)]) in
  send (PostRecipe title) w = (Response 409 text0, w1) ->
  (forall s, title = PStr s ->
     unique_title title t = s ++ lit " (mela-" ++ str_of_Z t ++ lit ")")
  /\ exists rest,
       snd (snd result)
       = log ++ (PostRecipe title, Response 409 text0) :: (retry, answer) :: rest
       /\ Forall (fun e => is_create (fst e) = false) rest
       /\ (forall e, e ∈ rest ->
             exists text, answer = Response 201 text
                          /\ call_slug (fst e) = Some (slug_of_response text))
       /\ (forall s text, answer = Response s text -> s <> 201%Z ->
             fst result = inr Failed /\ rest = [])
       /\ (forall text p tp,
             answer = Response 201 text ->
             (PatchRecipe (slug_of_response text) p, Response 200 tp) ∈ rest ->
             fst result = inr Succeeded \/ exists e, fst result = inl e)
       /\ (fst result = inr Succeeded ->
           exists text p tp,
             answer = Response 201 text
             /\ (PatchRecipe (slug_of_response text) p, Response 200 tp) ∈ rest)
       /\ (forall text e,
             answer = Response 201 text ->
             convert_mela_to_mealie mela cl tl created = inl e ->
             fst result = inl e /\ rest = [])
       /\ (forall text payload w4 log4,
             answer = Response 201 text ->
             convert_mela_to_mealie mela cl tl created
             = inr (payload, (w4, log4)) ->
             let update := PatchRecipe (slug_of_response text) payload in
             exists rest',
               rest = (update, fst (send update w4)) :: rest'
               /\ (forall tp, fst (send update w4) = Response 200 tp ->
                   skip_images = true
                   \/ truthy (py_get_or mela (lit "images") (PList [])) = false ->
                   fst result = inr Succeeded /\ rest' = [])
               /\ (forall st tp,
                     fst (send update w4) = Response st tp -> st <> 200%Z ->
                     fst result = inr Failed /\ rest' = [])
               /\ (forall c st tp, (c, Response st tp) ∈ rest' ->
                     fst result = inr Succeeded)
               /\ (forall c, (c, Raised) ∈ rest' ->
                     fst result = inl RequestException)).
Proof.
  cbv zeta. intros Hsend. split.
  { intros s ->. reflexivity. }
  destruct (migrate_record false skip_images cl tl mela (w, log))
    as [res [wf logf]] eqn:Em.
  cbn [fst snd]. revert Em.
  unfold migrate_record. unfold obind at 1, session_call at 1.
  rewrite Hsend. cbv beta iota zeta.
  change (409 =? 201)%Z with false. change (409 =? 409)%Z with true.
  cbv beta iota. unfold obind at 1, now at 1.
  destruct (time_time w1) as [t w2]. cbn [fst snd]. cbv beta iota zeta.
  unfold obind at 1, request at 1, obind at 1, session_call at 1.
  destruct (send _ w2) as [[s text|] w3]; cbn [fst snd]; cbv beta iota zeta.
  - unfold oret at 1. cbv beta iota zeta.
    destruct (s =? 201)%Z eqn:E201.
    + apply Z.eqb_eq in E201 as ->. rewrite <- !app_assoc. cbn [app].
      intros Epu. pose proof Epu as Epu'.
      apply patch_and_upload_trace in Epu as (rest & -> & Hall & Hs & Hp).
      exists rest. split; [now rewrite <- !app_assoc|].
      split; [eapply Forall_impl; [exact Hall|];
              intros e; apply call_slug_not_create|].
      split.
      { intros e He. exists text. split; [reflexivity|].
        rewrite Forall_forall in Hall. now apply Hall. }
      split; [intros s' text' [= <- _] Hne; now destruct Hne|].
      split; [intros text' p tp [= <-]; apply Hp|].
      split; [intros Hr; destruct (Hs Hr) as (p & tp & Hin); eauto|].
      split.
      * intros text' e [= <-] Ec.
        rewrite (patch_and_upload_raise _ _ _ _ _ _ _ Ec) in Epu'.
        injection Epu' as <- _ Hl. split; [reflexivity|].
        eapply app_inv_head. rewrite app_nil_r. symmetry. exact Hl.
      * intros text' payload w4 log4 [= <-] Ec.
        destruct (patch_and_upload_update _ _ _ _ _ _ _ _ _ _ _ _ _ Epu' Ec)
          as (rest' & Hl & H200 & Hnot & Hresp & Hraised).
        exists rest'. split; [|auto].
        eapply app_inv_head. exact Hl.
    + unfold oret. intros [= <- <- <-].
      exists []. split; [now rewrite <- !app_assoc|].
      split; [constructor|].
      split; [intros e He; now apply elem_of_nil in He|].
      split; [auto|].
      split; [intros text' p tp _ He; now apply elem_of_nil in He|].
      split; [done|].
      split; [intros text' e [= -> _]; discriminate E201|].
      intros text' payload w4 log4 [= -> _]. discriminate E201.
  - unfold oraise. intros [= <- <- <-].
    exists []. split; [now rewrite <- !app_assoc|].
    split; [constructor|].
    split; [intros e He; now apply elem_of_nil in He|].
    split; [done|].
    split; [done|]. split; [done|]. split; done.
Qed.

(** The counters of the loop follow the outcome of the record. *)
Lemma migrate_records_one (dry_run skip_images : bool) cl tl mela
    (success failed : nat) (s s' : Run) (outcome : Outcome) :
  migrate_record dry_run skip_images cl tl mela s = (inr outcome, s') ->
  migrate_records dry_run skip_images cl tl [mela] success failed s
  = (inr match outcome with
         | Succeeded => (S success, failed)
         | Failed => (success, S failed)
         end, s').
Proof.
  intros H. cbn [migrate_records]. unfold obind. rewrite H.
  now destruct outcome.
Qed.

End OrchestratorFacts.

(** ** More on the durations *)

Section DecimalFacts.
Context {RT : Runtime}.

Lemma fold_digits_acc (d : Decimal.uint) (acc : positive) :
  fold_left digit_step (uint_chars d) (Npos acc) = Npos (Pos.of_uint_acc d acc).
Proof.
  revert acc. induction d; intros acc; cbn [uint_chars fold_left Pos.of_uint_acc];
    try reflexivity;
    (etransitivity; [|apply IHd]); f_equal; unfold digit_step; cbn; lia.
Qed.

Lemma fold_digits (d : Decimal.uint) :
  fold_left digit_step (uint_chars d) 0 = N.of_uint d.
Proof.
  unfold N.of_uint.
  induction d; cbn [uint_chars fold_left Pos.of_uint]; try reflexivity;
    try exact IHd; apply fold_digits_acc.
Qed.

Lemma int_of_str_of_N (n : N) : digits_value (str_of_N n) = n.
Proof.
  unfold digits_value, str_of_N. change (fun acc c => acc * 10 + default 0 (decimal_value c)) with digit_step.
  rewrite fold_digits. apply DecimalN.Unsigned.of_to.
Qed.

End DecimalFacts.

Section DurationMore.
Context {RT : Runtime}.

Lemma uint_chars_digits (d : Decimal.uint) :
  Forall (fun c => ascii_digit c = true) (uint_chars d).
Proof. induction d; cbn [uint_chars]; constructor; try reflexivity; assumption. Qed.

Lemma str_of_N_digits (n : N) : Forall (fun c => ascii_digit c = true) (str_of_N n).
Proof. apply uint_chars_digits. Qed.


Lemma str_of_N_inj (n m : N) : str_of_N n = str_of_N m -> n = m.
Proof. intros H. rewrite <- (int_of_str_of_N n), H. apply int_of_str_of_N. Qed.



Lemma drop_while_all {A} (p : A -> bool) (l : list A) :
  Forall (fun x => p x = true) l -> drop_while p l = [].
Proof. induction 1 as [|x l Hx _ IH]; cbn; [reflexivity|]. now rewrite Hx. Qed.






End DurationMore.

Section Templates.
Context {RT : Runtime}.




End Templates.

Section Templates2.
Context {RT : Runtime}.

Lemma rstrip_with_snoc (p : char -> bool) (l : str) (c : char) :
  p c = false -> rstrip_with p (l ++ [c]) = l ++ [c].
Proof.
  intros H. unfold rstrip_with. rewrite rev_app_distr. cbn [rev app drop_while].
  rewrite H. cbn [rev]. now rewrite rev_involutive.
Qed.

Lemma strip_with_ends (p : char -> bool) (c : char) (l : str) (d : char) :
  p c = false -> p d = false -> strip_with p (c :: l ++ [d]) = c :: l ++ [d].
Proof.
  intros Hc Hd. unfold strip_with, lstrip_with. cbn [drop_while]. rewrite Hc.
  exact (rstrip_with_snoc p (c :: l) d Hd).
Qed.








End Templates2.

(** ** More on the text normaliser *)

Section Idem.
Context {RT : Runtime}.

Lemma drop_while_map (p : char -> bool) (f : char -> char) (s : str) :
  (forall c, p (f c) = p c) ->
  drop_while p (List.map f s) = List.map f (drop_while p s).
Proof.
  intros H. induction s as [|c s IH]; cbn; [reflexivity|].
  rewrite H. now destruct (p c).
Qed.

Lemma strip_with_map (p : char -> bool) (f : char -> char) (s : str) :
  (forall c, p (f c) = p c) ->
  strip_with p (List.map f s) = List.map f (strip_with p s).
Proof.
  intros H. unfold strip_with, lstrip_with, rstrip_with.
  rewrite (drop_while_map p f s H), <- map_rev, (drop_while_map p f _ H).
  now rewrite map_rev.
Qed.

Lemma isspace_lower (c : char) : py_isspace (ascii_lower c) = py_isspace c.
Proof.
  unfold ascii_lower. destruct (ascii_upper_letter c) eqn:E; [|reflexivity].
  unfold ascii_upper_letter, py_isspace in *. lia.
Qed.

Lemma isspace_upper (c : char) : py_isspace (ascii_upper c) = py_isspace c.
Proof.
  unfold ascii_upper. destruct (ascii_lower_letter c) eqn:E; [|reflexivity].
  unfold ascii_lower_letter, py_isspace in *. lia.
Qed.

Lemma all_ascii_map_lower (s : str) :
  all_ascii s = true -> all_ascii (List.map ascii_lower s) = true.
Proof.
  unfold all_ascii. induction s as [|c s IH]; cbn; [reflexivity|].
  intros [Hc Hs]%andb_true_iff. rewrite IH by exact Hs.
  unfold ascii_lower, is_ascii, ascii_upper_letter in *.
  destruct ((65 <=? c) && (c <=? 90)) eqn:E; lia.
Qed.

Lemma all_ascii_map_upper (s : str) :
  all_ascii s = true -> all_ascii (List.map ascii_upper s) = true.
Proof.
  unfold all_ascii. induction s as [|c s IH]; cbn; [reflexivity|].
  intros [Hc Hs]%andb_true_iff. rewrite IH by exact Hs.
  unfold ascii_upper, is_ascii, ascii_lower_letter in *.
  destruct ((97 <=? c) && (c <=? 122)) eqn:E; lia.
Qed.

Lemma all_ascii_strip (p : char -> bool) (s : str) :
  all_ascii s = true -> all_ascii (strip_with p s) = true.
Proof.
  rewrite !all_ascii_Forall. apply Forall_strip_with.
Qed.

Lemma upper_letter_lower (c : char) :
  ascii_upper_letter (ascii_lower c) = false.
Proof.
  unfold ascii_lower. destruct (ascii_upper_letter c) eqn:E; [|exact E].
  unfold ascii_upper_letter in *. lia.
Qed.

Lemma lower_letter_upper (c : char) :
  ascii_lower_letter (ascii_upper c) = false.
Proof.
  unfold ascii_upper. destruct (ascii_lower_letter c) eqn:E; [|exact E].
  unfold ascii_lower_letter in *. lia.
Qed.

Lemma lower_not_upper (c : char) :
  ascii_upper_letter c = false -> ascii_lower c = c.
Proof. unfold ascii_lower. now intros ->. Qed.

Lemma upper_not_lower (c : char) :
  ascii_lower_letter c = false -> ascii_upper c = c.
Proof. unfold ascii_upper. now intros ->. Qed.

(** Lowering undoes raising on a character that is no capital letter. *)
Lemma lower_upper (c : char) :
  ascii_upper_letter c = false -> ascii_lower (ascii_upper c) = c.
Proof.
  intros H. unfold ascii_upper. destruct (ascii_lower_letter c) eqn:E.
  - unfold ascii_lower.
    replace (ascii_upper_letter (c - 32)) with true
      by (unfold ascii_upper_letter, ascii_lower_letter in *; lia).
    unfold ascii_lower_letter in E. lia.
  - now apply lower_not_upper.
Qed.

(** Raising undoes lowering on a character that is no small letter. *)
Lemma upper_lower (c : char) :
  ascii_lower_letter c = false -> ascii_upper (ascii_lower c) = c.
Proof.
  intros H. unfold ascii_lower. destruct (ascii_upper_letter c) eqn:E.
  - unfold ascii_upper.
    replace (ascii_lower_letter (c + 32)) with true
      by (unfold ascii_upper_letter, ascii_lower_letter in *; lia).
    lia.
  - now apply upper_not_lower.
Qed.

Lemma lower_of_upper (c : char) : ascii_lower (ascii_upper c) = ascii_lower c.
Proof.
  destruct (ascii_upper_letter c) eqn:E.
  - rewrite (upper_not_lower c); [reflexivity|].
    unfold ascii_upper_letter, ascii_lower_letter in *. lia.
  - rewrite (lower_upper c E). symmetry. now apply lower_not_upper.
Qed.

End Idem.

Section Idem2.
Context {RT : Runtime}.

Lemma parse_time_value_cases (t : str) :
  (startswith (lit "pt") t = true /\ parse_time_value t = py_upper t)
  \/ parse_time_value t = t
  \/ exists hours minutes, parse_time_value t = duration_token hours minutes.
Proof.
  unfold parse_time_value, duration_token.
  destruct (startswith (lit "pt") t); [now left|]. right.
  destruct (re_search_count hour_unit t) as [hs|],
           (re_search_count minute_unit t) as [ms|];
    try destruct (bare_match t) as [bs|];
    try (now left);
    match goal with
    | |- context [if ?b then _ else _] => destruct b; [now left|right; eauto]
    end.
Qed.

Lemma digits_token (s : str) :
  Forall (fun c => ascii_digit c = true) s -> Forall token_char s.
Proof.
  intros H. eapply Forall_impl; [exact H|]. intros c.
  unfold token_char, ascii_digit, is_ascii, ascii_lower_letter, py_isspace. lia.
Qed.

Lemma duration_token_chars (hours minutes : N) :
  Forall token_char (duration_token hours minutes).
Proof.
  unfold duration_token. rewrite !Forall_app. split; [repeat constructor|].
  split.
  - destruct (hours =? 0); [constructor|]. rewrite Forall_app.
    split; [apply digits_token, str_of_N_digits|repeat constructor].
  - destruct (minutes =? 0); [constructor|]. rewrite Forall_app.
    split; [apply digits_token, str_of_N_digits|repeat constructor].
Qed.

Lemma token_fixed (v : str) :
  Forall token_char v ->
  py_strip v = v /\ py_lower v = List.map ascii_lower v
  /\ py_upper (List.map ascii_lower v) = v.
Proof.
  intros H.
  assert (Ha : all_ascii v = true).
  { apply all_ascii_Forall. eapply Forall_impl; [exact H|]. now intros c [? ?]. }
  split; [|split].
  - apply strip_with_none. eapply Forall_impl; [exact H|]. now intros c (?&?&?).
  - unfold py_lower. now rewrite Ha.
  - unfold py_upper. rewrite (all_ascii_map_lower v Ha). rewrite map_map.
    clear Ha. induction H as [|c v (_&Hc&_) _ IH]; cbn; [reflexivity|].
    now rewrite IH, (upper_lower c Hc).
Qed.

(** X3: What [parse_time_to_iso] returns, it returns again when it is given
    its own result: on ASCII text the function is idempotent. *)
Theorem parse_time_idempotent (s : str) (r : pyval) :
  all_ascii s = true ->
  parse_time_to_iso (PStr s) = inr r -> parse_time_to_iso r = inr r.
Proof.
  intros Ha.
  destruct (py_strip s) as [|c0 u0] eqn:Eu.
  { unfold parse_time_to_iso. rewrite Eu.
    destruct (negb (truthy (PStr s))); now intros [= <-]. }
  assert (Hne : py_strip s <> []) by now rewrite Eu.
  rewrite (proj2 (parse_time_nonblank s Hne)).
  set (u := py_strip s) in *.
  assert (Hau : all_ascii u = true) by (apply all_ascii_strip, Ha).
  assert (Hsu : py_strip u = u) by apply strip_with_idem.
  set (t := py_lower u).
  destruct (counts_within_limit t) eqn:Hw; [|done]. intros [= <-].
  assert (Et : t = List.map ascii_lower u) by (unfold t, py_lower; now rewrite Hau).
  assert (Hat : all_ascii t = true) by (rewrite Et; now apply all_ascii_map_lower).
  assert (Hst : py_strip t = t).
  { rewrite Et. unfold py_strip. rewrite strip_with_map by apply isspace_lower.
    fold (py_strip u). now rewrite Hsu. }
  assert (Hlt : py_lower t = t).
  { unfold py_lower. rewrite Hat, Et, map_map.
    apply map_ext. intros c. apply lower_not_upper, upper_letter_lower. }
  assert (Hnt : t <> []) by (rewrite Et, Eu; discriminate).
  destruct (parse_time_value_cases t) as [[Hpt E]|[E|(hours & minutes & E)]];
    rewrite E.
  - assert (Ev : py_upper t = List.map ascii_upper t)
      by (unfold py_upper; now rewrite Hat).
    assert (Hsv : py_strip (py_upper t) = py_upper t).
    { rewrite Ev. unfold py_strip. rewrite strip_with_map by apply isspace_upper.
      fold (py_strip t). now rewrite Hst. }
    assert (Hnv : py_strip (py_upper t) <> []).
    { rewrite Hsv, Ev. destruct t; [done|discriminate]. }
    rewrite (proj2 (parse_time_nonblank _ Hnv)), Hsv.
    assert (Hlv : py_lower (py_upper t) = t).
    { rewrite Ev. unfold py_lower. rewrite (all_ascii_map_upper t Hat), map_map.
      rewrite <- Hlt at 2. unfold py_lower. rewrite Hat.
      apply map_ext. intros c. apply lower_of_upper. }
    now rewrite Hlv, Hw, E.
  - assert (Hnv : py_strip t <> []) by now rewrite Hst.
    now rewrite (proj2 (parse_time_nonblank _ Hnv)), Hst, Hlt, Hw, E.
  - pose proof (duration_token_chars hours minutes) as Hc.
    destruct (token_fixed _ Hc) as (Hs & Hl & Hup).
    assert (Hnv : py_strip (duration_token hours minutes) <> [])
      by (rewrite Hs; discriminate).
    rewrite (proj2 (parse_time_nonblank _ Hnv)), Hs, Hl.
    assert (Hpt : startswith (lit "pt")
                    (List.map ascii_lower (duration_token hours minutes))
                  = true) by reflexivity.
    unfold counts_within_limit, parse_time_value. rewrite Hpt. cbn [orb].
    now rewrite Hup.
Qed.

End Idem2.

Section SlugMore.
Context {RT : Runtime}.

Lemma last_rev {A} (l : list A) : last (rev l) = head l.
Proof.
  destruct l as [|x l]; [reflexivity|]. cbn [rev head]. apply last_snoc.
Qed.

Lemma head_kept_head (p : char -> bool) (s : str) (c : char) :
  head_kept p s -> head s = Some c -> p c = false.
Proof. destruct s; [done|]. cbn. now intros H [= <-]. Qed.

Lemma strip_fixed_ends (p : char -> bool) (s : str) (c : char) :
  strip_with p s = s -> (head s = Some c \/ last s = Some c) -> p c = false.
Proof.
  intros Hs [H|H].
  - apply (head_kept_head p s); [|exact H]. rewrite <- Hs.
    apply head_kept_rstrip, head_kept_drop_while.
  - assert (Hr : rstrip_with p s = s).
    { rewrite <- Hs at 1. unfold strip_with. now rewrite rstrip_with_idem. }
    apply (head_kept_head p (rev s)).
    + rewrite <- Hr. unfold rstrip_with. rewrite rev_involutive.
      apply head_kept_drop_while.
    + rewrite <- (rev_involutive s) in H. now rewrite last_rev in H.
Qed.

Lemma no_double_hyphen_lookup (b : bool) (s : str) (i : nat) :
  no_double_hyphen b s = true ->
  s !! i = Some chr_hyphen -> s !! S i <> Some chr_hyphen.
Proof.
  revert b i. induction s as [|c s IH]; intros b i H Hi; [done|].
  cbn [no_double_hyphen] in H. destruct i as [|i].
  - cbn in Hi. injection Hi as ->. cbn [is_hyphen] in H.
    change (is_hyphen chr_hyphen) with true in H.
    apply andb_true_iff in H as [_ H]. cbn.
    destruct s as [|d s]; [done|]. cbn. intros [= ->].
    cbn [no_double_hyphen] in H. change (is_hyphen chr_hyphen) with true in H.
    discriminate H.
  - cbn in Hi |- *. destruct (is_hyphen c).
    + apply andb_true_iff in H as [_ H]. now apply (IH true).
    + now apply (IH false).
Qed.

(** X4: A slug is made of small letters, digits and hyphens only; it neither
    begins nor ends with a hyphen, and no two hyphens follow each other. *)
Theorem slugify_url_safe (x : str) :
  Forall (fun c => ascii_lower_letter c = true \/ ascii_digit c = true
                   \/ c = chr_hyphen) (slugify x)
  /\ head (slugify x) <> Some chr_hyphen
  /\ last (slugify x) <> Some chr_hyphen
  /\ (forall i, slugify x !! i = Some chr_hyphen ->
                slugify x !! S i <> Some chr_hyphen).
Proof.
  destruct (slugify_form x) as (Hc & Hd & Hs). repeat split.
  - eapply Forall_impl; [exact Hc|]. intros c. unfold slug_char.
    rewrite !orb_true_iff, N.eqb_eq. tauto.
  - intros H. now pose proof (strip_fixed_ends _ _ _ Hs (or_introl H)).
  - intros H. now pose proof (strip_fixed_ends _ _ _ Hs (or_intror H)).
  - intros i. now apply (no_double_hyphen_lookup false).
Qed.

(** X5: Two ASCII texts that differ in the case of letters only have the same
    slug. *)
Theorem slugify_ignores_case (s t : str) :
  all_ascii s = true -> all_ascii t = true ->
  List.map ascii_lower s = List.map ascii_lower t ->
  slugify s = slugify t.
Proof.
  intros Hs Ht H. unfold slugify.
  rewrite !to_ascii_fix by now apply all_ascii_Forall.
  unfold slug_of_ascii, py_lower. now rewrite Hs, Ht, H.
Qed.

End SlugMore.

Section SlugEmpty.
Context {RT : Runtime}.

Lemma elem_of_drop_while (p : char -> bool) (d : char) (s : str) :
  d ∈ s -> p d = false -> d ∈ drop_while p s.
Proof.
  intros Hin Hd. induction s as [|c s IH]; [done|]. cbn.
  destruct (p c) eqn:E; [|exact Hin].
  apply elem_of_cons in Hin as [->|Hin]; [congruence|now apply IH].
Qed.

Lemma elem_of_rev {A} (d : A) (l : list A) : d ∈ l -> d ∈ rev l.
Proof. rewrite !list_elem_of_In. apply in_rev. Qed.

Lemma elem_of_strip_with (p : char -> bool) (d : char) (s : str) :
  d ∈ s -> p d = false -> d ∈ strip_with p s.
Proof.
  intros Hin Hd. unfold strip_with, lstrip_with, rstrip_with.
  apply elem_of_rev, elem_of_drop_while; [|exact Hd].
  now apply elem_of_rev, elem_of_drop_while.
Qed.

Lemma elem_of_sub_runs (p : char -> bool) (rep : char) (b : bool) (d : char)
    (s : str) :
  d ∈ s -> p d = false -> d ∈ sub_runs p rep b s.
Proof.
  intros Hin Hd. revert b. induction s as [|c s IH]; intros b; [done|].
  cbn [sub_runs]. apply elem_of_cons in Hin as [->|Hin].
  - rewrite Hd. now left.
  - destruct (p c); [destruct b|]; try right; now apply IH.
Qed.

Lemma strip_with_all (p : char -> bool) (s : str) :
  Forall (fun c => p c = true) s -> strip_with p s = [].
Proof.
  intros H. unfold strip_with, lstrip_with. now rewrite (drop_while_all p s H).
Qed.

(** X6: The slug is empty exactly when the text has no ASCII letter and no
    digit once it is normalised and its other characters are dropped. *)
Theorem slugify_empty_iff (x : str) :
  slugify x = [] <-> Forall (fun c => ascii_alnum c = false) (to_ascii x).
Proof.
  unfold slugify. pose proof (to_ascii_is_ascii x) as Ha.
  set (a := to_ascii x) in *. clearbody a. split.
  - intros He. apply Forall_forall. intros c Hc.
    destruct (ascii_alnum c) eqn:Ec; [exfalso|reflexivity].
    assert (Hin : ascii_lower c ∈ slug_of_ascii a).
    { assert (Hsolid : ascii_lower_letter (ascii_lower c) = true
                       \/ ascii_digit (ascii_lower c) = true).
      { unfold ascii_alnum, ascii_lower in *.
        destruct (ascii_upper_letter c) eqn:Eu;
          unfold ascii_lower_letter, ascii_upper_letter, ascii_digit in *; lia. }
      unfold slug_of_ascii.
      apply elem_of_strip_with;
        [|unfold is_hyphen, ascii_lower_letter, ascii_digit, chr_hyphen in *; lia].
      apply elem_of_sub_runs;
        [|unfold is_hyphen, ascii_lower_letter, ascii_digit, chr_hyphen in *; lia].
      apply elem_of_sub_runs;
        [|unfold blank_or_underscore, py_isspace, ascii_lower_letter,
            ascii_digit, chr_underscore in *; lia].
      rewrite list_elem_of_In. apply filter_In. split.
      - rewrite <- list_elem_of_In. apply elem_of_strip_with;
          [|unfold py_isspace, ascii_lower_letter, ascii_digit in *; lia].
        unfold py_lower. rewrite (proj2 (all_ascii_Forall a) Ha).
        rewrite list_elem_of_In. apply in_map. now rewrite <- list_elem_of_In.
      - unfold slug_keep, re_word. destruct Hsolid as [-> | ->];
          now rewrite ?orb_true_r. }
    rewrite He in Hin. now apply elem_of_nil in Hin.
  - intros Hn. unfold slug_of_ascii.
    apply strip_with_all.
    apply Forall_sub_runs with (Q := fun c => is_hyphen c = true);
      [congruence|reflexivity|].
    apply Forall_sub_runs
      with (Q := fun c => blank_or_underscore c = true \/ is_hyphen c = true);
      [intros c [H|H] Hb; [congruence|exact H]|reflexivity|].
    assert (Hl : Forall (fun c => ascii_alnum c = false)
                   (py_strip (py_lower a))).
    { apply Forall_strip_with. unfold py_lower.
      rewrite (proj2 (all_ascii_Forall a) Ha). apply Forall_map.
      eapply Forall_impl; [exact Hn|]. intros c.
      unfold ascii_alnum, ascii_lower. destruct (ascii_upper_letter c) eqn:E;
        unfold ascii_lower_letter, ascii_upper_letter, ascii_digit in *; lia. }
    induction Hl as [|c l Hc _ IH]; cbn [List.filter]; [constructor|].
    destruct (slug_keep c) eqn:Ek; [|exact IH]. constructor; [|exact IH].
    unfold slug_keep, re_word, blank_or_underscore, ascii_alnum in *.
    destruct (py_isspace c), (is_hyphen c); auto.
    left. cbn in *. lia.
Qed.

End SlugEmpty.

(** ** More on the record mapper *)

Section MapperMore.
Context {RT : Runtime} {G : Type} {IDS : IdSource G}.
Implicit Types (r cl tl out : gmap str pyval) (src dst k : str).

Lemma category_refs_closed (cats : list pyval) cl (acc : list pyval) :
  category_refs cats cl acc
  = if category_names_ok cats then inr (acc ++ omap (resolvable cl) cats)
    else inl TypeError.
Proof.
  revert acc. induction cats as [|c cats IH]; intros acc.
  - cbn. now rewrite app_nil_r.
  - change (omap (resolvable cl) (c :: cats))
      with (match resolvable cl c with
            | Some y => y :: omap (resolvable cl) cats
            | None => omap (resolvable cl) cats
            end).
    change (category_names_ok (c :: cats))
      with ((negb (truthy c) || is_str c) && category_names_ok cats).
    cbn [category_refs]. unfold resolvable at 1.
    destruct (truthy c) eqn:Et; cbn [negb orb andb]; [|apply IH].
    destruct c; cbn [slugify_value is_str andb]; try reflexivity.
    destruct (cl !! slugify s) as [entry|] eqn:El; rewrite IH;
      destruct (category_names_ok cats); try reflexivity.
    now rewrite <- app_assoc.
Qed.

Lemma tag_refs_closed r tl :
  tag_refs_of r tl = omap (fun tag => tl !! tag) (wanted_tags r).
Proof.
  unfold tag_refs_of, wanted_tags.
  generalize (lit "mela-import") (lit "favorite") (lit "want-to-cook")
             (truthy (py_get r (lit "favorite")))
             (truthy (py_get r (lit "wantToCook"))).
  intros a b c [] []; simpl;
    destruct (tl !! a); try destruct (tl !! b); try destruct (tl !! c);
    reflexivity.
Qed.


Ltac open_staged s st :=
  destruct s as [m1 m2 m3 m4 m5 ings steps g1];
  destruct st as (E1&E2&E3&E4&E5&E6&E7&Eout);
  cbn [st_m1 st_m2 st_m3 st_m4 st_m5 st_ings st_steps st_g1] in *.

Ltac other_key :=
  rewrite not_elem_of_cons; split; [assumption|apply not_elem_of_nil].

(** X7: The mapper sets no key outside [payload_keys]. *)
Theorem payload_keys_bounded r cl tl (g g' : G) out :
  convert_mela_to_mealie r cl tl g = inr (out, g') ->
  forall k, k ∉ payload_keys -> out !! k = None.
Proof.
  intros [s st]%convert_stages k Hk. open_staged s st. subst out.
  unfold payload_keys in Hk. rewrite !not_elem_of_cons in Hk.
  destruct Hk as (?&?&?&?&?&?&?&?&?&?&?&?&?&?&_).
  rewrite (tags_field_sets r tl m5 k) by other_key.
  rewrite (category_field_sets _ _ _ _ E7 k) by other_key.
  rewrite (notes_field_sets r _ k) by other_key.
  rewrite !lookup_insert_ne by congruence.
  rewrite (date_fields_sets _ _ _ E4 k)
    by (rewrite !not_elem_of_cons; repeat split; try assumption;
        apply not_elem_of_nil).
  rewrite (copy_field_sets r _ _ _ k) by other_key.
  rewrite (time_field_sets _ _ _ _ _ E3 k) by other_key.
  rewrite (time_field_sets _ _ _ _ _ E2 k) by other_key.
  rewrite (time_field_sets _ _ _ _ _ E1 k) by other_key.
  rewrite !(copy_field_sets r _ _ _ k) by other_key.
  apply lookup_empty.
Qed.

Lemma references_value_insert (k : str) (refs : list pyval)
    (m : gmap str pyval) :
  m !! k = None ->
  match refs with [] => m | c :: l => <[k := PList (c :: l)]> m end !! k
  = references_value refs.
Proof.
  intros Hm. destruct refs; [exact Hm|]. apply lookup_insert_eq.
Qed.

Lemma payload_refs r cl tl (g g' : G) out :
  convert_mela_to_mealie r cl tl g = inr (out, g') ->
  out !! lit "tags"
  = references_value (omap (fun tag => tl !! tag) (wanted_tags r))
  /\ out !! lit "recipeCategory"
     = match py_get r (lit "categories") with
       | PList cats => references_value (omap (resolvable cl) cats)
       | _ => None
       end.
Proof.
  intros Hc.
  assert (Hcat : out !! lit "recipeCategory"
                 = match py_get r (lit "categories") with
                   | PList cats => references_value (omap (resolvable cl) cats)
                   | _ => None
                   end).
  { apply convert_stages in Hc as [s st]. open_staged s st. subst out.
    rewrite (tags_field_sets r tl m5) by not_in_keys.
    set (m := notes_field r _) in E7.
    assert (Hm : m !! lit "recipeCategory" = None).
    { subst m. rewrite (notes_field_sets r _) by not_in_keys.
      rewrite !lookup_insert_ne by key_ne.
      rewrite (date_fields_sets _ _ _ E4) by not_in_keys.
      rewrite (copy_field_sets r _ _ _) by not_in_keys.
      rewrite (time_field_sets _ _ _ _ _ E3) by not_in_keys.
      rewrite (time_field_sets _ _ _ _ _ E2) by not_in_keys.
      rewrite (time_field_sets _ _ _ _ _ E1) by not_in_keys.
      rewrite !(copy_field_sets r _ _ _) by not_in_keys.
      apply lookup_empty. }
    revert E7. unfold category_field.
    destruct (truthy (py_get r (lit "categories"))) eqn:Et.
    - destruct (py_get r (lit "categories")) as [| | | | |cats|];
        try (intros [= <-]; exact Hm).
      rewrite category_refs_closed. destruct (category_names_ok cats); [|done].
      cbn [app]. intros E7.
      rewrite <- (references_value_insert (lit "recipeCategory") _ m Hm).
      destruct (omap (resolvable cl) cats); now injection E7 as <-.
    - intros [= <-]. rewrite Hm.
      destruct (py_get r (lit "categories")) as [| | | | |[|c cats]|];
        try reflexivity. discriminate Et. }
  split; [|exact Hcat].
  apply convert_stages in Hc as [s st]. open_staged s st. subst out.
  unfold tags_field. rewrite tag_refs_closed.
  apply references_value_insert.
  rewrite (category_field_sets _ _ _ _ E7) by not_in_keys.
  rewrite (notes_field_sets r _) by not_in_keys.
  rewrite !lookup_insert_ne by key_ne.
  rewrite (date_fields_sets _ _ _ E4) by not_in_keys.
  rewrite (copy_field_sets r _ _ _) by not_in_keys.
  rewrite (time_field_sets _ _ _ _ _ E3) by not_in_keys.
  rewrite (time_field_sets _ _ _ _ _ E2) by not_in_keys.
  rewrite (time_field_sets _ _ _ _ _ E1) by not_in_keys.
  rewrite !(copy_field_sets r _ _ _) by not_in_keys.
  apply lookup_empty.
Qed.

(** X8: The references of the payload: under [tags], the entries of the tag
    table for the import marker and for the two flags that are set, in this
    order; under [recipeCategory], the entries of the category table for the
    slugs of the names of the record, in the order of the record.  A name
    or a tag that the table lacks is left out, and a key with no reference
    is not set. *)
Theorem payload_references r cl tl (g g' : G) out :
  convert_mela_to_mealie r cl tl g = inr (out, g') ->
  out !! lit "tags"
  = references_value (omap (fun tag => tl !! tag) (wanted_tags r))
  /\ out !! lit "recipeCategory"
     = match py_get r (lit "categories") with
       | PList cats => references_value (omap (resolvable cl) cats)
       | _ => None
       end.
Proof. apply payload_refs. Qed.

Lemma time_field_returns r src dst (m : gmap str pyval) :
  (exists m', time_field r src dst m = inr m')
  <-> accepts_duration (py_get r src) = true.
Proof.
  unfold time_field, accepts_duration.
  destruct (truthy (py_get r src)) eqn:Et; cbn [negb orb]; [|split; eauto].
  destruct (py_get r src) as [| | | |s| |]; cbn [is_str andb];
    try (unfold parse_time_to_iso; rewrite Et; cbn [negb];
         split; [now intros [m' [=]]|done]).
  cbn [duration_within_limit].
  destruct (py_strip s) as [|c u] eqn:Es.
  - unfold parse_time_to_iso. rewrite Et, Es. cbn [negb].
    split; [reflexivity|eauto].
  - assert (Hne : py_strip s <> []) by now rewrite Es.
    rewrite (proj2 (parse_time_nonblank s Hne)), Es.
    destruct (counts_within_limit _); split; eauto; try done.
    now intros [m' [=]].
Qed.

Lemma date_fields_returns r (m : gmap str pyval) :
  (exists m', date_fields r m = inr m')
  <-> negb (truthy (py_get r (lit "date")))
      || match nsdate (py_get r (lit "date")) with
         | inr _ => true
         | inl _ => false
         end = true.
Proof.
  unfold date_fields.
  destruct (truthy (py_get r (lit "date"))); cbn [negb orb]; [|split; eauto].
  destruct (nsdate _) as [e|[day iso]]; split; eauto; try done.
  now intros [m' [=]].
Qed.

Lemma block_lines_returns (v : pyval) :
  (exists lines, block_lines v = inr lines) <-> accepts_text v = true.
Proof.
  unfold block_lines, accepts_text.
  destruct (truthy v); cbn [negb orb]; [|split; eauto].
  destruct v; cbn [is_str]; split; eauto; try done; now intros [ls [=]].
Qed.

Lemma ingredients_return (v : pyval) (g : G) :
  (exists l g', mela_ingredients_to_list v g = inr (l, g'))
  <-> accepts_text v = true.
Proof.
  rewrite <- block_lines_returns, mela_ingredients_shape.
  destruct (block_lines v) as [e|lines]; cbv zeta; split.
  - now intros (l & g' & [=]).
  - now intros [l [=]].
  - eauto.
  - eauto.
Qed.

Lemma instructions_return (v : pyval) (g : G) :
  (exists l g', mela_instructions_to_steps v g = inr (l, g'))
  <-> accepts_text v = true.
Proof.
  rewrite <- block_lines_returns, mela_instructions_shape.
  destruct (block_lines v) as [e|lines]; split.
  - now intros (l & g' & [=]).
  - now intros [l [=]].
  - eauto.
  - eauto.
Qed.

Lemma category_field_accepts r cl (m : gmap str pyval) :
  (exists m', category_field r cl m = inr m')
  <-> negb (truthy (py_get r (lit "categories")))
      || match py_get r (lit "categories") with
         | PList cats => category_names_ok cats
         | _ => true
         end = true.
Proof.
  unfold category_field.
  destruct (truthy (py_get r (lit "categories"))); cbn [negb orb];
    [|split; eauto].
  destruct (py_get r (lit "categories")) as [| | | | |cats|];
    try (split; eauto; done).
  rewrite category_refs_closed. cbn [app].
  destruct (category_names_ok cats).
  - split; [done|]. intros _. destruct (omap (resolvable cl) cats); eauto.
  - split; [now intros [m' [=]]|done].
Qed.

Lemma convert_accepts r cl tl (g : G) :
  (exists out g', convert_mela_to_mealie r cl tl g = inr (out, g'))
  <-> mapper_accepts r = true.
Proof.
  unfold mapper_accepts. rewrite !andb_true_iff.
  rewrite <- (time_field_returns r (lit "prepTime") (lit "prepTime")
                (copy_field r (lit "yield") (lit "recipeYield")
                   (copy_field r (lit "text") (lit "description")
                      (copy_field r (lit "title") (lit "name") ∅)))).
  split.
  - intros (out & g' & [s st]%convert_stages). open_staged s st.
    repeat split.
    + eauto.
    + apply (time_field_returns r (lit "cookTime") (lit "performTime") m1); eauto.
    + apply (time_field_returns r (lit "totalTime") (lit "totalTime") m2); eauto.
    + eapply date_fields_returns; eauto.
    + eapply ingredients_return; eauto.
    + eapply instructions_return; eauto.
    + eapply category_field_accepts; eauto.
  - intros [[[[[[[m1 E1] Hc] Ht] Hd] Hi] Hs] Hcat].
    apply (time_field_returns r (lit "cookTime") (lit "performTime") m1)
      in Hc as [m2 E2].
    apply (time_field_returns r (lit "totalTime") (lit "totalTime") m2)
      in Ht as [m3 E3].
    apply (date_fields_returns r (copy_field r (lit "link") (lit "orgURL") m3))
      in Hd as [m4 E4].
    apply (ingredients_return _ g) in Hi as (ings & g1 & E5).
    apply (instructions_return _ g1) in Hs as (steps & g2 & E6).
    apply (category_field_accepts r cl
             (notes_field r
                (<[lit "recipeInstructions" := PList steps]>
                   (<[lit "recipeIngredient" := PList ings]> m4))))
      in Hcat as [m5 E7].
    exists (tags_field r tl m5), g2. apply convert_stages.
    exists {| st_m1 := m1; st_m2 := m2; st_m3 := m3; st_m4 := m4; st_m5 := m5;
              st_ings := ings; st_steps := steps; st_g1 := g1 |}.
    unfold staged. cbn [st_m1 st_m2 st_m3 st_m4 st_m5 st_ings st_steps st_g1].
    auto 10.
Qed.


(** *** Joining two blocks of instructions *)

Lemma draw_ids_app (n m : nat) (g : G) :
  draw_ids (n + m) g
  = (fst (draw_ids n g) ++ fst (draw_ids m (snd (draw_ids n g))),
     snd (draw_ids m (snd (draw_ids n g)))).
Proof.
  revert g. induction n as [|n IH]; intros g; cbn [Nat.add draw_ids].
  - cbn. now destruct (draw_ids m g).
  - destruct (uuid4 g) as [id g1]. rewrite IH.
    destruct (draw_ids n g1) as [ids g2]. cbn [fst snd].
    now destruct (draw_ids m g2).
Qed.

(** X10: The steps of two blocks joined by a line break are the steps of the
    first block followed by those of the second, the identifiers being drawn
    in this order. *)
Theorem instructions_of_joined_blocks (a b : str) (g : G) :
  mela_instructions_to_steps (PStr (a ++ chr_newline :: b)) g
  = (let* steps_a := mela_instructions_to_steps (PStr a) in
     let* steps_b := mela_instructions_to_steps (PStr b) in
     ret (steps_a ++ steps_b)) g.
Proof.
  unfold bind, ret. rewrite !mela_instructions_shape.
  assert (Hl : forall s, block_lines (PStr s) = inr (content_lines s)).
  { intros s. unfold block_lines, content_lines.
    destruct s; [|reflexivity]. reflexivity. }
  rewrite !Hl. rewrite mela_instructions_shape, Hl.
  rewrite content_lines_app, length_app, draw_ids_app. cbn [fst snd].
  f_equal. f_equal.
  rewrite zip_with_app; [reflexivity|]. apply draw_ids_length.
Qed.

End MapperMore.

(** ** More on the orchestrator *)

Section OrchestratorMore.
Context {RT : Runtime} {W : Type} {WD : World W}.
#[local] Existing Instance run_ids.
Implicit Types (cl tl mela : gmap str pyval) (w : W) (slug : str).
Implicit Types (log rest tr : list (Call * HttpResult)).

Lemma patch_and_upload_shape (skip_images : bool) cl tl mela slug w log
    (res : PyErr + Outcome) w' log' :
  patch_and_upload skip_images cl tl mela slug (w, log) = (res, (w', log')) ->
  exists rest, log' = log ++ rest /\ writes_of skip_images slug res rest.
Proof.
  unfold patch_and_upload, obind, of_mapper.
  destruct (convert_mela_to_mealie _ _ _ _) as [e|[payload [w1 log1]]] eqn:Ec;
    cbv beta iota zeta.
  { intros [= <- <- <-]. exists []. rewrite app_nil_r. split; [done|constructor]. }
  apply convert_keeps_log in Ec as ->.
  unfold request, obind, session_call.
  destruct (send (PatchRecipe slug payload) w1) as [[status text|] w2] eqn:Es;
    cbv beta iota zeta.
  2:{ unfold oraise. intros [= <- <- <-]. eexists. split; [reflexivity|].
      constructor. }
  unfold oret at 1. cbv beta iota zeta.
  destruct (status =? 200)%Z eqn:E200; cbn [negb]; cbv beta iota zeta.
  2:{ unfold oret. intros [= <- <- <-]. eexists. split; [reflexivity|].
      constructor. intros ->. discriminate E200. }
  apply Z.eqb_eq in E200 as ->.
  destruct (truthy (py_get_or mela (lit "images") (PList [])) && negb skip_images)
    eqn:Ei; cbv beta iota zeta.
  2:{ unfold oret. intros [= <- <- <-]. eexists. split; [reflexivity|].
      constructor. now left. }
  apply andb_true_iff in Ei as [_ Hskip]. apply negb_true_iff in Hskip.
  unfold of_result.
  destruct (first_item _) as [e|image]; cbv beta iota zeta.
  { unfold oraise. intros [= <- <- <-]. eexists. split; [reflexivity|].
    constructor. right. eauto. }
  unfold oret at 1. unfold upload_image. cbv beta iota zeta.
  destruct (b64decode image) as [img_data|]; cbv beta iota zeta.
  2:{ unfold oret. intros [= <- <- <-]. eexists. split; [reflexivity|].
      constructor. now left. }
  unfold request, obind, session_call.
  destruct (send (PutImage slug (image_ext img_data) img_data) w2)
    as [[status' text'|] w3] eqn:Ep; cbv beta iota zeta.
  - unfold oret. intros [= <- <- <-]. eexists.
    split; [rewrite <- app_assoc; reflexivity|].
    now apply (writes_update_image skip_images slug payload text _ _
                 (Response status' text')).
  - unfold oraise. intros [= <- <- <-]. eexists.
    split; [rewrite <- app_assoc; reflexivity|].
    now apply (writes_update_image skip_images slug payload text _ _ Raised).
Qed.

Lemma migrate_record_shape (skip_images : bool) cl tl mela w log
    (res : PyErr + Outcome) w' log' :
  let title := py_get_or mela (lit "title") (PStr (lit "Untitled")) in
  migrate_record false skip_images cl tl mela (w, log) = (res, (w', log')) ->
  exists r1 tr,
    log' = log ++ (PostRecipe title, r1) :: tr
    /\ r1 = fst (send (PostRecipe title) w)
    /\ after_create skip_images title r1 res tr.
Proof.
  cbv zeta. unfold migrate_record. unfold obind at 1, session_call at 1.
  destruct (send _ w) as [[s text|] w1] eqn:Es; cbv beta iota zeta.
  2:{ unfold oret. intros [= <- <- <-]. exists Raised, [].
      repeat split. }
  destruct (s =? 201)%Z eqn:E201.
  { intros (rest & -> & Hw)%patch_and_upload_shape.
    exists (Response s text), rest. split; [now rewrite <- app_assoc|].
    split; [reflexivity|]. unfold after_create. now rewrite E201. }
  destruct (s =? 409)%Z eqn:E409.
  2:{ unfold oret. intros [= <- <- <-]. exists (Response s text), [].
      split; [reflexivity|]. split; [reflexivity|].
      unfold after_create. now rewrite E201, E409. }
  unfold obind at 1, now at 1.
  destruct (time_time w1) as [t w2]. cbv beta iota zeta.
  unfold obind at 1, request at 1, obind at 1, session_call at 1.
  destruct (send _ w2) as [[s2 text2|] w3]; cbv beta iota zeta.
  - unfold oret at 1. cbv beta iota zeta.
    destruct (s2 =? 201)%Z eqn:E2.
    + intros (rest & -> & Hw)%patch_and_upload_shape.
      exists (Response s text), ((PostRecipe (PStr
        (unique_title (py_get_or mela (lit "title") (PStr (lit "Untitled"))) t)),
        Response s2 text2) :: rest).
      split; [now rewrite <- !app_assoc|]. split; [reflexivity|].
      unfold after_create. rewrite E201, E409.
      exists t, (Response s2 text2), rest. split; [reflexivity|]. now rewrite E2.
    + unfold oret. intros [= <- <- <-].
      exists (Response s text), [(PostRecipe (PStr
        (unique_title (py_get_or mela (lit "title") (PStr (lit "Untitled"))) t)),
        Response s2 text2)].
      split; [now rewrite <- !app_assoc|]. split; [reflexivity|].
      unfold after_create. rewrite E201, E409.
      exists t, (Response s2 text2), []. split; [reflexivity|]. now rewrite E2.
  - unfold oraise. intros [= <- <- <-].
    exists (Response s text), [(PostRecipe (PStr
        (unique_title (py_get_or mela (lit "title") (PStr (lit "Untitled"))) t)),
        Raised)].
    split; [now rewrite <- !app_assoc|]. split; [reflexivity|].
    unfold after_create. rewrite E201, E409.
    exists t, Raised, []. split; [reflexivity|]. done.
Qed.


Lemma split_after_prefix {A} (P : A -> Prop) (prefix rest before after : list A)
    (e : A) :
  prefix ++ rest = before ++ e :: after -> Forall P prefix -> ~ P e ->
  exists mid, before = prefix ++ mid /\ rest = mid ++ e :: after.
Proof.
  revert before. induction prefix as [|x prefix IH]; intros before E HP He.
  - exists before. now split.
  - apply Forall_cons in HP as [Hx HP]. destruct before as [|y before].
    + injection E as -> _. now destruct He.
    + injection E as -> E. destruct (IH before E HP He) as (mid & -> & ->).
      exists mid. now split.
Qed.

Lemma writes_of_slug (skip_images : bool) slug (res : PyErr + Outcome) rest :
  writes_of skip_images slug res rest ->
  Forall (fun e => call_slug (fst e) = Some slug) rest.
Proof. intros []; repeat constructor. Qed.

Lemma writes_of_length (skip_images : bool) slug (res : PyErr + Outcome) rest :
  writes_of skip_images slug res rest -> (length rest <= 2)%nat.
Proof. intros []; cbn; lia. Qed.

Lemma writes_of_raised (skip_images : bool) slug (res : PyErr + Outcome) rest
    (c : Call) :
  writes_of skip_images slug res rest -> (c, Raised) ∈ rest ->
  res = inl RequestException.
Proof.
  intros [] Hin; rewrite ?elem_of_cons, elem_of_nil in Hin;
    try (destruct Hin as [[=]|[]]; fail); try done.
  destruct Hin as [[=]|[[= _ <-]|[]]]. reflexivity.
Qed.

Lemma writes_of_image (skip_images : bool) slug (res : PyErr + Outcome) rest
    (c : Call) (s : Z) (t : str) :
  writes_of skip_images slug res rest -> (c, Response s t) ∈ rest ->
  is_image c = true -> res = inr Succeeded.
Proof.
  intros [] Hin Hc; rewrite ?elem_of_cons, elem_of_nil in Hin;
    try (destruct Hin as [[= -> _]|[]]; discriminate Hc); try done.
  destruct Hin as [[= -> _]|[[= _ <-]|[]]]; [discriminate Hc|reflexivity].
Qed.

Lemma writes_of_skip slug (res : PyErr + Outcome) rest :
  writes_of true slug res rest ->
  Forall (fun e => is_image (fst e) = false) rest.
Proof. intros []; repeat constructor. discriminate. Qed.

Lemma writes_of_succeeded (skip_images : bool) slug rest :
  writes_of skip_images slug (inr Succeeded) rest ->
  exists e, e ∈ rest /\ is_update_ok e = true.
Proof.
  intros H. inversion H; subst;
    eexists; (split; [apply elem_of_cons; left; reflexivity|reflexivity]).
Qed.

Lemma writes_of_failed (skip_images : bool) slug rest :
  writes_of skip_images slug (inr Failed) rest ->
  Forall (fun e => is_update_ok e = false /\ is_image (fst e) = false) rest.
Proof.
  intros H. inversion H as [| |p s t Hs|p t res0 [Hr|[e Hr]]|p t ext data r Hk Hr];
    subst; try discriminate.
  - repeat constructor. cbn. now apply Z.eqb_neq.
  - destruct r; discriminate.
Qed.

(** The calls for a record: one or two create calls, then the calls that
    write to the record of the last create, which was answered 201. *)
Lemma creates_then_writes (skip_images : bool) cl tl mela w log
    (res : PyErr + Outcome) w' log' :
  migrate_record false skip_images cl tl mela (w, log) = (res, (w', log')) ->
  exists creates rest,
    log' = log ++ creates ++ rest
    /\ Forall (fun e => is_create (fst e) = true) creates
    /\ (1 <= length creates <= 2)%nat
    /\ (rest = []
        \/ exists pre name text,
             creates = pre ++ [(PostRecipe name, Response 201 text)]
             /\ writes_of skip_images (slug_of_response text) res rest).
Proof.
  intros (r1 & tr & -> & _ & Hafter)%migrate_record_shape.
  unfold after_create in Hafter. destruct r1 as [s text|].
  2:{ destruct Hafter as [_ ->]. eexists [_], []. rewrite app_nil_r.
      split; [reflexivity|]. split; [repeat constructor|].
      split; [cbn; lia|]. now left. }
  destruct (s =? 201)%Z eqn:E201.
  { apply Z.eqb_eq in E201 as ->. eexists [_], tr.
    split; [reflexivity|]. split; [repeat constructor|].
    split; [cbn; lia|].
    right. exists [], (py_get_or mela (lit "title") (PStr (lit "Untitled"))), text.
    now split. }
  destruct (s =? 409)%Z.
  2:{ destruct Hafter as [_ ->]. eexists [_], []. rewrite app_nil_r.
      split; [reflexivity|]. split; [repeat constructor|].
      split; [cbn; lia|]. now left. }
  destruct Hafter as (t & r2 & tr2 & -> & H2). destruct r2 as [s2 text2|].
  2:{ destruct H2 as [_ ->]. eexists [_; _], []. rewrite app_nil_r.
      split; [reflexivity|]. split; [repeat constructor|].
      split; [cbn; lia|]. now left. }
  destruct (s2 =? 201)%Z eqn:E2.
  - apply Z.eqb_eq in E2 as ->. eexists [_; _], tr2.
    split; [reflexivity|]. split; [repeat constructor|].
    split; [cbn; lia|].
    right. eexists [_], _, text2. now split.
  - destruct H2 as [_ ->]. eexists [_; _], []. rewrite app_nil_r.
    split; [reflexivity|]. split; [repeat constructor|].
      split; [cbn; lia|]. now left.
Qed.

(** X11: The orchestrator writes only to what it has just created: every update
    and every image of a record goes to the slug read from a create call
    that was answered 201 earlier for the same record.  A record takes four
    calls at most. *)
Theorem writes_follow_create (skip_images : bool) cl tl mela w log :
  let result := migrate_record false skip_images cl tl mela (w, log) in
  exists tr,
    snd (snd result) = log ++ tr
    /\ (length tr <= 4)%nat
    /\ forall before e after slug,
         tr = before ++ e :: after -> call_slug (fst e) = Some slug ->
         exists name text,
           (PostRecipe name, Response 201 text) ∈ before
           /\ slug = slug_of_response text.
Proof.
  cbv zeta.
  destruct (migrate_record false skip_images cl tl mela (w, log))
    as [res [w' log']] eqn:Em. cbn [fst snd].
  apply creates_then_writes in Em
    as (creates & rest & -> & Hcreates & [_ Hlen] & Hrest).
  exists (creates ++ rest). split; [reflexivity|]. split.
  { rewrite length_app. destruct Hrest as [->|(pre & name & text & _ & Hw)].
    - cbn. lia.
    - apply writes_of_length in Hw. lia. }
  intros before e after slug Hsplit Hslug.
  apply (split_after_prefix (fun e => is_create (fst e) = true)) in Hsplit
    as (mid & -> & Hmid); [|exact Hcreates|].
  2:{ apply call_slug_not_create in Hslug. now rewrite Hslug. }
  destruct Hrest as [->|(pre & name & text & -> & Hw)].
  { now destruct mid. }
  exists name, text. split.
  - apply elem_of_app. left. apply elem_of_app. right.
    apply elem_of_cons. now left.
  - apply writes_of_slug in Hw. rewrite Forall_forall in Hw.
    specialize (Hw e). rewrite Hmid, elem_of_app, elem_of_cons in Hw.
    specialize (Hw ltac:(auto)). congruence.
Qed.

(** X12: A connection error on the first create call fails the record and no
    further call is made for it; a connection error on any later call of
    the record is not caught. *)
Theorem connection_errors (skip_images : bool) cl tl mela w log :
  let title := py_get_or mela (lit "title") (PStr (lit "Untitled")) in
  let result := migrate_record false skip_images cl tl mela (w, log) in
  exists r1 tr,
    snd (snd result) = log ++ (PostRecipe title, r1) :: tr
    /\ (r1 = Raised -> fst result = inr Failed /\ tr = [])
    /\ (forall c, (c, Raised) ∈ tr -> fst result = inl RequestException).
Proof.
  cbv zeta.
  destruct (migrate_record false skip_images cl tl mela (w, log))
    as [res [w' log']] eqn:Em. cbn [fst snd].
  apply migrate_record_shape in Em as (r1 & tr & -> & _ & Hafter).
  exists r1, tr. split; [reflexivity|].
  unfold after_create in Hafter. destruct r1 as [s text|].
  2:{ destruct Hafter as [-> ->]. split; [done|].
      intros c Hin. now apply elem_of_nil in Hin. }
  split; [done|]. intros c Hin.
  destruct (s =? 201)%Z; [eapply writes_of_raised; eauto|].
  destruct (s =? 409)%Z.
  2:{ destruct Hafter as [_ ->]. now apply elem_of_nil in Hin. }
  destruct Hafter as (t & r2 & tr2 & -> & H2).
  apply elem_of_cons in Hin as [[= _ <-]|Hin]; [now destruct H2|].
  destruct r2 as [s2 text2|].
  - destruct (s2 =? 201)%Z; [eapply writes_of_raised; eauto|].
    destruct H2 as [_ ->]. now apply elem_of_nil in Hin.
  - destruct H2 as [_ ->]. now apply elem_of_nil in Hin.
Qed.

Lemma after_create_writes (skip_images : bool) (title : pyval)
    (r1 : HttpResult) (res : PyErr + Outcome) tr :
  after_create skip_images title r1 res tr ->
  (res = inr Failed /\ Forall (fun e => is_create (fst e) = true) tr)
  \/ exists creates slug rest,
       tr = creates ++ rest
       /\ Forall (fun e => is_create (fst e) = true) creates
       /\ writes_of skip_images slug res rest.
Proof.
  unfold after_create. destruct r1 as [s text|].
  2:{ intros [-> ->]. left. split; [done|constructor]. }
  destruct (s =? 201)%Z.
  { intros Hw. right. exists [], (slug_of_response text), tr.
    repeat split; [constructor|exact Hw]. }
  destruct (s =? 409)%Z.
  2:{ intros [-> ->]. left. split; [done|constructor]. }
  intros (t & r2 & tr2 & -> & H2). destruct r2 as [s2 text2|].
  - destruct (s2 =? 201)%Z.
    + right. eexists [_], (slug_of_response text2), tr2.
      repeat split; [repeat constructor|exact H2].
    + destruct H2 as [-> ->]. left. split; [done|repeat constructor].
  - destruct H2 as [-> ->]. right.
    eexists [_], [], []. repeat split; [repeat constructor|constructor].
Qed.

(** X13: An image is sent only when images are not skipped, and whatever status
    the server answers to it, the record counts as migrated. *)
Theorem image_answer_keeps_success (skip_images : bool) cl tl mela w log :
  let result := migrate_record false skip_images cl tl mela (w, log) in
  exists tr,
    snd (snd result) = log ++ tr
    /\ (skip_images = true -> Forall (fun e => is_image (fst e) = false) tr)
    /\ (forall c s t, (c, Response s t) ∈ tr -> is_image c = true ->
          fst result = inr Succeeded).
Proof.
  cbv zeta.
  destruct (migrate_record false skip_images cl tl mela (w, log))
    as [res [w' log']] eqn:Em. cbn [fst snd].
  apply migrate_record_shape in Em as (r1 & tr & -> & _ & Hafter).
  eexists. split; [reflexivity|].
  apply after_create_writes in Hafter
    as [[_ Hcr]|(creates & slug & rest & -> & Hcr & Hw)].
  - split.
    + intros _. constructor; [reflexivity|].
      eapply Forall_impl; [exact Hcr|]. intros [[] ?]; cbn; done.
    + intros c s t [[= -> _]|Hin]%elem_of_cons Hc; [discriminate Hc|].
      rewrite Forall_forall in Hcr. apply Hcr in Hin. cbn in Hin.
      destruct c; discriminate.
  - split.
    + intros ->. constructor; [reflexivity|]. apply Forall_app. split.
      * eapply Forall_impl; [exact Hcr|]. intros [[] ?]; cbn; done.
      * eapply writes_of_skip; eauto.
    + intros c s t [[= -> _]|Hin]%elem_of_cons Hc; [discriminate Hc|].
      apply elem_of_app in Hin as [Hin|Hin].
      * rewrite Forall_forall in Hcr. apply Hcr in Hin. cbn in Hin.
        destruct c; discriminate.
      * eapply writes_of_image; eauto.
Qed.

(** X14: A record counts as migrated only after an update that was answered 200;
    for a record that counts as failed no update was answered 200 and no
    image was sent. *)
Theorem outcome_tells_update (skip_images : bool) cl tl mela w log :
  let result := migrate_record false skip_images cl tl mela (w, log) in
  exists tr,
    snd (snd result) = log ++ tr
    /\ (fst result = inr Succeeded -> exists e, e ∈ tr /\ is_update_ok e = true)
    /\ (fst result = inr Failed ->
        Forall (fun e => is_update_ok e = false /\ is_image (fst e) = false) tr).
Proof.
  cbv zeta.
  destruct (migrate_record false skip_images cl tl mela (w, log))
    as [res [w' log']] eqn:Em. cbn [fst snd].
  apply migrate_record_shape in Em as (r1 & tr & -> & _ & Hafter).
  eexists. split; [reflexivity|].
  assert (Hcreate : forall l : list (Call * HttpResult),
             Forall (fun e => is_create (fst e) = true) l ->
             Forall (fun e => is_update_ok e = false /\ is_image (fst e) = false) l).
  { intros l Hl. eapply Forall_impl; [exact Hl|]. intros [[] ?]; cbn; done. }
  apply after_create_writes in Hafter
    as [[-> Hcr]|(creates & slug & rest & -> & Hcr & Hw)].
  - split; [done|]. intros _. constructor; [done|]. now apply Hcreate.
  - split.
    + intros ->. apply writes_of_succeeded in Hw as (e & Hin & He).
      exists e. split; [|exact He].
      apply elem_of_cons. right. apply elem_of_app. now right.
    + intros ->. constructor; [done|]. apply Forall_app. split.
      * now apply Hcreate.
      * eapply writes_of_failed; eauto.
Qed.


(** *** The loop over the records *)

Lemma dry_run_record (skip_images : bool) cl tl mela w log :
  exists (res : PyErr + Outcome) w',
    migrate_record true skip_images cl tl mela (w, log) = (res, (w', log))
    /\ (mapper_accepts mela = true -> res = inr Succeeded)
    /\ (mapper_accepts mela = false -> exists e, res = inl e).
Proof.
  unfold migrate_record, obind, of_mapper, oret.
  destruct (convert_mela_to_mealie _ _ _ _) as [e|[out [w1 log1]]] eqn:Ec.
  - exists (inl e), w. split; [reflexivity|]. split; [|eauto].
    intros (out & g' & E)%(convert_accepts mela ∅ ∅ (w, log)).
    pose proof (eq_trans (eq_sym Ec) E) as H. discriminate H.
  - pose proof (convert_keeps_log _ _ _ _ _ _ _ _ Ec) as ->.
    exists (inr Succeeded), w1. split; [reflexivity|]. split; [done|].
    intros Hf.
    assert (Ht : mapper_accepts mela = true).
    { apply (convert_accepts mela ∅ ∅ (w, log)). exists out, (w1, log).
      exact Ec. }
    rewrite Ht in Hf. discriminate Hf.
Qed.

(** X15: A dry run sends nothing: the trace of calls is as it was.  Every record
    that the mapper accepts counts as a success, and the run stops with the
    exception of the mapper at the first record that it does not accept. *)
Theorem dry_run_sends_nothing (skip_images : bool) cl tl
    (recipes : list (gmap str pyval)) (success failed : nat) w log :
  let result :=
    migrate_records true skip_images cl tl recipes success failed (w, log) in
  snd (snd result) = log
  /\ (forallb mapper_accepts recipes = true ->
      fst result = inr ((success + length recipes)%nat, failed))
  /\ (forallb mapper_accepts recipes = false -> exists e, fst result = inl e).
Proof.
  cbv zeta. revert success w.
  induction recipes as [|mela recipes IH]; intros success w.
  - cbn. split; [reflexivity|].
    split; [intros _; now rewrite Nat.add_0_r|done].
  - cbn [migrate_records forallb length]. unfold obind.
    destruct (dry_run_record skip_images cl tl mela w log)
      as (res & w' & E & Hok & He).
    rewrite E. destruct (mapper_accepts mela); cbn [andb].
    + rewrite (Hok eq_refl).
      destruct (IH (S success) w') as (Hlog & Hall & Hstop).
      split; [exact Hlog|]. split; [|exact Hstop].
      intros H. rewrite (Hall H). f_equal. f_equal. lia.
    + destruct (He eq_refl) as [e ->]. cbn [fst snd].
      repeat split; [done|eauto].
Qed.

Lemma record_calls (dry_run skip_images : bool) cl tl mela w log
    (res : PyErr + Outcome) w' log' :
  migrate_record dry_run skip_images cl tl mela (w, log) = (res, (w', log')) ->
  exists tr,
    log' = log ++ tr
    /\ (length tr <= 4)%nat
    /\ (dry_run = false -> (1 <= length tr)%nat).
Proof.
  destruct dry_run.
  - destruct (dry_run_record skip_images cl tl mela w log)
      as (res1 & w1 & -> & _).
    intros [= _ _ <-]. exists []. rewrite app_nil_r. cbn.
    repeat split; [lia|done].
  - intros (creates & rest & -> & _ & Hlen & Hrest)%creates_then_writes.
    exists (creates ++ rest). rewrite length_app.
    destruct Hrest as [->|(pre & name & text & _ & Hw)].
    + cbn. repeat split; lia.
    + apply writes_of_length in Hw. repeat split; lia.
Qed.

(** X16: When the loop over the records returns, every record has been counted
    once, as a success or as a failure, and at most four calls were made
    for each of them; outside a dry run at least one call was made for each
    of them. *)
Theorem every_record_counted (dry_run skip_images : bool) cl tl
    (recipes : list (gmap str pyval)) (success failed : nat) w log
    (success' failed' : nat) w' log' :
  migrate_records dry_run skip_images cl tl recipes success failed (w, log)
  = (inr (success', failed'), (w', log')) ->
  (success' + failed' = success + failed + length recipes)%nat
  /\ (success <= success')%nat /\ (failed <= failed')%nat
  /\ exists tr,
       log' = log ++ tr
       /\ (length tr <= 4 * length recipes)%nat
       /\ (dry_run = false -> (length recipes <= length tr)%nat).
Proof.
  revert success failed w log.
  induction recipes as [|mela recipes IH]; intros success failed w log.
  - cbn. intros [= <- <- <- <-]. repeat split; try lia.
    exists []. rewrite app_nil_r. cbn. repeat split; lia.
  - cbn [migrate_records length]. unfold obind.
    destruct (migrate_record dry_run skip_images cl tl mela (w, log))
      as [[e|outcome] [w1 log1]] eqn:Em; [done|].
    apply record_calls in Em as (tr1 & -> & Hmax & Hmin).
    destruct outcome;
      intros (Hsum & Hs & Hf & tr & -> & Hmax' & Hmin')%IH;
      (repeat split; try lia; exists (tr1 ++ tr);
       rewrite <- app_assoc, length_app;
       repeat split; [lia|]; intros Hd;
       specialize (Hmin Hd); specialize (Hmin' Hd); lia).
Qed.

(** *** The texts of the orchestrator *)

Lemma drop_while_app_all {A} (p : A -> bool) (l l' : list A) :
  Forall (fun x => p x = true) l -> drop_while p (l ++ l') = drop_while p l'.
Proof.
  induction 1 as [|x l Hx _ IH]; [reflexivity|]. cbn. now rewrite Hx.
Qed.

Lemma strip_with_padded (p : char -> bool) (ws core ws' : str) :
  Forall (fun c => p c = true) ws -> Forall (fun c => p c = true) ws' ->
  head_kept p core -> head_kept p (rev core) ->
  strip_with p (ws ++ core ++ ws') = core.
Proof.
  intros Hws Hws' Hh Hl. unfold strip_with, lstrip_with, rstrip_with.
  rewrite drop_while_app_all by exact Hws.
  destruct core as [|c core].
  - cbn [app]. rewrite (drop_while_all p ws') by exact Hws'. reflexivity.
  - cbn [app drop_while]. cbn in Hh. rewrite Hh.
    change (c :: core ++ ws') with ((c :: core) ++ ws').
    rewrite rev_app_distr, drop_while_app_all.
    + rewrite drop_while_head_kept by exact Hl. apply rev_involutive.
    + apply Forall_forall. intros x Hx%elem_of_rev.
      rewrite rev_involutive in Hx.
      rewrite Forall_forall in Hws'. now apply Hws'.
Qed.

(** X17: The slug is read back from the answer of a create call: a body made
    of the slug between double quotes, or of the slug alone, with blanks
    around it, gives the slug, provided the slug neither begins nor ends
    with a blank or a double quote. *)
Theorem slug_of_response_quoted (ws q slug q' ws' : str) :
  Forall (fun c => py_isspace c = true) ws ->
  Forall (fun c => py_isspace c = true) ws' ->
  Forall (fun c => c = 34) q -> Forall (fun c => c = 34) q' ->
  head_kept (fun c => py_isspace c || (c =? 34)) slug ->
  head_kept (fun c => py_isspace c || (c =? 34)) (rev slug) ->
  slug_of_response (ws ++ q ++ slug ++ q' ++ ws') = slug.
Proof.
  intros Hws Hws' Hq Hq' Hh Hl. unfold slug_of_response, py_strip.
  assert (Hends : forall s : str,
             head_kept (fun c => py_isspace c || (c =? 34)) s ->
             head_kept py_isspace s /\ head_kept (fun c => c =? 34) s).
  { intros [|c s]; cbn; [done|]. now intros [? ?]%orb_false_iff. }
  apply Hends in Hh as [Hh1 Hh2]. apply Hends in Hl as [Hl1 Hl2].
  assert (Hquote : forall l : str,
             Forall (fun c => c = 34) l -> Forall (fun c => (c =? 34) = true) l).
  { intros l H. eapply Forall_impl; [exact H|]. intros c ->. reflexivity. }
  replace (ws ++ q ++ slug ++ q' ++ ws') with (ws ++ (q ++ slug ++ q') ++ ws')
    by now rewrite <- !app_assoc.
  rewrite strip_with_padded; try assumption.
  - apply strip_with_padded; auto.
  - destruct q as [|c q]; cbn [app].
    + destruct slug as [|c slug]; cbn [app]; [|exact Hh1].
      destruct q' as [|c q']; [done|]. apply Forall_cons in Hq' as [-> _].
      reflexivity.
    + apply Forall_cons in Hq as [-> _]. reflexivity.
  - rewrite !rev_app_distr. destruct (rev q') as [|c rq] eqn:Er; cbn [app].
    + destruct (rev slug) as [|c rs]; cbn [app]; [|exact Hl1].
      destruct (rev q) as [|c rq0] eqn:Erq; [done|].
      assert (Hc : c ∈ rev q) by (rewrite Erq; apply elem_of_cons; now left).
      apply elem_of_rev in Hc. rewrite rev_involutive in Hc.
      rewrite Forall_forall in Hq.
      rewrite (Hq c Hc). reflexivity.
    + assert (Hc : c ∈ rev q') by (rewrite Er; apply elem_of_cons; now left).
      apply elem_of_rev in Hc. rewrite rev_involutive in Hc.
      rewrite Forall_forall in Hq'.
      rewrite (Hq' c Hc). reflexivity.
Qed.

Lemma str_of_Z_inj (z1 z2 : Z) : str_of_Z z1 = str_of_Z z2 -> z1 = z2.
Proof.
  assert (Hneg : forall (n : N) (s : str), str_of_N n <> chr_hyphen :: s).
  { intros n s E. pose proof (str_of_N_digits n) as Hd. rewrite E in Hd.
    apply Forall_cons in Hd as [Hd _]. discriminate Hd. }
  destruct z1 as [|p1|p1], z2 as [|p2|p2]; cbn [str_of_Z]; intros E;
    try (now apply Hneg in E); try (symmetry in E; now apply Hneg in E).
  - reflexivity.
  - apply str_of_N_inj in E. lia.
  - apply str_of_N_inj in E. lia.
  - apply str_of_N_inj in E. lia.
  - injection E as E. apply str_of_N_inj in E. lia.
Qed.

(** X18: The name of the retry is never the title itself, and two retries of
    one title have the same name only when they are made in the same
    second. *)
Theorem unique_title_distinct (title : pyval) (t1 t2 : Z) :
  PStr (unique_title title t1) <> title
  /\ (unique_title title t1 = unique_title title t2 <-> t1 = t2).
Proof.
  unfold unique_title. split.
  - intros E. destruct title as [| | | |s| |]; try discriminate E.
    cbn [py_format] in E. injection E as E.
    apply (f_equal length) in E. rewrite !length_app in E. cbn in E. lia.
  - split; [|now intros ->].
    intros E. apply app_inv_head in E. apply app_inv_head in E.
    apply app_inv_tail in E. now apply str_of_Z_inj.
Qed.

End OrchestratorMore.

(** ** The reference tables *)

Section NameOrder.

Lemma str_ltb_irrefl (a : str) : str_ltb a a = false.
Proof.
  induction a as [|x a IH]; [reflexivity|]. cbn [str_ltb].
  rewrite IH, N.ltb_irrefl. now rewrite andb_false_r.
Qed.

Lemma str_ltb_trans (a b c : str) :
  str_ltb a b = true -> str_ltb b c = true -> str_ltb a c = true.
Proof.
  revert b c. induction a as [|x a IH]; intros [|y b] [|z c]; cbn [str_ltb];
    try done.
  rewrite !orb_true_iff, !andb_true_iff, !N.ltb_lt, !N.eqb_eq.
  intros [Hxy|[-> Hab]] [Hyz|[-> Hbc]]; try (left; lia).
  right. split; [reflexivity|]. now apply (IH b c).
Qed.

Lemma str_ltb_total (a b : str) :
  str_ltb a b = false -> a <> b -> str_ltb b a = true.
Proof.
  revert b. induction a as [|x a IH]; intros [|y b]; cbn [str_ltb]; try done.
  rewrite orb_false_iff, andb_false_iff, orb_true_iff, andb_true_iff,
    N.ltb_ge, N.ltb_lt, !N.eqb_neq, N.eqb_eq.
  intros [Hle [Hne|Hab]] Hd.
  - left. lia.
  - destruct (decide (x = y)) as [->|Hxy]; [|left; lia].
    right. split; [reflexivity|]. apply IH; [exact Hab|]. congruence.
Qed.

Lemma insert_name_head (x : str) (l : list str) :
  head (insert_name x l) = Some x \/ head (insert_name x l) = head l.
Proof.
  destruct l as [|y l]; cbn [insert_name]; [now left|].
  destruct (str_ltb x y); [now left|]. destruct (decide (x = y)); now right.
Qed.

Lemma ascending_cons (x : str) (l : list str) :
  ascending (x :: l) = true
  <-> match head l with Some y => str_ltb x y = true | None => True end
      /\ ascending l = true.
Proof.
  destruct l as [|y l]; cbn [ascending head]; [tauto|].
  now rewrite andb_true_iff.
Qed.

Lemma insert_name_ascending (x : str) (l : list str) :
  ascending l = true -> ascending (insert_name x l) = true.
Proof.
  induction l as [|y l IH]; [reflexivity|]. intros Hl. cbn [insert_name].
  destruct (str_ltb x y) eqn:Exy.
  - apply ascending_cons. cbn [head]. now split.
  - destruct (decide (x = y)) as [->|Hne]; [exact Hl|].
    apply ascending_cons in Hl as [Hy Hl]. apply ascending_cons.
    split; [|now apply IH].
    destruct (insert_name_head x l) as [->| ->]; [|exact Hy].
    now apply str_ltb_total.
Qed.

Lemma elem_of_insert_name (z x : str) (l : list str) :
  z ∈ insert_name x l <-> z = x \/ z ∈ l.
Proof.
  induction l as [|y l IH]; cbn [insert_name].
  - now rewrite elem_of_cons.
  - destruct (str_ltb x y); [now rewrite elem_of_cons|].
    destruct (decide (x = y)) as [->|Hne].
    + rewrite elem_of_cons. tauto.
    + rewrite !elem_of_cons, IH. tauto.
Qed.

Lemma sorted_set_ascending (names : list str) :
  ascending (sorted_set names) = true.
Proof.
  induction names as [|x names IH]; [reflexivity|].
  now apply insert_name_ascending.
Qed.

Lemma elem_of_sorted_set (z : str) (names : list str) :
  z ∈ sorted_set names <-> z ∈ names.
Proof.
  induction names as [|x names IH]; [reflexivity|].
  cbn [sorted_set fold_right]. fold (sorted_set names).
  now rewrite elem_of_insert_name, elem_of_cons, IH.
Qed.

Lemma ascending_above (x : str) (l : list str) :
  ascending (x :: l) = true -> forall z, z ∈ l -> str_ltb x z = true.
Proof.
  revert x. induction l as [|y l IH]; intros x H z Hz.
  - now apply elem_of_nil in Hz.
  - apply ascending_cons in H as [Hxy Hl]. cbn [head] in Hxy.
    apply elem_of_cons in Hz as [->|Hz]; [exact Hxy|].
    apply (str_ltb_trans x y z Hxy). now apply IH.
Qed.

Lemma ascending_unique (l1 l2 : list str) :
  ascending l1 = true -> ascending l2 = true ->
  (forall z, z ∈ l1 <-> z ∈ l2) -> l1 = l2.
Proof.
  revert l2. induction l1 as [|x l1 IH]; intros [|y l2] H1 H2 Hel.
  - reflexivity.
  - assert (H : y ∈ []) by (apply Hel, elem_of_cons; now left).
    now apply elem_of_nil in H.
  - assert (H : x ∈ []) by (apply Hel, elem_of_cons; now left).
    now apply elem_of_nil in H.
  - pose proof (ascending_above x l1 H1) as A1.
    pose proof (ascending_above y l2 H2) as A2.
    assert (Hxy : x = y).
    { assert (Hx : x ∈ y :: l2) by (apply Hel, elem_of_cons; now left).
      assert (Hy : y ∈ x :: l1) by (apply Hel, elem_of_cons; now left).
      apply elem_of_cons in Hx as [Hx|Hx]; [exact Hx|].
      apply elem_of_cons in Hy as [Hy|Hy]; [now symmetry|].
      pose proof (str_ltb_trans x y x (A1 y Hy) (A2 x Hx)) as Hc.
      now rewrite str_ltb_irrefl in Hc. }
    subst y. f_equal.
    apply ascending_cons in H1 as [_ H1]. apply ascending_cons in H2 as [_ H2].
    apply IH; [exact H1|exact H2|]. intros z. split; intros Hz.
    + assert (Hz' : z ∈ x :: l2) by (apply Hel, elem_of_cons; now right).
      apply elem_of_cons in Hz' as [->|Hz']; [|exact Hz'].
      pose proof (A1 x Hz) as Hc. now rewrite str_ltb_irrefl in Hc.
    + assert (Hz' : z ∈ x :: l1) by (apply Hel, elem_of_cons; now right).
      apply elem_of_cons in Hz' as [->|Hz']; [|exact Hz'].
      pose proof (A2 x Hz) as Hc. now rewrite str_ltb_irrefl in Hc.
Qed.

End NameOrder.

Section SetupFacts.
Context {RT : Runtime} {LB : PyLibrary} {W : Type} {TG : Target W}.
Implicit Types (recipes : list (gmap str pyval)) (w : W).
Implicit Types (log tr : list (OrgCall * HttpResult)).
Implicit Types (lookup : gmap str pyval).

Lemma elem_of_flag_tags (z : str) (mela : gmap str pyval) :
  z ∈ flag_tags mela
  <-> (truthy (py_get mela (lit "favorite")) = true /\ z = lit "favorite")
      \/ (truthy (py_get mela (lit "wantToCook")) = true
          /\ z = lit "want-to-cook").
Proof.
  unfold flag_tags.
  destruct (truthy (py_get mela (lit "favorite"))),
           (truthy (py_get mela (lit "wantToCook")));
    cbn [app]; rewrite ?elem_of_cons, elem_of_nil; intuition congruence.
Qed.

Lemma elem_of_all_tags (z : str) recipes :
  z ∈ all_tags recipes
  <-> z = lit "mela-import"
      \/ (existsb (fun mela => truthy (py_get mela (lit "favorite"))) recipes
          = true /\ z = lit "favorite")
      \/ (existsb (fun mela => truthy (py_get mela (lit "wantToCook"))) recipes
          = true /\ z = lit "want-to-cook").
Proof.
  unfold all_tags. rewrite elem_of_cons, list_elem_of_In, in_flat_map.
  rewrite !existsb_exists.
  setoid_rewrite <- list_elem_of_In. setoid_rewrite elem_of_flag_tags.
  split.
  - intros [->|(mela & Hin & [[Hf ->]|[Hw ->]])].
    + now left.
    + right. left. split; eauto.
    + right. right. split; eauto.
  - intros [->|[[(mela & Hin & Hf) ->]|[(mela & Hin & Hw) ->]]].
    + now left.
    + right. exists mela. auto.
    + right. exists mela. auto.
Qed.

(** X23: The tags that the set-up asks for, in the order of the calls: the tag
    of the favourites when a record is one, the import marker in any case,
    and the tag of the recipes to cook when a record is one. *)
Theorem tags_asked_for recipes :
  sorted_set (all_tags recipes)
  = (if existsb (fun mela => truthy (py_get mela (lit "favorite"))) recipes
     then [lit "favorite"] else [])
    ++ [lit "mela-import"]
    ++ (if existsb (fun mela => truthy (py_get mela (lit "wantToCook"))) recipes
        then [lit "want-to-cook"] else []).
Proof.
  apply ascending_unique.
  - apply sorted_set_ascending.
  - now destruct (existsb _ recipes), (existsb _ recipes).
  - intros z. rewrite elem_of_sorted_set, elem_of_all_tags.
    destruct (existsb _ recipes), (existsb _ recipes); cbn [app];
      rewrite ?elem_of_cons, elem_of_nil; intuition congruence.
Qed.


Lemma table_from_app tr tr' lookup :
  table_from tr lookup -> table_from (tr ++ tr') lookup.
Proof.
  intros H k v Hk.
  destruct (H k v Hk) as (c & st & text & data & id & name & Hin & Hrest).
  exists c, st, text, data, id, name. split; [|exact Hrest].
  apply elem_of_app. now left.
Qed.

Lemma table_from_empty tr : table_from tr ∅.
Proof. intros k v H. now rewrite lookup_empty in H. Qed.

Lemma store_entry_from tr (c : OrgCall) (st : Z) (text : str) (data : pyval)
    lookup lookup' :
  (c, Response st text) ∈ tr -> body_json text = inr data ->
  store_entry data lookup = inr lookup' ->
  table_from tr lookup -> table_from tr lookup'.
Proof.
  unfold body_json, store_entry. intros Hin Hj.
  destruct (response_json text) as [data'|] eqn:Ej; [|done].
  injection Hj as ->.
  destruct (subscript data (lit "id")) as [|id] eqn:Ei; [done|].
  destruct (subscript data (lit "name")) as [|name] eqn:En; [done|].
  destruct (subscript data (lit "slug")) as [|slug] eqn:Es; [done|].
  destruct slug as [| | | |s| |]; try done; intros [= <-] H; try exact H.
  intros k v. destruct (decide (s = k)) as [->|Hne].
  - rewrite lookup_insert_eq. intros [= <-].
    exists c, st, text, data, id, name. auto 10.
  - rewrite lookup_insert_ne by exact Hne. apply H.
Qed.

Lemma create_organizer_spec (kind : Organizer) (name : pyval) lookup w log
    lookup' w' log' :
  create_organizer kind name lookup (w, log) = (inr lookup', (w', log')) ->
  exists tr,
    log' = log ++ tr
    /\ calls_for (kind, name) tr
    /\ forall tr0, table_from tr0 lookup -> table_from (tr0 ++ tr) lookup'.
Proof.
  unfold create_organizer, rbind, organizer_request, of_value, rret.
  destruct (send_organizer (PostOrganizer kind name) w) as [[st text|] w1];
    [|done].
  destruct ((st =? 200)%Z || (st =? 201)%Z) eqn:Eok.
  { destruct (body_json text) as [|data] eqn:Ej; [done|].
    destruct (store_entry data lookup) as [|t] eqn:Est; [done|].
    intros [= <- <- <-]. eexists. split; [reflexivity|]. split.
    - left. exists st, text. split; [lia|reflexivity].
    - intros tr0 H0.
      apply (store_entry_from _ (PostOrganizer kind name) st text data lookup t);
        [|exact Ej|exact Est|now apply table_from_app].
      apply elem_of_app. right. apply elem_of_cons. now left. }
  destruct (st =? 409)%Z eqn:E409.
  2:{ intros [= <- <- <-]. eexists. split; [reflexivity|]. split.
      - left. exists st, text. split; [lia|reflexivity].
      - intros tr0 H0. now apply table_from_app. }
  apply Z.eqb_eq in E409 as ->.
  destruct (slugify_value name) as [|slug] eqn:Esl; [done|].
  destruct (send_organizer (GetOrganizer kind slug) w1) as [[st2 text2|] w2];
    [|done].
  destruct (st2 =? 200)%Z.
  - destruct (body_json text2) as [|data] eqn:Ej; [done|].
    destruct (store_entry data lookup) as [|t] eqn:Est; [done|].
    intros [= <- <- <-]. eexists. split; [now rewrite <- app_assoc|]. split.
    + right. exists text, slug, st2, text2. now split.
    + intros tr0 H0.
      apply (store_entry_from _ (GetOrganizer kind slug) st2 text2 data lookup t);
        [|exact Ej|exact Est|now apply table_from_app].
      apply elem_of_app. right. apply elem_of_cons. right.
      apply elem_of_cons. now left.
  - intros [= <- <- <-]. eexists. split; [now rewrite <- app_assoc|]. split.
    + right. exists text, slug, st2, text2. now split.
    + intros tr0 H0. now apply table_from_app.
Qed.


Lemma create_organizers_spec (kind : Organizer) (names : list pyval) lookup
    w log lookup' w' log' :
  create_organizers kind names lookup (w, log) = (inr lookup', (w', log')) ->
  exists trs,
    log' = log ++ concat trs
    /\ Forall2 calls_for (List.map (pair kind) names) trs
    /\ forall tr0, table_from tr0 lookup -> table_from (tr0 ++ concat trs) lookup'.
Proof.
  revert lookup w log. induction names as [|name names IH]; intros lookup w log.
  - cbn. intros [= <- <- <-]. exists []. cbn. rewrite app_nil_r.
    split; [reflexivity|]. split; [constructor|].
    intros tr0 H. now rewrite app_nil_r.
  - cbn [create_organizers]. unfold rbind at 1.
    destruct (create_organizer kind name lookup (w, log))
      as [[e|lookup1] [w1 log1]] eqn:E1; [done|].
    apply create_organizer_spec in E1 as (tr1 & -> & Hcalls & Htab).
    intros (trs & -> & Hall & Htabs)%IH.
    exists (tr1 :: trs). cbn [concat List.map].
    split; [now rewrite <- app_assoc|]. split; [now constructor|].
    intros tr0 H0. rewrite app_assoc. apply Htabs, Htab, H0.
Qed.

(** X20: outside a dry run and with a record at least, a set-up that
    returns has asked the target once for every category, in the order of
    [sorted], and then once for every tag; a name that the target answers
    with 409 is looked up under its slug by one GET, and no other call is
    made. *)
Theorem setup_calls_in_order recipes w log
    (category_lookup tag_lookup : gmap str pyval) w' log' :
  setup_references false recipes (w, log)
  = (inr (Some (category_lookup, tag_lookup)), (w', log')) ->
  exists cats trs,
    sorted_values (all_cats recipes) = inr cats
    /\ log' = log ++ concat trs
    /\ Forall2 calls_for (asked_for cats (sorted_set (all_tags recipes))) trs.
Proof.
  unfold setup_references. destruct recipes as [|mela recipes]; [done|].
  set (rs := mela :: recipes). clearbody rs.
  unfold rbind at 1, of_value at 1.
  destruct (sorted_values (all_cats rs)) as [|cats]; [done|].
  unfold rbind at 1.
  destruct (create_organizers Categories cats ∅ (w, log))
    as [[e|cl] [w1 log1]] eqn:Ec; [done|].
  apply create_organizers_spec in Ec as (trs1 & -> & Hall1 & _).
  unfold rbind at 1.
  destruct (create_organizers Tags _ ∅ (w1, log ++ concat trs1))
    as [[e|tl] [w2 log2]] eqn:Et; [done|].
  apply create_organizers_spec in Et as (trs2 & -> & Hall2 & _).
  intros [= <- <- <- <-]. exists cats, (trs1 ++ trs2).
  split; [reflexivity|]. split; [now rewrite concat_app, app_assoc|].
  unfold asked_for. apply Forall2_app; [exact Hall1|].
  now rewrite List.map_map in Hall2.
Qed.

Lemma setup_tables (dry_run : bool) recipes w log
    (category_lookup tag_lookup : gmap str pyval) w' log' :
  setup_references dry_run recipes (w, log)
  = (inr (Some (category_lookup, tag_lookup)), (w', log')) ->
  exists tr,
    log' = log ++ tr
    /\ table_from tr category_lookup /\ table_from tr tag_lookup.
Proof.
  unfold setup_references. destruct recipes as [|mela recipes]; [done|].
  set (rs := mela :: recipes). clearbody rs. destruct dry_run.
  { intros [= <- <- <- <-]. exists []. rewrite app_nil_r.
    split; [reflexivity|]. split; apply table_from_empty. }
  unfold rbind at 1, of_value at 1.
  destruct (sorted_values (all_cats rs)) as [|cats]; [done|].
  unfold rbind at 1.
  destruct (create_organizers Categories cats ∅ (w, log))
    as [[e|cl] [w1 log1]] eqn:Ec; [done|].
  apply create_organizers_spec in Ec as (trs1 & -> & _ & Htab1).
  unfold rbind at 1.
  destruct (create_organizers Tags _ ∅ (w1, log ++ concat trs1))
    as [[e|tl] [w2 log2]] eqn:Et; [done|].
  apply create_organizers_spec in Et as (trs2 & -> & _ & Htab2).
  intros [= <- <- <- <-]. exists (concat trs1 ++ concat trs2).
  split; [now rewrite app_assoc|]. split.
  - apply table_from_app. apply (Htab1 []), table_from_empty.
  - apply Htab2, table_from_empty.
Qed.

(** X19: every entry of the two tables was read from an answer of the
    target during the set-up: it holds the [id], the [name] and the [slug]
    of that answer, in this order, and it is filed under that slug. *)
Theorem tables_from_answers (dry_run : bool) recipes w log
    (category_lookup tag_lookup : gmap str pyval) w' log' :
  setup_references dry_run recipes (w, log)
  = (inr (Some (category_lookup, tag_lookup)), (w', log')) ->
  exists tr,
    log' = log ++ tr
    /\ table_from tr category_lookup /\ table_from tr tag_lookup.
Proof. apply setup_tables. Qed.

Lemma strs_of_names (values : list pyval) :
  Forall (fun c => is_str c = true) values ->
  exists names, strs_of values = Some names
                /\ forall z, z ∈ names <-> PStr z ∈ values.
Proof.
  induction 1 as [|c values Hc _ (names & E & Hel)].
  - exists []. split; [reflexivity|]. intros z.
    split; intros H; now apply elem_of_nil in H.
  - destruct c as [| | | |s| |]; try discriminate Hc.
    exists (s :: names). cbn [strs_of]. rewrite E. split; [reflexivity|].
    intros z. rewrite !elem_of_cons, Hel. split; intros [H|H]; auto.
    + left. now subst.
    + left. now injection H.
Qed.

(** X21: when the categories of all records are texts, the names that the
    set-up asks for ascend by code points, so that none is asked for twice,
    and they are the names of the records that are not empty. *)
Theorem category_names_in_order recipes :
  Forall (fun mela => Forall (fun c => is_str c = true) (named_categories mela))
    recipes ->
  exists names,
    sorted_values (all_cats recipes) = inr (List.map PStr names)
    /\ ascending names = true
    /\ forall z, z ∈ names
                 <-> exists mela, mela ∈ recipes
                                  /\ PStr z ∈ named_categories mela.
Proof.
  intros Hall.
  assert (Hs : Forall (fun c => is_str c = true) (all_cats recipes)).
  { unfold all_cats. induction Hall as [|mela recipes Hm _ IH]; [constructor|].
    cbn [flat_map]. apply Forall_app. now split. }
  destruct (strs_of_names _ Hs) as (names & E & Hel).
  exists (sorted_set names). unfold sorted_values. rewrite E.
  split; [reflexivity|]. split; [apply sorted_set_ascending|].
  intros z. rewrite elem_of_sorted_set, Hel. unfold all_cats.
  rewrite list_elem_of_In, in_flat_map.
  setoid_rewrite <- list_elem_of_In. reflexivity.
Qed.


Lemma create_organizer_raised (kind : Organizer) (name : pyval) lookup w log
    (res : PyErr + gmap str pyval) w' log' :
  create_organizer kind name lookup (w, log) = (res, (w', log')) ->
  exists tr,
    log' = log ++ tr
    /\ forall c, (c, Raised) ∈ tr -> res = inl RequestException.
Proof.
  unfold create_organizer, rbind, organizer_request, of_value, rret.
  destruct (send_organizer (PostOrganizer kind name) w) as [[st text|] w1].
  2:{ intros [= <- <- <-]. eexists. split; [reflexivity|]. done. }
  assert (Hone : forall (c0 c : OrgCall) (st0 : Z) (t0 : str),
             (c, Raised) ∈ [(c0, Response st0 t0)] -> False).
  { intros c0 c st0 t0 [[=]|H%elem_of_nil]%elem_of_cons. exact H. }
  destruct ((st =? 200)%Z || (st =? 201)%Z).
  { destruct (body_json text) as [|data].
    - intros [= <- <- <-]. eexists. split; [reflexivity|].
      intros c H. now apply Hone in H.
    - intros [= <- <- <-]. eexists. split; [reflexivity|].
      intros c H. now apply Hone in H. }
  destruct (st =? 409)%Z.
  2:{ intros [= <- <- <-]. eexists. split; [reflexivity|].
      intros c H. now apply Hone in H. }
  destruct (slugify_value name) as [|slug].
  { intros [= <- <- <-]. eexists. split; [reflexivity|].
    intros c H. now apply Hone in H. }
  destruct (send_organizer (GetOrganizer kind slug) w1) as [[st2 text2|] w2].
  2:{ intros [= <- <- <-]. eexists. split; [now rewrite <- app_assoc|]. done. }
  assert (Htwo : forall c : OrgCall,
             (c, Raised) ∈ [ (PostOrganizer kind name, Response st text);
                             (GetOrganizer kind slug, Response st2 text2) ] ->
             False).
  { intros c [[=]|H%Hone]%elem_of_cons. exact H. }
  destruct (st2 =? 200)%Z; [destruct (body_json text2) as [|data]|];
    intros [= <- <- <-]; (eexists; split; [now rewrite <- app_assoc|]);
    intros c H; now apply Htwo in H.
Qed.

Lemma create_organizers_raised (kind : Organizer) (names : list pyval) lookup
    w log (res : PyErr + gmap str pyval) w' log' :
  create_organizers kind names lookup (w, log) = (res, (w', log')) ->
  exists tr,
    log' = log ++ tr
    /\ forall c, (c, Raised) ∈ tr -> res = inl RequestException.
Proof.
  revert lookup w log. induction names as [|name names IH]; intros lookup w log.
  - cbn. intros [= <- <- <-]. exists []. rewrite app_nil_r.
    split; [reflexivity|]. intros c H. now apply elem_of_nil in H.
  - cbn [create_organizers]. unfold rbind at 1.
    destruct (create_organizer kind name lookup (w, log))
      as [[e|lookup1] [w1 log1]] eqn:E1;
      apply create_organizer_raised in E1 as (tr1 & -> & H1).
    + intros [= <- <- <-]. exists tr1. split; [reflexivity|exact H1].
    + intros (tr & -> & Htr)%IH. exists (tr1 ++ tr).
      split; [now rewrite <- app_assoc|].
      intros c [Hc|Hc]%elem_of_app; [|now apply (Htr c)].
      now specialize (H1 c Hc).
Qed.

(** X22: no call of the set-up is guarded: a connection error on any of
    them ends the run with that exception.  A dry run, and a run without
    records, make no call. *)
Theorem setup_connection_error (dry_run : bool) recipes w log :
  let result := setup_references dry_run recipes (w, log) in
  exists tr,
    snd (snd result) = log ++ tr
    /\ (forall c, (c, Raised) ∈ tr -> fst result = inl RequestException)
    /\ (dry_run = true \/ recipes = [] -> tr = []).
Proof.
  cbv zeta.
  destruct (setup_references dry_run recipes (w, log)) as [res [w' log']] eqn:E.
  cbn [fst snd]. revert E.
  assert (Hnone : (res, (w', log')) = (res, (w, log)) ->
             exists tr, log' = log ++ tr
                        /\ (forall c, (c, Raised) ∈ tr ->
                                      res = inl RequestException)
                        /\ (dry_run = true \/ recipes = [] -> tr = [])).
  { intros [= <- <-]. exists []. rewrite app_nil_r.
    split; [reflexivity|]. split; [|done].
    intros c H. now apply elem_of_nil in H. }
  unfold setup_references. destruct recipes as [|mela recipes].
  { unfold rret. intros [= <- <- <-]. now apply Hnone. }
  destruct dry_run.
  { unfold rret. intros [= <- <- <-]. now apply Hnone. }
  set (rs := mela :: recipes) in *.
  assert (Hrs : ~ (false = true \/ rs = [])) by (intros [|]; done).
  clearbody rs.
  unfold rbind at 1, of_value at 1.
  destruct (sorted_values (all_cats rs)) as [e|cats].
  { intros [= <- <- <-]. now apply Hnone. }
  unfold rbind at 1.
  destruct (create_organizers Categories cats ∅ (w, log))
    as [[e|cl] [w1 log1]] eqn:Ec;
    apply create_organizers_raised in Ec as (tr1 & -> & H1).
  { intros [= <- <- <-]. exists tr1. split; [reflexivity|].
    split; [|intros H; now destruct Hrs].
    intros c Hc. specialize (H1 c Hc). now injection H1 as ->. }
  unfold rbind at 1.
  destruct (create_organizers Tags _ ∅ (w1, log ++ tr1))
    as [[e|tl] [w2 log2]] eqn:Et;
    apply create_organizers_raised in Et as (tr2 & -> & H2);
    unfold rret; intros [= <- <- <-];
    (exists (tr1 ++ tr2); split; [now rewrite <- app_assoc|];
     split; [|intros H; now destruct Hrs]);
    intros c [Hc|Hc]%elem_of_app.
  - now specialize (H1 c Hc).
  - specialize (H2 c Hc). now injection H2 as ->.
  - now specialize (H1 c Hc).
  - now specialize (H2 c Hc).
Qed.


Lemma references_value_elem (refs refs' : list pyval) :
  references_value refs = Some (PList refs') -> refs' = refs.
Proof. destruct refs; [done|]. now intros [= <-]. Qed.

(** X24: the set-up and the mapper together: every reference that the
    mapper puts under [recipeCategory] or [tags], from the tables that the
    set-up has built, is an entry read from an answer of the target. *)
Theorem references_are_server_entries {G : Type} {IDS : IdSource G}
    recipes w log (category_lookup tag_lookup : gmap str pyval) w' log'
    (mela out : gmap str pyval) (g g' : G) :
  setup_references false recipes (w, log)
  = (inr (Some (category_lookup, tag_lookup)), (w', log')) ->
  convert_mela_to_mealie mela category_lookup tag_lookup g = inr (out, g') ->
  exists tr,
    log' = log ++ tr
    /\ forall key refs v,
         key = lit "recipeCategory" \/ key = lit "tags" ->
         out !! key = Some (PList refs) -> v ∈ refs ->
         exists k, from_answer tr k v.
Proof.
  intros Hs Hc.
  apply setup_tables in Hs as Ht.
  destruct Ht as (tr & -> & Hcl & Htl). exists tr. split; [reflexivity|].
  apply payload_refs in Hc as [Htags Hcats].
  intros key refs v [-> | ->] Hout Hv.
  - rewrite Hcats in Hout.
    destruct (py_get mela (lit "categories")) as [| | | | |cats|]; try done.
    apply references_value_elem in Hout as ->.
    apply list_elem_of_omap in Hv as (c & _ & Hr). unfold resolvable in Hr.
    destruct (truthy c); [|done]. destruct c as [| | | |s| |]; try done.
    exists (slugify s). now apply Hcl.
  - rewrite Htags in Hout. apply references_value_elem in Hout as ->.
    apply list_elem_of_omap in Hv as (tag & _ & Hr).
    exists tag. now apply Htl.
Qed.

End SetupFacts.

(** ** The mapper and the orchestrator on the sample records *)

Import Sample.

(** C1 fails as stated: a [prepTime] in which no count is found still gets
    its key, bound to the text itself, and the key [recipeIngredient] is
    there, bound to the empty list, for a record without ingredients. *)
Lemma unparseable_time_keeps_its_key :
  match convert_mela_to_mealie (RT := Sample.runtime) (G := N)
          Records.soon_recipe ∅ ∅ 0%N with
  | inr (out, _) =>
      unparseable (RT := Sample.runtime) (lit "soon") = true
      /\ out !! lit "prepTime" = Some (PStr (lit "soon"))
      /\ Records.soon_recipe !! lit "ingredients" = None
      /\ out !! lit "recipeIngredient" = Some (PList [])
  | inl _ => False
  end.
Proof. vm_compute. repeat split; reflexivity. Qed.

(** A [prepTime] of blanks only gets its key too, bound to [None]. *)
Example blank_time_is_none :
  match convert_mela_to_mealie (RT := Sample.runtime) (G := N)
          Records.blank_time_recipe ∅ ∅ 0%N with
  | inr (out, _) => out !! lit "prepTime" = Some PNone
  | inl _ => False
  end.
Proof. vm_compute. reflexivity. Qed.

(** The amended C1 on the soup record. *)
Lemma absent_fields_witness :
  exists out g',
    convert_mela_to_mealie (RT := Sample.runtime) (G := N)
      Records.soup_recipe ∅ ∅ 0%N = inr (out, g')
    /\ payload_ok out.
Proof.
  destruct (proj1 (absent_fields_are_omitted (RT := Sample.runtime) (G := N)
                     Records.soup_recipe ∅ ∅ 0%N)
              ltac:(vm_compute; reflexivity)
              ltac:(vm_compute; reflexivity)) as (out & g' & E).
  exists out, g'. split; [exact E|].
  exact (proj2 (proj2 (proj2 (proj2
           (proj2 (absent_fields_are_omitted (RT := Sample.runtime) (G := N)
                     Records.soup_recipe ∅ ∅ 0%N) out g' E))))).
Defined.


(** C10 on the record that has a title and a duration only. *)
Lemma blocks_present_witness :
  exists out g',
    convert_mela_to_mealie (RT := Sample.runtime) (G := N)
      Records.soon_recipe ∅ ∅ 0%N = inr (out, g')
    /\ out !! lit "recipeIngredient" = Some (PList [])
    /\ out !! lit "recipeInstructions" = Some (PList []).
Proof.
  destruct (proj1 (blocks_always_present (RT := Sample.runtime) (G := N)
                     Records.soon_recipe ∅ ∅ 0%N)
              ltac:(vm_compute; reflexivity)
              ltac:(vm_compute; reflexivity)) as (out & g' & E).
  exists out, g'. split; [exact E|].
  destruct (proj2 (blocks_always_present (RT := Sample.runtime) (G := N)
                     Records.soon_recipe ∅ ∅ 0%N) out g' E)
    as (ings & steps & Hi & Hs & Ei & Es).
  rewrite (Ei ltac:(vm_compute; reflexivity)) in Hi.
  rewrite (Es ltac:(vm_compute; reflexivity)) in Hs.
  now split.
Defined.

(** C2 fails as stated: the title is taken, the retry is answered 201, the
    update of the new record is answered 500, and the record is marked
    failed. *)
Lemma retry_succeeds_record_fails :
  let result :=
    migrate_record (RT := Sample.runtime) false false ∅ ∅ Records.soup_recipe
      (Records.update_refused, []) in
  fst result = inr Failed
  /\ List.map snd (snd (snd result))
     = [ Response 409 (lit "taken");
         Response 201 ([34] ++ lit "soup-1" ++ [34]);
         Response 500 (lit "no") ]
  /\ take 2 (List.map fst (snd (snd result)))
     = [ PostRecipe (PStr (lit "Soup"));
         PostRecipe (PStr (lit "Soup (mela-1700000000)")) ]
  /\ List.map (fun e => call_slug (fst e)) (snd (snd result))
     = [ None; None; Some (lit "soup-1") ].
Proof. vm_compute. repeat split; reflexivity. Qed.

(** The amended C2 on the target that accepts the update: the update is
    sent to the new record and the record is marked succeeded. *)
Lemma name_conflict_witness :
  exists rest,
    snd (snd (migrate_record (RT := Sample.runtime) false false ∅ ∅
                Records.soup_recipe (Records.update_accepted, [])))
    = (PostRecipe (PStr (lit "Soup")), Response 409 (lit "taken"))
      :: (PostRecipe (PStr (lit "Soup (mela-1700000000)")),
          Response 201 ([34] ++ lit "soup-1" ++ [34]))
      :: rest
    /\ Forall (fun e => is_create (fst e) = false) rest
    /\ (exists payload,
          rest = [(PatchRecipe (lit "soup-1") payload, Response 200 (lit "ok"))])
    /\ fst (migrate_record (RT := Sample.runtime) false false ∅ ∅
              Records.soup_recipe (Records.update_accepted, []))
       = inr Succeeded.
Proof.
  destruct (proj2 (name_conflict_retried_once (RT := Sample.runtime)
                     (WD := Sample.scripted_world) false ∅ ∅
                     Records.soup_recipe Records.update_accepted []
                     (lit "taken")
                     {| Sample.script :=
                          [ Response 201 ([34] ++ lit "soup-1" ++ [34]);
                            Response 200 (lit "ok") ];
                        Sample.clock := 1700000000;
                        Sample.next_id := 0 |}
                     ltac:(vm_compute; reflexivity)))
    as (rest & Hlog & Hcreate & _ & _ & _ & _ & _ & Hupd).
  exists rest. split; [exact Hlog|]. split; [exact Hcreate|].
  set (created :=
         ({| Sample.script := [ Response 200 (lit "ok") ];
             Sample.clock := 1700000000;
             Sample.next_id := 0 |},
          [ (PostRecipe (PStr (lit "Soup")), Response 409 (lit "taken"));
            (PostRecipe (PStr (lit "Soup (mela-1700000000)")),
             Response 201 ([34] ++ lit "soup-1" ++ [34])) ]) : Run).
  set (c := convert_mela_to_mealie (RT := Sample.runtime) (IDS := run_ids)
              Records.soup_recipe ∅ ∅ created).
  set (payload := match c with inr (p, _) => p | inl _ => ∅ end).
  set (w4 := match c with inr (_, (w, _)) => w | inl _ => fst created end).
  set (log4 := match c with inr (_, (_, l)) => l | inl _ => [] end).
  assert (Ec : c = inr (payload, (w4, log4))) by (vm_compute; reflexivity).
  destruct (Hupd ([34] ++ lit "soup-1" ++ [34]) payload w4 log4
              ltac:(vm_compute; reflexivity) Ec)
    as (rest' & Hr & H200 & _).
  destruct (H200 (lit "ok") ltac:(vm_compute; reflexivity)
              ltac:(right; vm_compute; reflexivity)) as [Hres Hnil].
  split; [|exact Hres].
  exists payload. rewrite Hr, Hnil. reflexivity.
Defined.


(** X3 on the same text. *)
Lemma parse_time_idempotent_witness :
  parse_time_to_iso (RT := Sample.runtime) (PStr (lit "PT1H30M"))
  = inr (PStr (lit "PT1H30M")).
Proof.
  exact (parse_time_idempotent (RT := Sample.runtime) (lit "1 h 30 min")
           (PStr (lit "PT1H30M")) ltac:(vm_compute; reflexivity)
           ltac:(vm_compute; reflexivity)).
Defined.

(** X5 on two spellings of a category. *)
Lemma slugify_ignores_case_witness :
  slugify (RT := Sample.runtime) (lit "Main Course")
  = slugify (RT := Sample.runtime) (lit "MAIN course").
Proof.
  exact (slugify_ignores_case (RT := Sample.runtime) (lit "Main Course")
           (lit "MAIN course") ltac:(vm_compute; reflexivity)
           ltac:(vm_compute; reflexivity) ltac:(vm_compute; reflexivity)).
Defined.

(** X7 on the soup record: the images of the record are no key of the
    payload. *)
Lemma payload_keys_bounded_witness :
  exists out g',
    convert_mela_to_mealie (RT := Sample.runtime) (G := N)
      Records.soup_recipe ∅ ∅ 0%N = inr (out, g')
    /\ out !! lit "images" = None.
Proof.
  destruct (proj2 (convert_accepts (RT := Sample.runtime) (G := N)
                     Records.soup_recipe ∅ ∅ 0%N)
              ltac:(vm_compute; reflexivity)) as (out & g' & E).
  exists out, g'. split; [exact E|].
  apply (payload_keys_bounded (RT := Sample.runtime) (G := N)
           Records.soup_recipe ∅ ∅ 0%N g' out E).
  unfold payload_keys. not_in_keys.
Defined.

(** X8 on the soup record, a favourite of the category Dinner, with a table
    that has the category and a table that has the import marker and the
    tag of the favourites. *)
Lemma payload_references_witness :
  let dinner := PDict [ (lit "id", PStr (lit "c1"));
                        (lit "name", PStr (lit "Dinner"));
                        (lit "slug", PStr (lit "dinner")) ] in
  let marker := PDict [ (lit "id", PStr (lit "t1"));
                        (lit "name", PStr (lit "mela-import"));
                        (lit "slug", PStr (lit "mela-import")) ] in
  let favorite := PDict [ (lit "id", PStr (lit "t2"));
                          (lit "name", PStr (lit "favorite"));
                          (lit "slug", PStr (lit "favorite")) ] in
  let cl := dict_of [ ("dinner"%string, dinner) ] in
  let tl := dict_of [ ("favorite"%string, favorite);
                      ("mela-import"%string, marker) ] in
  exists out g',
    convert_mela_to_mealie (RT := Sample.runtime) (G := N)
      Records.soup_recipe cl tl 0%N = inr (out, g')
    /\ out !! lit "tags" = Some (PList [marker; favorite])
    /\ out !! lit "recipeCategory" = Some (PList [dinner]).
Proof.
  cbv zeta.
  destruct (proj2 (convert_accepts (RT := Sample.runtime) (G := N)
                     Records.soup_recipe
                     (dict_of [ ("dinner"%string,
                                 PDict [ (lit "id", PStr (lit "c1"));
                                         (lit "name", PStr (lit "Dinner"));
                                         (lit "slug", PStr (lit "dinner")) ]) ])
                     (dict_of [ ("favorite"%string,
                                 PDict [ (lit "id", PStr (lit "t2"));
                                         (lit "name", PStr (lit "favorite"));
                                         (lit "slug", PStr (lit "favorite")) ]);
                                ("mela-import"%string,
                                 PDict [ (lit "id", PStr (lit "t1"));
                                         (lit "name", PStr (lit "mela-import"));
                                         (lit "slug", PStr (lit "mela-import")) ]) ])
                     0%N)
              ltac:(vm_compute; reflexivity)) as (out & g' & E).
  exists out, g'. split; [exact E|].
  destruct (payload_references (RT := Sample.runtime) (G := N) _ _ _ _ _ _ E)
    as [Ht Hc].
  split.
  - rewrite Ht. vm_compute. reflexivity.
  - rewrite Hc. vm_compute. reflexivity.
Defined.

(** X16 on a run over the soup record alone, on the target that answers
    409, 201 and 200: one success, and three calls. *)
Lemma every_record_counted_witness :
  (1 + 0 = 0 + 0 + length [Records.soup_recipe])%nat
  /\ exists tr : list (Call * HttpResult),
       (length tr <= 4 * length [Records.soup_recipe])%nat
       /\ (length [Records.soup_recipe] <= length tr)%nat.
Proof.
  assert (E : exists w' log',
             migrate_records (RT := Sample.runtime)
               (WD := Sample.scripted_world) false false ∅ ∅
               [Records.soup_recipe] 0 0 (Records.update_accepted, [])
             = (inr (1%nat, 0%nat), (w', log'))).
  { eexists _, _. vm_compute. reflexivity. }
  destruct E as (w' & log' & E).
  destruct (every_record_counted (RT := Sample.runtime)
              (WD := Sample.scripted_world) _ _ _ _ _ _ _ _ _ _ _ _ _ E)
    as (Hsum & _ & _ & tr & _ & Hmax & Hmin).
  split; [exact Hsum|]. exists tr. split; [exact Hmax|]. now apply Hmin.
Defined.

(** X17 on the slug of the soup between double quotes, with a blank before
    and a line break after. *)
Lemma slug_of_response_quoted_witness :
  slug_of_response ([32] ++ [34] ++ lit "soup-1" ++ [34] ++ [10])
  = lit "soup-1".
Proof.
  exact (slug_of_response_quoted [32] [34]
           (lit "soup-1") [34] [10]
           ltac:(repeat constructor) ltac:(repeat constructor)
           ltac:(repeat constructor) ltac:(repeat constructor)
           ltac:(vm_compute; reflexivity) ltac:(vm_compute; reflexivity)).
Defined.

(** X19 on the soup record and the target that has the tag of the
    favourites already. *)
Lemma tables_from_answers_witness :
  exists (cl tl : gmap str pyval) (tr : list (OrgCall * HttpResult)),
    fst (setup_references (RT := Sample.runtime) (LB := SampleTarget.library)
           (TG := SampleTarget.scripted_target) false [Records.soup_recipe]
           (SampleTarget.organizers, []))
    = inr (Some (cl, tl))
    /\ table_from (LB := SampleTarget.library) tr cl
    /\ table_from (LB := SampleTarget.library) tr tl.
Proof.
  assert (E : exists cl tl w' log',
             setup_references (RT := Sample.runtime)
               (LB := SampleTarget.library)
               (TG := SampleTarget.scripted_target) false [Records.soup_recipe]
               (SampleTarget.organizers, [])
             = (inr (Some (cl, tl)), (w', log'))).
  { eexists _, _, _, _. vm_compute. reflexivity. }
  destruct E as (cl & tl & w' & log' & E).
  destruct (tables_from_answers (RT := Sample.runtime)
              (LB := SampleTarget.library)
              (TG := SampleTarget.scripted_target) _ _ _ _ _ _ _ _ E)
    as (tr & _ & Hcl & Htl).
  exists cl, tl, tr. rewrite E. split; [reflexivity|]. split; assumption.
Defined.

(** X20 on the same run: three names, and one GET. *)
Lemma setup_calls_in_order_witness :
  exists (cats : list pyval) (trs : list (list (OrgCall * HttpResult))),
    sorted_values (LB := SampleTarget.library) (all_cats [Records.soup_recipe])
    = inr cats
    /\ Forall2 (calls_for (RT := Sample.runtime))
         (asked_for cats (sorted_set (all_tags [Records.soup_recipe]))) trs.
Proof.
  assert (E : exists cl tl w' log',
             setup_references (RT := Sample.runtime)
               (LB := SampleTarget.library)
               (TG := SampleTarget.scripted_target) false [Records.soup_recipe]
               (SampleTarget.organizers, [])
             = (inr (Some (cl, tl)), (w', log'))).
  { eexists _, _, _, _. vm_compute. reflexivity. }
  destruct E as (cl & tl & w' & log' & E).
  destruct (setup_calls_in_order (RT := Sample.runtime)
              (LB := SampleTarget.library)
              (TG := SampleTarget.scripted_target) _ _ _ _ _ _ _ E)
    as (cats & trs & Hc & _ & Hall).
  exists cats, trs. split; assumption.
Defined.

(** X21 on the soup record. *)
Lemma category_names_in_order_witness :
  exists names : list str,
    sorted_values (LB := SampleTarget.library) (all_cats [Records.soup_recipe])
    = inr (List.map PStr names)
    /\ ascending names = true.
Proof.
  destruct (category_names_in_order (LB := SampleTarget.library)
              [Records.soup_recipe])
    as (names & E & Ha & _).
  { apply Forall_cons. split; [|constructor].
    vm_compute. repeat constructor. }
  exists names. now split.
Defined.

(** X24 on the same run, and the soup record. *)
Lemma references_are_server_entries_witness :
  exists (out : gmap str pyval) (tr : list (OrgCall * HttpResult)),
    forall key refs v,
      key = lit "recipeCategory" \/ key = lit "tags" ->
      out !! key = Some (PList refs) -> v ∈ refs ->
      exists k, from_answer (LB := SampleTarget.library) tr k v.
Proof.
  assert (E : exists cl tl w' log' out g',
             setup_references (RT := Sample.runtime)
               (LB := SampleTarget.library)
               (TG := SampleTarget.scripted_target) false [Records.soup_recipe]
               (SampleTarget.organizers, [])
             = (inr (Some (cl, tl)), (w', log'))
             /\ convert_mela_to_mealie (RT := Sample.runtime) (G := N)
                  Records.soup_recipe cl tl 0%N = inr (out, g')).
  { eexists _, _, _, _, _, _. split; vm_compute; reflexivity. }
  destruct E as (cl & tl & w' & log' & out & g' & E & Ec).
  destruct (references_are_server_entries (RT := Sample.runtime)
              (LB := SampleTarget.library)
              (TG := SampleTarget.scripted_target) (G := N)
              _ _ _ _ _ _ _ _ _ _ _ E Ec)
    as (tr & _ & H).
  exists out, tr. exact H.
Defined.

(** C7 fails as stated: a text of 4301 nines is a [str] that is not blank,
    and the call raises [ValueError] where the claim has it return a
    [str]. *)
Lemma long_count_raises :
  py_strip (repeat 57 4301) <> []
  /\ parse_time_to_iso (RT := Sample.runtime)
       (time_input (Some (repeat 57 4301)))
     = inl ValueError.
Proof. vm_compute. split; [discriminate|reflexivity]. Qed.

(** C8 fails as stated: the record with a duration of 4301 digits is a
    source record, and the mapper raises [ValueError] on it with empty
    tables. *)
Lemma long_count_fails_with_empty_tables :
  source_recipe (RT := Sample.runtime) Records.long_count_recipe = true
  /\ convert_mela_to_mealie (RT := Sample.runtime) (G := N)
       Records.long_count_recipe ∅ ∅ 0%N
     = inl ValueError.
Proof. vm_compute. split; reflexivity. Qed.
